(** * The SMTP client of the water-monitoring backend (src/backend/src/email.ts)

    A shallow embedding of [email.ts]: the string helpers, the response
    parser, the MIME composer, the single-shot line reader and the session
    driven by [sendEmail], followed by the properties of the specification.

    Conventions.
    - A JavaScript string is a [string]: a sequence of code units, here
      restricted to U+0000..U+00FF (one [ascii] per code unit).
    - What Node and the remote server decide (whether a connection is
      established, which events a socket emits while a read is pending,
      whether a write is flushed) is an input of the model, the record [Net];
      what the client does is recorded, in order, in a trace of [Action]s.
    - A promise that settles is a [Completion]: [Return v] when it resolves,
      [Throw e] when it rejects.  The model assumes that the promises awaited
      for the connection, the TLS handshake and the write callbacks do
      settle. *)

(** The file also embeds the caller of the client: the handler
    [evaluateReading] of the alerts controller (alertsController.ts) with
    the functions it calls, in the module [Alerts], where what the
    database answers and what the clock reads are inputs of the model. *)

From Stdlib Require Import String Ascii List ZArith NArith Bool Lia.
Import ListNotations.
Open Scope string_scope.
Open Scope Z_scope.

(** ** Characters and strings as JavaScript sees them *)

Definition chr (n : nat) : ascii := ascii_of_nat n.
Definition code (c : ascii) : nat := nat_of_ascii c.

Definition LF : string := String (chr 10) "".
Definition CRLF : string := String (chr 13) LF.

(** WhiteSpace and LineTerminator code points below U+0100: the characters
    [String.prototype.trim] strips. *)
Definition is_white (c : ascii) : bool :=
  let n := code c in
  ((9 <=? n) && (n <=? 13) || (n =? 32) || (n =? 160))%nat.

Fixpoint trimStart (s : string) : string :=
  match s with
  | String c r => if is_white c then trimStart r else s
  | "" => ""
  end.

(** [s.trimEnd()]: a character is kept when it is not white or when
    something is kept after it. *)
Fixpoint trimEnd (s : string) : string :=
  match s with
  | String c r =>
      match trimEnd r with
      | "" => if is_white c then "" else String c ""
      | kept => String c kept
      end
  | "" => ""
  end.

(** [s.trim()] *)
Definition trim (s : string) : string := trimEnd (trimStart s).

(** The pieces of [s] between the characters that satisfy [sep]; there is
    always at least one piece. *)
Fixpoint split_by (sep : ascii -> bool) (s : string) : list string :=
  match s with
  | String c r =>
      if sep c then "" :: split_by sep r
      else match split_by sep r with
           | piece :: pieces => String c piece :: pieces
           | [] => [String c ""]
           end
  | "" => [""]
  end.

(** [s.split(sep)] for a one-character separator. *)
Definition split (sep : ascii) (s : string) : list string :=
  split_by (Ascii.eqb sep) s.

(** Truthiness of a string ([Boolean(s)], [s && ...], [!s]). *)
Definition truthy (s : string) : bool :=
  match s with "" => false | _ => true end.

(** [l.join(sep)] *)
Definition join (sep : string) (l : list string) : string := String.concat sep l.

(** [s.includes(needle)] *)
Fixpoint includes (needle s : string) : bool :=
  String.prefix needle s ||
  match s with
  | String _ r => includes needle r
  | "" => false
  end.

(** [s.toLowerCase()] below U+0100: A-Z and the accented capitals
    U+00C0..U+00DE, the multiplication sign U+00D7 apart. *)
Definition lower (c : ascii) : ascii :=
  let n := code c in
  if ((65 <=? n) && (n <=? 90) ||
      (192 <=? n) && (n <=? 222) && negb (n =? 215))%nat
  then chr (n + 32) else c.

Fixpoint toLowerCase (s : string) : string :=
  match s with
  | String c r => String (lower c) (toLowerCase r)
  | "" => ""
  end.

(** Canonicalisation of a character under the regular expression flag [i]
    (no [u] flag): the upper case of the character, unless that maps a
    character from U+0080 up to one below U+0080. Below U+0100 only a-z and
    the accented small letters change; the micro sign and the y with
    diaeresis have their upper case above U+00FF and are compared as they
    are with the ASCII pattern used here. *)
Definition canonicalize (c : ascii) : ascii :=
  let n := code c in
  if ((97 <=? n) && (n <=? 122) ||
      (224 <=? n) && (n <=? 254) && negb (n =? 247))%nat
  then chr (n - 32) else c.

Fixpoint canonical (s : string) : string :=
  match s with
  | String c r => String (canonicalize c) (canonical r)
  | "" => ""
  end.

(** [/STARTTLS/i.test(s)] *)
Definition test_STARTTLS_i (s : string) : bool :=
  includes "STARTTLS" (canonical s).

(** ** [b64]: base64 of the UTF-8 encoding *)

(** [Buffer.from(s, "utf8")] for code units below U+0100. *)
Fixpoint utf8 (s : string) : list N :=
  match s with
  | String c r =>
      let n := N_of_ascii c in
      if (n <? 128)%N then n :: utf8 r
      else (192 + n / 64)%N :: (128 + n mod 64)%N :: utf8 r
  | "" => []
  end.

Definition b64_alphabet : string :=
  "ABCDEFGHIJKLMNOPQRSTUVWXYZabcdefghijklmnopqrstuvwxyz0123456789+/".

Definition b64_char (i : N) : ascii :=
  match String.get (N.to_nat i) b64_alphabet with
  | Some c => c
  | None => "="%char
  end.

(** [buf.toString("base64")] *)
Fixpoint base64 (bytes : list N) : string :=
  match bytes with
  | [] => ""
  | [a] =>
      String (b64_char (a / 4))
        (String (b64_char ((a mod 4) * 16)) "==")
  | [a; b] =>
      String (b64_char (a / 4))
        (String (b64_char ((a mod 4) * 16 + b / 16))
           (String (b64_char ((b mod 16) * 4)) "="))
  | a :: b :: c :: rest =>
      String (b64_char (a / 4))
        (String (b64_char ((a mod 4) * 16 + b / 16))
           (String (b64_char ((b mod 16) * 4 + c / 64))
              (String (b64_char (c mod 64)) (base64 rest))))
  end%N.

Definition b64 (s : string) : string := base64 (utf8 s).

(** ** Response parser *)

Definition is_digit (c : ascii) : bool :=
  ((48 <=? code c) && (code c <=? 57))%nat.

Definition digit_value (c : ascii) : Z := Z.of_nat (code c) - 48.

(** LineTerminator below U+0100: after one of these [^] matches under the
    flag [m]. *)
Definition is_line_terminator (c : ascii) : bool :=
  ((code c =? 10) || (code c =? 13))%nat.

(** [\d{3}] at the head of [s]: the value of the three digits. *)
Definition three_digits (s : string) : option Z :=
  match s with
  | String a (String b (String c _)) =>
      if is_digit a && is_digit b && is_digit c
      then Some (100 * digit_value a + 10 * digit_value b + digit_value c)
      else None
  | _ => None
  end.

(** [resp.match(/^(\d{3})/m)]: the positions are tried from left to right;
    [bol] tells whether [^] matches at the current position. *)
Fixpoint match_code (bol : bool) (s : string) : option Z :=
  match (if bol then three_digits s else None) with
  | Some n => Some n
  | None =>
      match s with
      | String c r => match_code (is_line_terminator c) r
      | "" => None
      end
  end.

Definition extractCode (resp : string) : Z :=
  match match_code true resp with
  | Some n => n
  | None => 0
  end.

(** ** MIME composer *)

(** [rnd] is the text [Math.random().toString(16).slice(2)] of the call. *)
Definition makeMime (rnd from to subject html : string) : string :=
  let boundary := "----wm" ++ rnd in
  let headers :=
    join CRLF
      [ "From: " ++ from;
        "To: " ++ to;
        "Subject: " ++ subject;
        "MIME-Version: 1.0";
        "Content-Type: multipart/alternative; boundary=" ++ String (chr 34) boundary
          ++ String (chr 34) "";
        "" ] in
  let body :=
    join CRLF
      [ "--" ++ boundary;
        "Content-Type: text/html; charset=utf-8";
        "Content-Transfer-Encoding: 7bit";
        "";
        html;
        "--" ++ boundary ++ "--";
        "" ] in
  headers ++ CRLF ++ body.

(** ** Errors, completions and sockets *)

Inductive JsError : Type :=
| SmtpTimeout                                (* new Error("SMTP timeout") *)
| SmtpUnexpected (code : Z) (resp : string)  (* new Error(`SMTP unexpected response (${code}): ${resp}`) *)
| SocketError (what : string).               (* an error reported by the socket or the TLS layer *)

Inductive Completion (A : Type) : Type :=
| Return (a : A)
| Throw (e : JsError).

Arguments Return {A} a.
Arguments Throw {A} e.

Inductive SocketLike : Type :=
| NetSocket                    (* net.connect({ host, port }) *)
| TlsSocket                    (* tls.connect({ host, port, ... }) *)
| TlsOver (plain : SocketLike). (* tls.connect({ socket: plain, ... }) *)

(** What the transport sees the client do, and how each step completed. *)
Inductive Action : Type :=
| Connect (s : SocketLike) (host : string) (port : option Z) (r : option JsError)
| Read (s : SocketLike) (timeoutMs : Z) (r : Completion string)
| Write (s : SocketLike) (data : string) (r : option JsError)
| Secure (s : SocketLike) (r : option JsError)
| End_ (s : SocketLike) (r : option JsError)
| Warn (msg : string)
| LogError (e : JsError).

Definition is_end (a : Action) : bool :=
  match a with End_ _ _ => true | _ => false end.

Definition is_connect (a : Action) : bool :=
  match a with Connect _ _ _ _ => true | _ => false end.

Definition is_secure (a : Action) : bool :=
  match a with Secure _ _ => true | _ => false end.

(** The data written, in order. *)
Fixpoint written (t : list Action) : list string :=
  match t with
  | Write _ data _ :: t' => data :: written t'
  | _ :: t' => written t'
  | [] => []
  end.

Record SendEmailParams : Type := {
  to : string;       (* comma-separated *)
  subject : string;
  html : string }.

(** [process.env] *)
Definition ProcessEnv : Type := string -> option string.

Definition env (penv : ProcessEnv) (k : string) : string :=
  trim (match penv k with
        | Some v => if truthy v then v else ""
        | None => ""
        end).

(** [a && b] on strings *)
Definition js_and (a b : string) : string := if truthy a then b else a.

Definition hasSmtpEnv (penv : ProcessEnv) : string :=
  js_and (js_and (js_and (js_and (env penv "SMTP_HOST") (env penv "SMTP_PORT"))
                    (env penv "SMTP_USER")) (env penv "SMTP_PASS"))
    (env penv "SMTP_FROM").

(** [port === 465] *)
Definition is465 (port : option Z) : bool :=
  match port with
  | Some n => n =? 465
  | None => false
  end.

Section Node.

(** Node's buffers and their decoding [chunk.toString("utf8")]; JavaScript's
    [Number] on strings, [None] standing for every result that is not an
    integer (the program only compares the port with 465 and hands it to
    the connect call). *)
Variable Buffer : Type.
Variable toString_utf8 : Buffer -> string.
Variable Number : string -> option Z.

(** ** Framed transport reader *)

(** What can happen while a read is pending: the socket emits ["data"] or
    ["error"], or the timer of the read fires. *)
Inductive Event : Type :=
| EvData (chunk : Buffer)
| EvError (e : JsError)
| EvTimeout.

(** The state of one call of [readLine]: the local [buf], which of its two
    listeners are registered on the socket, whether its timer is pending,
    the state of its promise, and how many times [resolve] or [reject] was
    called. *)
Record Reading : Type := mkReading {
  buf : string;
  data_listener : bool;
  error_listener : bool;
  timer : bool;
  settled : option (Completion string);
  settlements : nat }.

(** [clearTimeout(t); sock.off("data", onData); sock.off("error", onErr)] *)
Definition cleanup (r : Reading) : Reading :=
  mkReading (buf r) false false false (settled r) (settlements r).

(** [resolve(v)] and [reject(e)]: only the first call settles the promise. *)
Definition settle (c : Completion string) (r : Reading) : Reading :=
  mkReading (buf r) (data_listener r) (error_listener r) (timer r)
    (match settled r with
     | None => Some c
     | Some c0 => Some c0
     end)
    (S (settlements r)).

Definition onData (chunk : Buffer) (r : Reading) : Reading :=
  let r1 := mkReading (buf r ++ toString_utf8 chunk) (data_listener r)
              (error_listener r) (timer r) (settled r) (settlements r) in
  if includes LF (buf r1) then settle (Return (buf r1)) (cleanup r1) else r1.

Definition onErr (e : JsError) (r : Reading) : Reading :=
  settle (Throw e) (cleanup r).

Definition onTimer (r : Reading) : Reading :=
  settle (Throw SmtpTimeout) (cleanup r).

(** The promise executor: the timer is armed and both listeners are
    registered. *)
Definition reading_start : Reading := mkReading "" true true true None 0.

(** An emitter calls only the listeners that are registered; a timer that
    was cleared does not fire. *)
Definition emit (r : Reading) (ev : Event) : Reading :=
  match ev with
  | EvData chunk => if data_listener r then onData chunk r else r
  | EvError e => if error_listener r then onErr e r else r
  | EvTimeout => if timer r then onTimer r else r
  end.

Definition deliver (evs : list Event) (r : Reading) : Reading :=
  fold_left emit evs r.

(** One call of [readLine] against the events [evs]: a timer that is still
    pending after them fires. *)
Definition reading (evs : list Event) : Reading :=
  emit (deliver evs reading_start) EvTimeout.

Definition readLine_result (evs : list Event) : Completion string :=
  match settled (reading evs) with
  | Some c => c
  | None => Throw SmtpTimeout
  end.

(** ** The transport and the session monad *)

(** The behaviour of Node and of the remote server during one call. *)
Record Net : Type := {
  connected : option JsError;         (* the connect promise: None when it resolves *)
  secured : option JsError;           (* the TLS handshake after STARTTLS *)
  closed : option JsError;            (* an exception of sock.end() *)
  emitted : list (list Event);        (* the events during each successive read *)
  flushed : list (option JsError);    (* the callback argument of each successive write *)
  random : string }.                  (* Math.random().toString(16).slice(2) *)

Record World : Type := mkWorld {
  sock : SocketLike;                  (* the variable sock *)
  coming_reads : list (list Event);
  coming_writes : list (option JsError);
  trace : list Action }.

Definition M (A : Type) : Type := World -> Completion A * World.

Definition ret {A} (a : A) : M A := fun w => (Return a, w).

Definition throw {A} (e : JsError) : M A := fun w => (Throw e, w).

Definition bind {A B} (m : M A) (k : A -> M B) : M B :=
  fun w =>
    match m w with
    | (Return a, w') => k a w'
    | (Throw e, w') => (Throw e, w')
    end.

Notation "x <- m ;; k" := (bind m (fun x => k))
  (at level 61, m at next level, right associativity).
Notation "m ;; k" := (bind m (fun _ => k))
  (at level 61, right associativity).

(** [try { body } catch (e) { handler e }] *)
Definition try_catch {A} (body : M A) (handler : JsError -> M A) : M A :=
  fun w =>
    match body w with
    | (Return a, w') => (Return a, w')
    | (Throw e, w') => handler e w'
    end.

(** [try { body } finally { fin }]: an exception of [fin] replaces the
    completion of [body]. *)
Definition try_finally {A} (body : M A) (fin : M unit) : M A :=
  fun w =>
    match body w with
    | (c, w') =>
        match fin w' with
        | (Return _, w'') => (c, w'')
        | (Throw e, w'') => (Throw e, w'')
        end
    end.

(** [try { body } catch {}] *)
Definition swallow (body : M unit) : M unit :=
  try_catch body (fun _ => ret tt).

Definition record (a : Action) (w : World) : World :=
  mkWorld (sock w) (coming_reads w) (coming_writes w) (trace w ++ [a]).

Definition of_error (r : option JsError) : Completion unit :=
  match r with
  | None => Return tt
  | Some e => Throw e
  end.

(** The variable [sock]. *)
Definition with_sock {A} (f : SocketLike -> M A) : M A := fun w => f (sock w) w.

Definition assign_sock (s : SocketLike) : M unit :=
  fun w => (Return tt, mkWorld s (coming_reads w) (coming_writes w) (trace w)).

(** The connect promise of lines 127-130 and 133-136. *)
Definition connecting (net : Net) (s : SocketLike) (host : string) (port : option Z) : M unit :=
  fun w => (of_error (connected net), record (Connect s host port (connected net)) w).

(** The handshake promise of lines 149-152. *)
Definition securing (net : Net) (s : SocketLike) : M unit :=
  fun w => (of_error (secured net), record (Secure s (secured net)) w).

(** [sock.end()] *)
Definition end_ (net : Net) (s : SocketLike) : M unit :=
  fun w => (of_error (closed net), record (End_ s (closed net)) w).

Definition console_warn (msg : string) : M unit :=
  fun w => (Return tt, record (Warn msg) w).

Definition console_error (e : JsError) : M unit :=
  fun w => (Return tt, record (LogError e) w).

Definition readLine (s : SocketLike) (timeoutMs : Z) : M string :=
  fun w =>
    let c := readLine_result (hd [] (coming_reads w)) in
    (c, mkWorld (sock w) (tl (coming_reads w)) (coming_writes w)
          (trace w ++ [Read s timeoutMs c])).

Definition write (s : SocketLike) (data : string) : M unit :=
  fun w =>
    let r := hd None (coming_writes w) in
    (of_error r, mkWorld (sock w) (coming_reads w) (tl (coming_writes w))
                   (trace w ++ [Write s data r])).

Definition expect (s : SocketLike) (okCodes : list Z) (timeoutMs : Z) : M string :=
  resp <- readLine s timeoutMs ;;
  let code := extractCode resp in
  if negb (existsb (Z.eqb code) okCodes)
  then throw (SmtpUnexpected code resp)
  else ret resp.

(** ** The session *)

Definition EHLO : string := "EHLO water-monitoring" ++ CRLF.

(** Lines 147-154: the upgrade, once the STARTTLS command is written. *)
Definition tls_upgrade (net : Net) : M unit :=
  _ <- with_sock (fun sock => expect sock [220] 10000) ;;
  with_sock (fun sock => assign_sock (TlsOver sock)) ;;
  with_sock (fun sock => securing net sock) ;;
  with_sock (fun sock => write sock EHLO) ;;
  _ <- with_sock (fun sock => readLine sock 10000) ;;
  ret tt.

(** Lines 140-155: banner, EHLO, optional STARTTLS upgrade. *)
Definition greet_and_secure (net : Net) (port : option Z) (useStartTls : bool) : M unit :=
  _ <- with_sock (fun sock => expect sock [220] 10000) ;;
  with_sock (fun sock => write sock EHLO) ;;
  ehlo <- with_sock (fun sock => readLine sock 10000) ;;
  if negb (is465 port) && useStartTls && test_STARTTLS_i ehlo then
    with_sock (fun sock => write sock ("STARTTLS" ++ CRLF)) ;;
    tls_upgrade net
  else ret tt.

(** Lines 157-163: AUTH LOGIN. *)
Definition auth_login (user pass : string) : M unit :=
  with_sock (fun sock => write sock ("AUTH LOGIN" ++ CRLF)) ;;
  _ <- with_sock (fun sock => expect sock [334] 10000) ;;
  with_sock (fun sock => write sock (b64 user ++ CRLF)) ;;
  _ <- with_sock (fun sock => expect sock [334] 10000) ;;
  with_sock (fun sock => write sock (b64 pass ++ CRLF)) ;;
  _ <- with_sock (fun sock => expect sock [235] 10000) ;;
  ret tt.

(** Lines 168-171: the loop over the recipients. *)
Fixpoint rcpt_loop (recipients : list string) : M unit :=
  match recipients with
  | [] => ret tt
  | r :: rest =>
      with_sock (fun sock => write sock ("RCPT TO:<" ++ r ++ ">" ++ CRLF)) ;;
      _ <- with_sock (fun sock => expect sock [250; 251] 10000) ;;
      rcpt_loop rest
  end.

(** Lines 165-166: MAIL FROM. *)
Definition mail_from (from : string) : M unit :=
  with_sock (fun sock => write sock ("MAIL FROM:<" ++ from ++ ">" ++ CRLF)) ;;
  _ <- with_sock (fun sock => expect sock [250] 10000) ;;
  ret tt.

(** Lines 140-166: the session up to the loop over the recipients. *)
Definition until_recipients (net : Net) (port : option Z) (useStartTls : bool)
    (user pass from : string) : M unit :=
  greet_and_secure net port useStartTls ;;
  auth_login user pass ;;
  mail_from from.

(** Lines 173-179: DATA and the message. *)
Definition send_data (net : Net) (from : string) (recipients : list string)
    (params : SendEmailParams) : M unit :=
  with_sock (fun sock => write sock ("DATA" ++ CRLF)) ;;
  _ <- with_sock (fun sock => expect sock [354] 10000) ;;
  let mime := makeMime (random net) from (join ", " recipients) (subject params) (html params) in
  with_sock (fun sock => write sock (mime ++ CRLF ++ "." ++ CRLF)) ;;
  _ <- with_sock (fun sock => expect sock [250] 10000) ;;
  ret tt.

Definition QUIT : string := "QUIT" ++ CRLF.

(** Lines 157-182: what the [try] block does after the greeting. *)
Definition after_greeting (net : Net) (user pass from : string)
    (recipients : list string) (params : SendEmailParams) : M bool :=
  auth_login user pass ;;
  mail_from from ;;
  rcpt_loop recipients ;;
  send_data net from recipients params ;;
  with_sock (fun sock => write sock QUIT) ;;
  ret true.

(** The [try] block, lines 139-182. *)
Definition try_block (net : Net) (port : option Z) (useStartTls : bool)
    (user pass from : string) (recipients : list string) (params : SendEmailParams) : M bool :=
  greet_and_secure net port useStartTls ;;
  after_greeting net user pass from recipients params.

(** The [catch] block, lines 183-188. *)
Definition catch_block (e : JsError) : M bool :=
  console_error e ;;
  swallow (with_sock (fun sock => write sock QUIT)) ;;
  ret false.

(** The [finally] block, lines 189-193. *)
Definition finally_block (net : Net) : M unit :=
  swallow (with_sock (fun sock => end_ net sock)).

(** The text of the warning (its leading warning sign, a character above
    U+00FF, is left out). *)
Definition not_configured : string :=
  "SMTP is not configured (SMTP_HOST/SMTP_PORT/SMTP_USER/SMTP_PASS/SMTP_FROM). Skipping email send.".

(** [params.to.split(",").map((s) => s.trim()).filter(Boolean)] *)
Definition parse_recipients (to : string) : list string :=
  filter truthy (map trim (split "," to)).

Definition sendEmail_body (penv : ProcessEnv) (net : Net) (params : SendEmailParams) : M bool :=
  if negb (truthy (hasSmtpEnv penv)) then
    console_warn not_configured ;;
    ret false
  else
    let host := env penv "SMTP_HOST" in
    let port := Number (env penv "SMTP_PORT") in
    let user := env penv "SMTP_USER" in
    let pass := env penv "SMTP_PASS" in
    let from := env penv "SMTP_FROM" in
    let useStartTls := String.eqb (toLowerCase (env penv "SMTP_STARTTLS")) "true" in
    let recipients := parse_recipients (to params) in
    if (length recipients =? 0)%nat then ret false
    else
      (if is465 port then
         assign_sock TlsSocket ;;
         with_sock (fun sock => connecting net sock host port)
       else
         assign_sock NetSocket ;;
         with_sock (fun sock => connecting net sock host port)) ;;
      try_finally
        (try_catch
           (try_block net port useStartTls user pass from recipients params)
           catch_block)
        (finally_block net).

(** The world at the call: [sock] is declared and not yet assigned (its
    initial value here is never read), nothing has happened yet. *)
Definition world0 (net : Net) : World :=
  mkWorld NetSocket (emitted net) (flushed net) [].

(** The promise returned by [sendEmail] and what the transport observed. *)
Definition sendEmail (penv : ProcessEnv) (net : Net) (params : SendEmailParams)
  : Completion bool * list Action :=
  match sendEmail_body penv net params (world0 net) with
  | (c, w) => (c, trace w)
  end.

End Node.

Arguments EvData {Buffer} chunk.
Arguments EvError {Buffer} e.
Arguments EvTimeout {Buffer}.
Arguments onData {Buffer} toString_utf8 chunk r.
Arguments emit {Buffer} toString_utf8 r ev.
Arguments deliver {Buffer} toString_utf8 evs r.
Arguments reading {Buffer} toString_utf8 evs.
Arguments readLine_result {Buffer} toString_utf8 evs.
Arguments Build_Net {Buffer}.
Arguments connected {Buffer} n.
Arguments secured {Buffer} n.
Arguments closed {Buffer} n.
Arguments emitted {Buffer} n.
Arguments flushed {Buffer} n.
Arguments random {Buffer} n.
Arguments mkWorld {Buffer}.
Arguments sock {Buffer} w.
Arguments coming_reads {Buffer} w.
Arguments coming_writes {Buffer} w.
Arguments trace {Buffer} w.
Arguments ret {Buffer A} a w.
Arguments throw {Buffer A} e w.
Arguments bind {Buffer A B} m k w.
Arguments try_catch {Buffer A} body handler w.
Arguments try_finally {Buffer A} body fin w.
Arguments swallow {Buffer} body w.
Arguments record {Buffer} a w.
Arguments with_sock {Buffer A} f w.
Arguments assign_sock {Buffer} s w.
Arguments connecting {Buffer} net s host port w.
Arguments securing {Buffer} net s w.
Arguments end_ {Buffer} net s w.
Arguments console_warn {Buffer} msg w.
Arguments console_error {Buffer} e w.
Arguments readLine {Buffer} toString_utf8 s timeoutMs w.
Arguments write {Buffer} s data w.
Arguments expect {Buffer} toString_utf8 s okCodes timeoutMs w.
Arguments tls_upgrade {Buffer} toString_utf8 net w.
Arguments greet_and_secure {Buffer} toString_utf8 net port useStartTls w.
Arguments auth_login {Buffer} toString_utf8 user pass w.
Arguments rcpt_loop {Buffer} toString_utf8 recipients w.
Arguments mail_from {Buffer} toString_utf8 from w.
Arguments until_recipients {Buffer} toString_utf8 net port useStartTls user pass from w.
Arguments send_data {Buffer} toString_utf8 net from recipients params w.
Arguments after_greeting {Buffer} toString_utf8 net user pass from recipients params w.
Arguments try_block {Buffer} toString_utf8 net port useStartTls user pass from recipients params w.
Arguments catch_block {Buffer} e w.
Arguments finally_block {Buffer} net w.
Arguments sendEmail_body {Buffer} toString_utf8 Number penv net params w.
Arguments world0 {Buffer} net.
Arguments sendEmail {Buffer} toString_utf8 Number penv net params.

(** ** The specification's wording of the parser and of a line *)

(** The lines of a text: its pieces between line terminators. *)
Definition lines (text : string) : list string := split_by is_line_terminator text.

(** The three-digit code at the head of the first line that has one. *)
Fixpoint first_code (ls : list string) : option Z :=
  match ls with
  | l :: rest =>
      match three_digits l with
      | Some n => Some n
      | None => first_code rest
      end
  | [] => None
  end.

Definition code_of_first_coded_line (resp : string) : Z :=
  match first_code (lines resp) with
  | Some n => n
  | None => 0
  end.

(** A complete line: bytes up to and including a newline character, and
    nothing after it. *)
Fixpoint is_one_line (s : string) : bool :=
  match s with
  | String c r =>
      if Ascii.eqb c (chr 10) then
        match r with "" => true | _ => false end
      else is_one_line r
  | "" => false
  end.

(** The lines of a message, each followed by CRLF. *)
Fixpoint crlf_lines (ls : list string) : string :=
  match ls with
  | l :: rest => l ++ CRLF ++ crlf_lines rest
  | [] => ""
  end.

(** Listeners and timer that a call of [readLine] holds on the connection. *)
Definition held (r : Reading) : nat :=
  (if data_listener r then 1 else 0) + (if error_listener r then 1 else 0)
  + (if timer r then 1 else 0).

(** The text accumulated from a sequence of chunks, each decoded on its
    own. *)
Definition accumulated {Buffer} (toString_utf8 : Buffer -> string)
    (chunks : list Buffer) : string :=
  String.concat "" (map toString_utf8 chunks).

(** A read that still waits holds its two listeners and its timer and has
    called neither [resolve] nor [reject]. *)
Definition waiting (r : Reading) : Prop :=
  settled r = None /\ data_listener r = true /\ error_listener r = true /\
  timer r = true /\ settlements r = 0%nat /\ includes LF (buf r) = false.

(** A read that is over has settled by exactly one call, holds nothing, and
    a text it resolved with contains a newline. *)
Definition over (r : Reading) : Prop :=
  (exists c, settled r = Some c /\
             forall text, c = Return text -> includes LF text = true) /\
  held r = 0%nat /\ settlements r = 1%nat.

(** What successive calls of [readLine] on one connection leave behind. *)
Definition left_behind {Buffer} (toString_utf8 : Buffer -> string)
    (calls : list (list (Event Buffer))) : nat :=
  list_sum (map (fun evs => held (reading toString_utf8 evs)) calls).

(** ** Reasoning about what a computation does *)

(** [acts S P m]: started with the variable [sock] in [S], the computation
    [m] leaves it in [S], and only adds to the trace steps that satisfy
    [P]. *)
Definition acts {Buffer A} (S : SocketLike -> Prop) (P : Action -> Prop)
    (m : M Buffer A) : Prop :=
  forall w c w', S (sock w) -> m w = (c, w') ->
    S (sock w') /\ exists d, trace w' = (trace w ++ d)%list /\ Forall P d.

(** The step writes the text [cmd]. *)
Definition sends (cmd : string) (a : Action) : bool :=
  match a with
  | Write _ data _ => String.eqb data cmd
  | _ => false
  end.

(** The step, when it uses a socket, uses [s]. *)
Definition on_socket (s : SocketLike) (a : Action) : Prop :=
  match a with
  | Connect s' _ _ _ | Read s' _ _ | Write s' _ _ | Secure s' _ | End_ s' _ => s' = s
  | Warn _ | LogError _ => True
  end.

(** The text of the commands. *)
Definition RCPT_TO (r : string) : string := "RCPT TO:<" ++ r ++ ">" ++ CRLF.
Definition MAIL_FROM (from : string) : string := "MAIL FROM:<" ++ from ++ ">" ++ CRLF.
Definition STARTTLS : string := "STARTTLS" ++ CRLF.
Definition AUTH_LOGIN : string := "AUTH LOGIN" ++ CRLF.
Definition DATA : string := "DATA" ++ CRLF.

(** A user name or password as sent in the AUTH LOGIN exchange. *)
Definition credential (s : string) : string := b64 s ++ CRLF.

(** The message and its end marker, as written after DATA. *)
Definition payload_of {Buffer} (net : Net Buffer) (from : string)
    (recipients : list string) (params : SendEmailParams) : string :=
  makeMime (random net) from (join ", " recipients) (subject params) (html params)
  ++ CRLF ++ "." ++ CRLF.

(** The world once the connection is established on [s]. *)
Definition connected_world {Buffer} (net : Net Buffer) (s : SocketLike)
    (host : string) (port : option Z) : World Buffer :=
  mkWorld s (emitted net) (flushed net) [Connect s host port None].

(** The socket the connection is made on. *)
Definition first_socket (port : option Z) : SocketLike :=
  if is465 port then TlsSocket else NetSocket.

(** [useStartTls] *)
Definition useStartTls_of (penv : ProcessEnv) : bool :=
  String.eqb (toLowerCase (env penv "SMTP_STARTTLS")) "true".

(** The session of a call up to the loop over the recipients, run once the
    connection is established. *)
Definition session_until_recipients {Buffer} (toString_utf8 : Buffer -> string)
    (Number : string -> option Z) (penv : ProcessEnv) (net : Net Buffer)
  : Completion unit * World Buffer :=
  let port := Number (env penv "SMTP_PORT") in
  until_recipients toString_utf8 net port (useStartTls_of penv)
    (env penv "SMTP_USER") (env penv "SMTP_PASS") (env penv "SMTP_FROM")
    (connected_world net (first_socket port) (env penv "SMTP_HOST") port).

(** The greeting of a call, run once the connection is established. *)
Definition session_greeting {Buffer} (toString_utf8 : Buffer -> string)
    (Number : string -> option Z) (penv : ProcessEnv) (net : Net Buffer)
  : Completion unit * World Buffer :=
  let port := Number (env penv "SMTP_PORT") in
  greet_and_secure toString_utf8 net port (useStartTls_of penv)
    (connected_world net (first_socket port) (env penv "SMTP_HOST") port).

(** The [try] block of a call, run once the connection is established. *)
Definition session {Buffer} (toString_utf8 : Buffer -> string)
    (Number : string -> option Z) (penv : ProcessEnv) (net : Net Buffer)
    (params : SendEmailParams) : Completion bool * World Buffer :=
  let port := Number (env penv "SMTP_PORT") in
  try_block toString_utf8 net port (useStartTls_of penv)
    (env penv "SMTP_USER") (env penv "SMTP_PASS") (env penv "SMTP_FROM")
    (parse_recipients (to params)) params
    (connected_world net (first_socket port) (env penv "SMTP_HOST") port).

(** What [catch] and [finally] make of the completion of the [try] block. *)
Definition concluded {Buffer} (net : Net Buffer)
    (r : Completion bool * World Buffer) : Completion bool * list Action :=
  match r with
  | (Return b, w) => (Return b, trace w ++ [End_ (sock w) (closed net)])%list
  | (Throw e, w) =>
      (Return false,
       trace w ++ [LogError e; Write (sock w) QUIT (hd None (coming_writes w));
                   End_ (sock w) (closed net)])%list
  end.

(** The five required settings are present. *)
Definition configured (penv : ProcessEnv) : Prop := truthy (hasSmtpEnv penv) = true.

(** A reply that [expect] accepts for [codes]. *)
Definition accepted {Buffer} (toString_utf8 : Buffer -> string) (codes : list Z)
    (evs : list (Event Buffer)) : Prop :=
  exists text, readLine_result toString_utf8 evs = Return text /\
               In (extractCode text) codes.

(** Every write of the list is flushed. *)
Definition all_flushed (l : list (option JsError)) : Prop :=
  Forall (fun r => r = None) l.

(** A world in a session whose writes are all flushed: the variable
    [sock], the events of the coming reads, the texts written so far. *)
Definition in_state {Buffer} (w : World Buffer) (s : SocketLike)
    (reads : list (list (Event Buffer))) (texts : list string) : Prop :=
  sock w = s /\ coming_reads w = reads /\ all_flushed (coming_writes w) /\
  written (trace w) = texts.

(** How many times the text [cmd] was written. *)
Definition times_sent (cmd : string) (t : list Action) : nat :=
  count_occ string_dec (written t) cmd.

(** A step of a session that stays on the socket [s]: it uses [s], it is
    not a TLS handshake, and it does not write the STARTTLS command. *)
Definition plain_step (s : SocketLike) (a : Action) : Prop :=
  on_socket s a /\ is_secure a = false /\ sends STARTTLS a = false.

(** A step that follows the AUTH LOGIN command on the socket [s]. *)
Definition later_step (s : SocketLike) (a : Action) : Prop :=
  plain_step s a /\ sends AUTH_LOGIN a = false.

(** The replies 334, 334 and 235 to the AUTH LOGIN exchange, among the
    coming reads. *)
Definition answers_auth {Buffer} (toString_utf8 : Buffer -> string)
    (reads : list (list (Event Buffer))) : Prop :=
  accepted toString_utf8 [334] (nth 0 reads []) /\
  accepted toString_utf8 [334] (nth 1 reads []) /\
  accepted toString_utf8 [235] (nth 2 reads []).

(** The five settings [hasSmtpEnv] requires. *)
Definition required_settings : list string :=
  ["SMTP_HOST"; "SMTP_PORT"; "SMTP_USER"; "SMTP_PASS"; "SMTP_FROM"].

(** ** A concrete instance: text chunks, decimal ports *)

Module Sample.

Fixpoint decimal_go (s : string) (acc : Z) : option Z :=
  match s with
  | String c r => if is_digit c then decimal_go r (10 * acc + digit_value c) else None
  | "" => Some acc
  end.

(** [Number] on the strings of decimal digits. *)
Definition decimal (s : string) : option Z :=
  match s with
  | "" => None
  | _ => decimal_go s 0
  end.

Definition text (chunk : string) : string := chunk.

Definition settings (port starttls : string) : ProcessEnv :=
  fun k =>
    if String.eqb k "SMTP_HOST" then Some "mail.example.org"
    else if String.eqb k "SMTP_PORT" then Some port
    else if String.eqb k "SMTP_USER" then Some "user"
    else if String.eqb k "SMTP_PASS" then Some "pass"
    else if String.eqb k "SMTP_FROM" then Some "alerts@example.org"
    else if String.eqb k "SMTP_STARTTLS" then Some starttls
    else None.

Definition reply (s : string) : list (Event string) := [EvData (s ++ CRLF)].

(** A reply delivered in three chunks, the last one holding more than the
    end of the line. *)
Definition first_chunks : list string := ["220 "; "rea"].
Definition last_chunk : string := "dy" ++ CRLF ++ "250 extra".

Definition alert : SendEmailParams :=
  {| to := "a@x.org, b@y.org ,"; subject := "Alert"; html := "<p>pH high</p>" |}.

(** The replies of a server that follows the protocol, with STARTTLS, for
    two recipients. *)
Definition banner : list (Event string) := reply "220 mail.example.org ESMTP".
Definition ehlo_reply : list (Event string) :=
  reply ("250-mail.example.org" ++ CRLF ++ "250 STARTTLS").
Definition go_ahead : list (Event string) := reply "220 go ahead".
Definition ehlo_again : list (Event string) := reply "250 mail.example.org".
Definition ask_user : list (Event string) := reply "334 VXNlcm5hbWU6".
Definition ask_pass : list (Event string) := reply "334 UGFzc3dvcmQ6".
Definition auth_ok : list (Event string) := reply "235 ok".
Definition sender_ok : list (Event string) := reply "250 sender ok".
Definition rcpt_replies : list (list (Event string)) :=
  [reply "250 rcpt ok"; reply "251 forwarding"].
Definition data_go : list (Event string) := reply "354 go".
Definition queued : list (Event string) := reply "250 queued".

Definition happy_replies : list (list (Event string)) :=
  [banner; ehlo_reply; go_ahead; ehlo_again; ask_user; ask_pass; auth_ok; sender_ok]
  ++ rcpt_replies ++ [data_go; queued] ++ [].

Definition happy : Net string :=
  {| connected := None; secured := None; closed := None;
     emitted := happy_replies;
     flushed := [];
     random := "8f3a2c" |}.

(** The connection is refused. *)
Definition refused : Net string :=
  {| connected := Some (SocketError "ECONNREFUSED"); secured := None; closed := None;
     emitted := []; flushed := []; random := "8f3a2c" |}.

(** The protocol succeeds and the closing QUIT cannot be written. *)
Definition quit_fails : Net string :=
  {| connected := None; secured := None; closed := None;
     emitted := happy_replies;
     flushed := repeat None 11 ++ [Some (SocketError "EPIPE")];
     random := "8f3a2c" |}.

(** The second recipient is refused. *)
Definition second_refused : Net string :=
  {| connected := None; secured := None; closed := None;
     emitted := [banner; ehlo_reply; go_ahead; ehlo_again; ask_user; ask_pass; auth_ok;
                 sender_ok; reply "250 rcpt ok"; reply "550 no such user"];
     flushed := [];
     random := "8f3a2c" |}.

(** The configuration and the worlds of the sample sessions. *)
Definition smtp : ProcessEnv := settings "587" "true".

Definition greeted : World string := snd (session_greeting text decimal smtp happy).

Definition at_recipients : World string :=
  snd (session_until_recipients text decimal smtp second_refused).

Definition first_accepted : World string :=
  snd (rcpt_loop text ["a@x.org"] at_recipients).

End Sample.

(** ** Further notions used in the statements *)

(** The first and the last character of a text. *)
Definition first_char (s : string) : option ascii :=
  match s with
  | String c _ => Some c
  | "" => None
  end.

Fixpoint last_char (s : string) : option ascii :=
  match s with
  | String c r =>
      match last_char r with
      | Some d => Some d
      | None => Some c
      end
  | "" => None
  end.

(** The character at an end of a text is white space. *)
Definition white_edge (o : option ascii) : bool :=
  match o with
  | Some c => is_white c
  | None => false
  end.

(** The text has no comma. *)
Definition no_comma (s : string) : bool :=
  forallb (fun c => negb (Ascii.eqb "," c)) (list_ascii_of_string s).

(** A text that is not empty, has no comma, and has no white space at
    either end. *)
Definition tidy (r : string) : bool :=
  truthy r && no_comma r && negb (white_edge (first_char r)) && negb (white_edge (last_char r)).

(** The pieces between the commas of a list of tidy texts joined by a
    comma and a space. *)
Definition spaced (rs : list string) : list string :=
  match rs with
  | r :: rest => r :: map (String " ") rest
  | [] => [""]
  end.

(** A character of the base64 alphabet, or the padding sign. *)
Definition is_b64_symbol (c : ascii) : bool :=
  let n := code c in
  ((65 <=? n) && (n <=? 90) || (97 <=? n) && (n <=? 122) || (48 <=? n) && (n <=? 57)
   || (n =? 43) || (n =? 47) || (n =? 61))%nat.

(** The position of the first occurrence of a character in a text. *)
Fixpoint index_of (c : ascii) (s : string) : N :=
  match s with
  | String d r => if Ascii.eqb c d then 0%N else (1 + index_of c r)%N
  | "" => 0%N
  end.

(** Every CR of the text is followed by LF and every LF follows a CR. *)
Fixpoint crlf_wellformed (s : string) : bool :=
  match s with
  | String c r =>
      if Ascii.eqb c (chr 13) then
        match r with
        | String d r' => Ascii.eqb d (chr 10) && crlf_wellformed r'
        | "" => false
        end
      else if Ascii.eqb c (chr 10) then false
      else crlf_wellformed r
  | "" => true
  end.

(** The text starts with LF. *)
Definition starts_with_LF (s : string) : bool :=
  match s with
  | String c _ => Ascii.eqb c (chr 10)
  | "" => false
  end.

(** The double quote. *)
Definition quote : string := String (chr 34) "".

(** A text without CR and LF. *)
Definition plain (s : string) : bool :=
  forallb (fun c => negb (is_line_terminator c)) (list_ascii_of_string s).

(** ** The conversation of a session *)

(** What a step of a conversation that goes well is: a text written and
    flushed, a reply read within ten seconds whose code is among [codes],
    a reply read within ten seconds whatever it says, the TLS handshake
    over the socket in use. *)
Inductive Step : Type :=
| Sent (data : string)
| Got (codes : list Z)
| Line
| Handshake.

(** The steps [d] are the conversation [steps], started on the socket
    [s]; after a handshake the conversation continues on the TLS socket. *)
Fixpoint follows (s : SocketLike) (steps : list Step) (d : list Action) : Prop :=
  match steps, d with
  | [], [] => True
  | Sent data :: steps', Write s' x None :: d' =>
      s' = s /\ x = data /\ follows s steps' d'
  | Got codes :: steps', Read s' t (Return text) :: d' =>
      s' = s /\ t = 10000 /\ In (extractCode text) codes /\ follows s steps' d'
  | Line :: steps', Read s' t (Return _) :: d' =>
      s' = s /\ t = 10000 /\ follows s steps' d'
  | Handshake :: steps', Secure s' None :: d' =>
      s' = TlsOver s /\ follows (TlsOver s) steps' d'
  | _, _ => False
  end.

(** The socket in use after a conversation started on [s]. *)
Fixpoint socket_after (s : SocketLike) (steps : list Step) : SocketLike :=
  match steps with
  | Handshake :: steps' => socket_after (TlsOver s) steps'
  | _ :: steps' => socket_after s steps'
  | [] => s
  end.

(** When [m] returns, what it did is one of the conversations [shapes]. *)
Definition proceeds {Buffer A} (shapes : list (list Step)) (m : M Buffer A) : Prop :=
  forall w a w', m w = (Return a, w') ->
    exists steps d, In steps shapes /\ trace w' = (trace w ++ d)%list /\
                    follows (sock w) steps d /\ sock w' = socket_after (sock w) steps.

Definition plain_greeting : list Step := [Got [220]; Sent EHLO; Line].

Definition upgraded_greeting : list Step :=
  [Got [220]; Sent EHLO; Line; Sent STARTTLS; Got [220]; Handshake; Sent EHLO; Line].

Definition rcpt_steps (recipients : list string) : list Step :=
  flat_map (fun r => [Sent (RCPT_TO r); Got [250; 251]]) recipients.

(** The whole conversation of a message that is handed over. *)
Definition conversation (greeting : list Step) (user pass from : string)
    (recipients : list string) (payload : string) : list Step :=
  (greeting
   ++ [Sent AUTH_LOGIN; Got [334]; Sent (credential user); Got [334];
       Sent (credential pass); Got [235]; Sent (MAIL_FROM from); Got [250]]
   ++ rcpt_steps recipients
   ++ [Sent DATA; Got [354]; Sent payload; Got [250]; Sent QUIT])%list.

(** A step that reads a reply waits for it ten seconds at most. *)
Definition waits_ten_seconds (a : Action) : Prop :=
  match a with
  | Read _ timeoutMs _ => timeoutMs = 10000
  | _ => True
  end.

(** A step that writes on the socket of the plain connection writes one of
    the three commands that carry no secret. *)
Definition nothing_secret (a : Action) : Prop :=
  match a with
  | Write NetSocket x _ => In x [EHLO; STARTTLS; QUIT]
  | _ => True
  end.

(** ** The alerts controller (alertsController.ts), the caller of [sendEmail] *)

From Stdlib Require QArith.

Module Alerts.

Import QArith_base.
Local Open Scope string_scope.
Local Open Scope Z_scope.

(** A JavaScript number.  A finite one is the rational it stands for: the
    program only compares the numbers it reads, and comparing finite
    numbers is exact. *)
Inductive JsNumber : Type :=
| NaN
| PlusInfinity
| MinusInfinity
| Finite (q : Q).

(** A value found in a JSON body or in a row of the database; an object
    or an array comes with the text [String(v)] makes of it. *)
Inductive Json : Type :=
| JUndefined
| JNull
| JBool (b : bool)
| JNumber (n : JsNumber)
| JString (s : string)
| JObject (as_text : string).

(** Truthiness of a value ([v || d], [if (v)]). *)
Definition truthy_value (v : Json) : bool :=
  match v with
  | JUndefined | JNull => false
  | JBool b => b
  | JNumber NaN => false
  | JNumber (Finite q) => negb (Qeq_bool q (inject_Z 0))
  | JNumber _ => true
  | JString s => truthy s
  | JObject _ => true
  end.

Definition isNumber (v : Json) : bool :=
  match v with
  | JNumber (Finite _) => true
  | _ => false
  end.

(** The number a value is, once it passed [isNumber]. *)
Definition number (v : Json) : Q :=
  match v with
  | JNumber (Finite q) => q
  | _ => inject_Z 0
  end.

(** [a < b] and [a > b] on values that passed [isNumber]. *)
Definition lt (a b : Json) : bool := negb (Qle_bool (number b) (number a)).
Definition gt (a b : Json) : bool := lt b a.

Definition num (q : Q) : Json := JNumber (Finite q).

Record EvaluatePayload : Type := {
  device_id : Json;
  createdAt : Json;
  salinity : Json;
  ph : Json;
  temperature : Json;
  battery : Json }.

(** A row of [alert_settings] (schema.js), or the defaults object: the
    thresholds are DOUBLE PRECISION (a number or null), the two delays
    INTEGER, the address TEXT, the switch BOOLEAN, each of them nullable. *)
Record Settings : Type := {
  settings_device_id : string;
  salinity_high : Json;
  ph_low : Json;
  ph_high : Json;
  temperature_low : Json;
  temperature_high : Json;
  battery_low : Json;
  no_data_minutes : option Z;
  cooldown_minutes : option Z;
  email_to : option string;
  enabled : option bool }.

Inductive Severity : Type := warning | critical.

(** The parameter of [createAlert]. *)
Record AlertParams : Type := {
  alert_device_id : string;
  alert_type : string;
  alert_severity : Severity;
  alert_message : string;
  alert_value : Json;
  alert_threshold : Json;
  alert_email_to : string }.

(** A row of [alerts] as the INSERT returns it: what was inserted, with
    the identifier (BIGSERIAL, which the driver hands over as text) and
    the time of creation (in milliseconds) that the database gave it. *)
Record AlertRow : Type := {
  id : string;
  created_at : Z;
  inserted : AlertParams }.

(** What the handler can throw: a query that fails, or the rejection of
    [sendEmail]. *)
Inductive Thrown : Type :=
| QueryFailed (what : string)
| EmailRejected (e : JsError).

Inductive Outcome (A : Type) : Type :=
| Done (a : A)
| Failed (f : Thrown).

Arguments Done {A} a.
Arguments Failed {A} f.

(** The database and the clock during one request: the result of each
    query, and what [Date.now()] reads, in milliseconds, in the no-data
    check and in [shouldCooldown] for each type of alert. *)
Record Db : Type := {
  stored : Outcome (option Settings);              (* SELECT * FROM alert_settings *)
  last_alert : string -> Outcome (option Z);       (* the latest created_at of a type, if any *)
  returning : AlertParams -> Outcome (string * Z); (* INSERT INTO alerts ... RETURNING * *)
  marked : Outcome unit;                           (* UPDATE alerts SET email_sent = TRUE *)
  now : Z;
  now_for : string -> Z }.

(** What the database and the mail transport see the handler do. *)
Inductive Effect : Type :=
| SelectSettings (device : string)
| SelectLastAlert (device type : string)
| InsertAlert (a : AlertParams) (r : Outcome (string * Z))
| SendEmail (p : SendEmailParams) (r : Completion bool) (t : list Action)
| MarkSent (ids : list string)
| ConsoleError (f : Thrown).

Inductive Body : Type :=
| ErrorBody (error : string)                                   (* { error } *)
| Evaluated (created : list AlertRow) (settings : Settings)    (* { ok: true, created, settings } *)
| Stored (settings : Settings).                                (* the settings themselves *)

Record Response : Type := {
  status : Z;
  body : Body }.

(** The array [created] and what was done so far. *)
Record Request : Type := mkRequest {
  created : list AlertRow;
  effects : list Effect }.

Definition H (A : Type) : Type := Request -> Outcome A * Request.

Definition ret {A} (a : A) : H A := fun st => (Done a, st).

Definition bind {A B} (m : H A) (k : A -> H B) : H B :=
  fun st =>
    match m st with
    | (Done a, st') => k a st'
    | (Failed f, st') => (Failed f, st')
    end.

Notation "x <- m ;; k" := (bind m (fun x => k))
  (at level 61, m at next level, right associativity).
Notation "m ;; k" := (bind m (fun _ => k))
  (at level 61, right associativity).

(** [await pool.query(...)] *)
Definition query {A} (e : Effect) (r : Outcome A) : H A :=
  fun st => (r, mkRequest (created st) (effects st ++ [e])).

(** [created.push(alert)] *)
Definition push (alert : AlertRow) : H unit :=
  fun st => (Done tt, mkRequest (created st ++ [alert]) (effects st)).

Definition get_created : H (list AlertRow) := fun st => (Done (created st), st).

(** [x || d] on a nullable integer column. *)
Definition or_default (x : option Z) (d : Z) : Z :=
  match x with
  | Some n => if n =? 0 then d else n
  | None => d
  end.

(** The defaults of lines 174-186. *)
Definition defaults (deviceId : string) : Settings :=
  {| settings_device_id := deviceId;
     salinity_high := num (10 # 1);
     ph_low := num (13 # 2);
     ph_high := num (17 # 2);
     temperature_low := JNull;
     temperature_high := JNull;
     battery_low := num (20 # 1);
     no_data_minutes := Some 60;
     cooldown_minutes := Some 15;
     email_to := Some "";
     enabled := Some true |}.

(** [s || {...}], line 174. *)
Definition settings_for (deviceId : string) (s : option Settings) : Settings :=
  match s with
  | Some row => row
  | None => defaults deviceId
  end.

(** [!settings.enabled], line 188. *)
Definition disabled (settings : Settings) : bool :=
  negb (match enabled settings with
        | Some b => b
        | None => false
        end).

(** [(settings.email_to || "").trim()], line 193. *)
Definition emailTo_of (settings : Settings) : string :=
  trim (match email_to settings with
        | Some a => if truthy a then a else ""
        | None => ""
        end).

(** [Number(settings.cooldown_minutes || 15)], line 194. *)
Definition cooldown_of (settings : Settings) : Z :=
  or_default (cooldown_minutes settings) 15.

Section Controller.

(** The text of a number in a template literal; [new Date(v).getTime()],
    [None] when it is NaN; the HTML body of lines 327-338, which has a
    character above U+00FF and dates in the format of the locale; and
    [sendEmail] of ../email in the environment of the request. *)
Variable show : JsNumber -> string.
Variable getTime : Json -> option Z.
Variable render : string -> list AlertRow -> Z -> string.
Variable sendEmail : SendEmailParams -> Completion bool * list Action.
Variable db : Db.

(** [String(v)] *)
Definition String_ (v : Json) : string :=
  match v with
  | JUndefined => "undefined"
  | JNull => "null"
  | JBool true => "true"
  | JBool false => "false"
  | JNumber n => show n
  | JString s => s
  | JObject text => text
  end.

Definition show_integer (n : Z) : string := show (Finite (inject_Z n)).

Definition getSettings (deviceId : string) : H (option Settings) :=
  query (SelectSettings deviceId) (stored db).

Definition shouldCooldown (deviceId type : string) (cooldownMinutes : Z) : H bool :=
  last <- query (SelectLastAlert deviceId type) (last_alert db type) ;;
  match last with
  | None => ret false
  | Some last =>
      let diffMs := now_for db type - last in
      ret (diffMs <? cooldownMinutes * 60 * 1000)
  end.

Definition createAlert (params : AlertParams) : H AlertRow :=
  fun st =>
    let r := returning db params in
    (match r with
     | Done (i, at_) => Done {| id := i; created_at := at_; inserted := params |}
     | Failed f => Failed f
     end,
     mkRequest (created st) (effects st ++ [InsertAlert params r])).

(** The block that follows every check (lines 204-216, 225-236, 243-254,
    258-269, 277-288, 292-303, 310-321): unless an alert of the type is
    in its cooldown, insert one and push the row. *)
Definition alert_unless_cooldown (deviceId : string) (cooldown : Z)
    (params : AlertParams) : H unit :=
  cooling <- shouldCooldown deviceId (alert_type params) cooldown ;;
  if negb cooling then
    alert <- createAlert params ;;
    push alert
  else ret tt.

Section Checks.

Variable payload : EvaluatePayload.
Variable deviceId : string.
Variable settings : Settings.
Variable emailTo : string.
Variable cooldown : Z.

Definition no_data_alert (last : Z) : AlertParams :=
  let noDataMinutes := or_default (no_data_minutes settings) 60 in
  let diffMs := now db - last in
  let mins := diffMs / 60000 in
  {| alert_device_id := deviceId;
     alert_type := "no_data";
     alert_severity := critical;
     alert_message := "No new data received for " ++ show_integer mins
                      ++ " minutes (threshold: " ++ show_integer noDataMinutes ++ " minutes)";
     alert_value := num (inject_Z mins);
     alert_threshold := num (inject_Z noDataMinutes);
     alert_email_to := emailTo |}.

(** Lines 197-219. *)
Definition check_no_data : H unit :=
  if truthy_value (createdAt payload) then
    match getTime (createdAt payload) with
    | Some last =>
        let noDataMinutes := or_default (no_data_minutes settings) 60 in
        let diffMs := now db - last in
        if diffMs >? noDataMinutes * 60 * 1000
        then alert_unless_cooldown deviceId cooldown (no_data_alert last)
        else ret tt
    | None => ret tt
    end
  else ret tt.

Definition salinity_high_alert : AlertParams :=
  {| alert_device_id := deviceId;
     alert_type := "salinity_high";
     alert_severity := warning;
     alert_message := "Salinity is high: " ++ String_ (salinity payload)
                      ++ " ppt (threshold: " ++ String_ (salinity_high settings) ++ " ppt)";
     alert_value := salinity payload;
     alert_threshold := salinity_high settings;
     alert_email_to := emailTo |}.

(** Lines 223-237. *)
Definition check_salinity : H unit :=
  if isNumber (salinity payload) && isNumber (salinity_high settings)
     && gt (salinity payload) (salinity_high settings)
  then alert_unless_cooldown deviceId cooldown salinity_high_alert
  else ret tt.

Definition ph_low_alert : AlertParams :=
  {| alert_device_id := deviceId;
     alert_type := "ph_low";
     alert_severity := warning;
     alert_message := "pH is low: " ++ String_ (ph payload)
                      ++ " (threshold: " ++ String_ (ph_low settings) ++ ")";
     alert_value := ph payload;
     alert_threshold := ph_low settings;
     alert_email_to := emailTo |}.

Definition ph_high_alert : AlertParams :=
  {| alert_device_id := deviceId;
     alert_type := "ph_high";
     alert_severity := warning;
     alert_message := "pH is high: " ++ String_ (ph payload)
                      ++ " (threshold: " ++ String_ (ph_high settings) ++ ")";
     alert_value := ph payload;
     alert_threshold := ph_high settings;
     alert_email_to := emailTo |}.

(** Lines 240-271. *)
Definition check_ph : H unit :=
  if isNumber (ph payload) then
    (if isNumber (ph_low settings) && lt (ph payload) (ph_low settings)
     then alert_unless_cooldown deviceId cooldown ph_low_alert
     else ret tt) ;;
    (if isNumber (ph_high settings) && gt (ph payload) (ph_high settings)
     then alert_unless_cooldown deviceId cooldown ph_high_alert
     else ret tt)
  else ret tt.

(** The degree sign and C. *)
Definition degrees : string := String (chr 176) "C".

Definition temperature_low_alert : AlertParams :=
  {| alert_device_id := deviceId;
     alert_type := "temperature_low";
     alert_severity := warning;
     alert_message := "Temperature is low: " ++ String_ (temperature payload) ++ degrees
                      ++ " (threshold: " ++ String_ (temperature_low settings) ++ degrees
                      ++ ")";
     alert_value := temperature payload;
     alert_threshold := temperature_low settings;
     alert_email_to := emailTo |}.

Definition temperature_high_alert : AlertParams :=
  {| alert_device_id := deviceId;
     alert_type := "temperature_high";
     alert_severity := warning;
     alert_message := "Temperature is high: " ++ String_ (temperature payload) ++ degrees
                      ++ " (threshold: " ++ String_ (temperature_high settings) ++ degrees
                      ++ ")";
     alert_value := temperature payload;
     alert_threshold := temperature_high settings;
     alert_email_to := emailTo |}.

(** Lines 274-305. *)
Definition check_temperature : H unit :=
  if isNumber (temperature payload) then
    (if isNumber (temperature_low settings)
        && lt (temperature payload) (temperature_low settings)
     then alert_unless_cooldown deviceId cooldown temperature_low_alert
     else ret tt) ;;
    (if isNumber (temperature_high settings)
        && gt (temperature payload) (temperature_high settings)
     then alert_unless_cooldown deviceId cooldown temperature_high_alert
     else ret tt)
  else ret tt.

Definition battery_low_alert : AlertParams :=
  {| alert_device_id := deviceId;
     alert_type := "battery_low";
     alert_severity := if lt (battery payload) (num (10 # 1)) then critical else warning;
     alert_message := "Battery is low: " ++ String_ (battery payload)
                      ++ "% (threshold: " ++ String_ (battery_low settings) ++ "%)";
     alert_value := battery payload;
     alert_threshold := battery_low settings;
     alert_email_to := emailTo |}.

(** Lines 308-322. *)
Definition check_battery : H unit :=
  if isNumber (battery payload) && isNumber (battery_low settings)
     && lt (battery payload) (battery_low settings)
  then alert_unless_cooldown deviceId cooldown battery_low_alert
  else ret tt.

(** Lines 196-322: the checks, in the order of the source. *)
Definition checks : H unit :=
  check_no_data ;;
  check_salinity ;;
  check_ph ;;
  check_temperature ;;
  check_battery.

Definition email_subject (n : nat) : string :=
  "[Water Monitoring] " ++ deviceId ++ ": " ++ show_integer (Z.of_nat n) ++ " alert(s)".

(** [await sendEmail(...)] *)
Definition call_sendEmail (p : SendEmailParams) : H bool :=
  fun st =>
    let (c, t) := sendEmail p in
    (match c with
     | Return ok => Done ok
     | Throw e => Failed (EmailRejected e)
     end,
     mkRequest (created st) (effects st ++ [SendEmail p c t])).

(** Lines 325-344. *)
Definition notify : H unit :=
  created <- get_created ;;
  if negb (length created =? 0)%nat && truthy emailTo then
    ok <- call_sendEmail {| to := emailTo;
                            subject := email_subject (length created);
                            html := render deviceId created cooldown |} ;;
    if ok then query (MarkSent (map id created)) (marked db)
    else ret tt
  else ret tt.

End Checks.

Definition ok_response (created : list AlertRow) (settings : Settings) : Response :=
  {| status := 200; body := Evaluated created settings |}.

Definition bad_request : Response :=
  {| status := 400; body := ErrorBody "device_id is required" |}.

Definition server_error : Response :=
  {| status := 500; body := ErrorBody "Failed to evaluate reading" |}.

(** Lines 173-346, inside the [try]. *)
Definition evaluation (payload : EvaluatePayload) (deviceId : string) : H Response :=
  s <- getSettings deviceId ;;
  let settings := settings_for deviceId s in
  if disabled settings
  then ret (ok_response [] settings)
  else
    let emailTo := emailTo_of settings in
    let cooldown := cooldown_of settings in
    checks payload deviceId settings emailTo cooldown ;;
    notify deviceId emailTo cooldown ;;
    created <- get_created ;;
    ret (ok_response created settings).

(** The identifier of the device of a reading (line 167). *)
Definition device_of (payload : EvaluatePayload) : string :=
  trim (String_ (if truthy_value (device_id payload) then device_id payload
                 else JString "")).

(** [evaluateReading]: the response, and what the database and the mail
    transport saw. *)
Definition evaluateReading (payload : EvaluatePayload) : Response * list Effect :=
  let deviceId := device_of payload in
  if negb (truthy deviceId) then (bad_request, [])
  else
    match evaluation payload deviceId (mkRequest [] []) with
    | (Done response, st) => (response, effects st)
    | (Failed f, st) => (server_error, (effects st ++ [ConsoleError f])%list)
    end.

(** The defaults of [getAlertSettings], lines 29-41. *)
Definition shown_defaults (deviceId : string) : Settings :=
  {| settings_device_id := deviceId;
     salinity_high := num (10 # 1);
     ph_low := num (13 # 2);
     ph_high := num (17 # 2);
     temperature_low := JNull;
     temperature_high := JNull;
     battery_low := num (20 # 1);
     no_data_minutes := Some 60;
     cooldown_minutes := Some 15;
     email_to := Some "";
     enabled := Some true |}.

(** [getAlertSettings] for the device of the route. *)
Definition getAlertSettings (deviceId : string) : Response * list Effect :=
  match getSettings deviceId (mkRequest [] []) with
  | (Done s, st) =>
      (match s with
       | None => {| status := 200; body := Stored (shown_defaults deviceId) |}
       | Some row => {| status := 200; body := Stored row |}
       end, effects st)
  | (Failed f, st) =>
      ({| status := 500; body := ErrorBody "Failed to fetch alert settings" |},
       (effects st ++ [ConsoleError f])%list)
  end.

End Controller.

(** *** What the statements about the handler speak of *)

(** The alerts the handler asked the database to insert, in order. *)
Fixpoint insertions (es : list Effect) : list AlertParams :=
  match es with
  | InsertAlert a _ :: rest => a :: insertions rest
  | _ :: rest => insertions rest
  | [] => []
  end.

(** The rows of the inserts that succeeded, in order. *)
Fixpoint rows (es : list Effect) : list AlertRow :=
  match es with
  | InsertAlert a (Done (i, at_)) :: rest =>
      {| id := i; created_at := at_; inserted := a |} :: rows rest
  | _ :: rest => rows rest
  | [] => []
  end.

Definition is_email (e : Effect) : bool :=
  match e with SendEmail _ _ _ => true | _ => false end.

Definition is_mark (e : Effect) : bool :=
  match e with MarkSent _ => true | _ => false end.

Definition is_logged (e : Effect) : bool :=
  match e with ConsoleError _ => true | _ => false end.

(** The types of alert, in the order of the checks. *)
Definition kinds : list string :=
  ["no_data"; "salinity_high"; "ph_low"; "ph_high"; "temperature_low";
   "temperature_high"; "battery_low"].

(** [l] is [t] with some elements left out. *)
Inductive subseq {A : Type} : list A -> list A -> Prop :=
| subseq_nil : subseq [] []
| subseq_skip (x : A) (l t : list A) : subseq l t -> subseq l (x :: t)
| subseq_take (x : A) (l t : list A) : subseq l t -> subseq (x :: l) (x :: t).

(** The settings a request for the device works with, when they can be
    read. *)
Definition settings_of (db : Db) (deviceId : string) : Settings :=
  match stored db with
  | Done s => settings_for deviceId s
  | Failed _ => defaults deviceId
  end.

(** What [shouldCooldown] answers for a type when its query succeeds. *)
Definition cooling (db : Db) (type : string) (cooldownMinutes : Z) : bool :=
  match last_alert db type with
  | Done (Some last) => now_for db type - last <? cooldownMinutes * 60 * 1000
  | _ => false
  end.

(** The reading and the threshold that a type of alert compares, and
    whether the alert is for a reading above the threshold. *)
Definition reading_of (payload : EvaluatePayload) (type : string) : Json :=
  if String.eqb type "salinity_high" then salinity payload
  else if String.eqb type "ph_low" || String.eqb type "ph_high" then ph payload
  else if String.eqb type "temperature_low" || String.eqb type "temperature_high"
       then temperature payload
  else if String.eqb type "battery_low" then battery payload
  else JUndefined.

Definition threshold_of (settings : Settings) (type : string) : Json :=
  if String.eqb type "salinity_high" then salinity_high settings
  else if String.eqb type "ph_low" then ph_low settings
  else if String.eqb type "ph_high" then ph_high settings
  else if String.eqb type "temperature_low" then temperature_low settings
  else if String.eqb type "temperature_high" then temperature_high settings
  else if String.eqb type "battery_low" then battery_low settings
  else JUndefined.

Definition is_high (type : string) : bool :=
  String.eqb type "salinity_high" || String.eqb type "ph_high"
  || String.eqb type "temperature_high".

(** Why an alert is inserted: no alert of its type is in its cooldown, and
    it is the alert of one of the seven checks, whose condition holds. *)
Definition justified (show : JsNumber -> string) (getTime : Json -> option Z) (db : Db)
    (payload : EvaluatePayload) (deviceId : string) (settings : Settings)
    (a : AlertParams) : Prop :=
  let emailTo := emailTo_of settings in
  cooling db (alert_type a) (cooldown_of settings) = false /\
  ((exists last,
      a = no_data_alert show db deviceId settings emailTo last /\
      truthy_value (createdAt payload) = true /\
      getTime (createdAt payload) = Some last /\
      now db - last > or_default (no_data_minutes settings) 60 * 60 * 1000) \/
   (a = salinity_high_alert show payload deviceId settings emailTo /\
    isNumber (salinity payload) = true /\ isNumber (salinity_high settings) = true /\
    gt (salinity payload) (salinity_high settings) = true) \/
   (a = ph_low_alert show payload deviceId settings emailTo /\
    isNumber (ph payload) = true /\ isNumber (ph_low settings) = true /\
    lt (ph payload) (ph_low settings) = true) \/
   (a = ph_high_alert show payload deviceId settings emailTo /\
    isNumber (ph payload) = true /\ isNumber (ph_high settings) = true /\
    gt (ph payload) (ph_high settings) = true) \/
   (a = temperature_low_alert show payload deviceId settings emailTo /\
    isNumber (temperature payload) = true /\ isNumber (temperature_low settings) = true /\
    lt (temperature payload) (temperature_low settings) = true) \/
   (a = temperature_high_alert show payload deviceId settings emailTo /\
    isNumber (temperature payload) = true /\ isNumber (temperature_high settings) = true /\
    gt (temperature payload) (temperature_high settings) = true) \/
   (a = battery_low_alert show payload deviceId settings emailTo /\
    isNumber (battery payload) = true /\ isNumber (battery_low settings) = true /\
    lt (battery payload) (battery_low settings) = true)).

(** A step of the checks: a query of the latest alert of the device, or
    the insertion of a justified alert. *)
Definition check_step (show : JsNumber -> string) (getTime : Json -> option Z) (db : Db)
    (payload : EvaluatePayload) (deviceId : string) (settings : Settings)
    (e : Effect) : Prop :=
  match e with
  | SelectLastAlert device _ => device = deviceId
  | InsertAlert a r => r = returning db a /\ justified show getTime db payload deviceId settings a
  | _ => False
  end.

(** [adds types P m]: what [m] does is a sequence of steps that satisfy
    [P], the alerts it inserts have their types among [types], in that
    order and once each at most, and what it pushes onto [created] are the
    rows of the inserts that succeeded. *)
Definition adds {A : Type} (types : list string) (P : Effect -> Prop) (m : H A) : Prop :=
  forall st o st', m st = (o, st') ->
    exists d, effects st' = (effects st ++ d)%list /\
              created st' = (created st ++ rows d)%list /\
              Forall P d /\
              subseq (map alert_type (insertions d)) types.

(** The message about the rows [created] (lines 326-340). *)
Definition mail (show : JsNumber -> string)
    (render : string -> list AlertRow -> Z -> string) (deviceId : string)
    (settings : Settings) (created : list AlertRow) : SendEmailParams :=
  {| to := emailTo_of settings;
     subject := email_subject show deviceId (length created);
     html := render deviceId created (cooldown_of settings) |}.

(** How a request ends once the settings are read and the checks are
    made, with [created] the rows pushed by the checks: what is done after
    the checks, and the response. *)
Inductive Ending (send : SendEmailParams -> Completion bool * list Action) (db : Db)
    (p : SendEmailParams) (settings : Settings) (created : list AlertRow)
  : list Effect -> Response -> Prop :=
| ended_failed (f : Thrown) :
    (* a query failed: that of the settings, or one of the checks *)
    Ending send db p settings created [ConsoleError f] server_error
| ended_quiet :
    created = [] \/ emailTo_of settings = "" ->
    Ending send db p settings created [] (ok_response created settings)
| ended_unsent (t : list Action) :
    created <> [] -> emailTo_of settings <> "" -> send p = (Return false, t) ->
    Ending send db p settings created [SendEmail p (Return false) t]
      (ok_response created settings)
| ended_sent (t : list Action) :
    created <> [] -> emailTo_of settings <> "" -> send p = (Return true, t) ->
    marked db = Done tt ->
    Ending send db p settings created
      [SendEmail p (Return true) t; MarkSent (map id created)]
      (ok_response created settings)
| ended_unmarked (t : list Action) (f : Thrown) :
    created <> [] -> emailTo_of settings <> "" -> send p = (Return true, t) ->
    marked db = Failed f ->
    Ending send db p settings created
      [SendEmail p (Return true) t; MarkSent (map id created); ConsoleError f]
      server_error
| ended_rejected (t : list Action) (e : JsError) :
    created <> [] -> emailTo_of settings <> "" -> send p = (Throw e, t) ->
    Ending send db p settings created
      [SendEmail p (Throw e) t; ConsoleError (EmailRejected e)]
      server_error.

End Alerts.

(** ** A concrete request: a device with stored settings and a reading *)

Module AlertSample.

Import Alerts.
Import QArith_base.
Local Open Scope string_scope.
Local Open Scope Z_scope.

Fixpoint digits (fuel : nat) (n : Z) (acc : string) : string :=
  match fuel with
  | S fuel' =>
      let acc' := String (chr (48 + Z.to_nat (n mod 10))) acc in
      if n <? 10 then acc' else digits fuel' (n / 10) acc'
  | O => acc
  end.

(** The text of the integers up to twenty digits; the samples put no other
    number in a text. *)
Definition show (n : JsNumber) : string :=
  match n with
  | Finite q => if Qnum q <? 0 then "-" ++ digits 20 (- Qnum q) "" else digits 20 (Qnum q) ""
  | NaN => "NaN"
  | PlusInfinity => "Infinity"
  | MinusInfinity => "-Infinity"
  end.

(** The time of a date given as a number of milliseconds; the samples give
    no date as a string. *)
Definition getTime (v : Json) : option Z :=
  match v with
  | JNumber (Finite q) => Some (Qnum q)
  | _ => None
  end.

Definition render (deviceId : string) (created : list AlertRow) (cooldown : Z) : string :=
  "<h2>Water Monitoring Alert</h2><p>" ++ deviceId ++ "</p>".

Definition pond : Settings :=
  {| settings_device_id := "pond-1";
     salinity_high := num (10 # 1);
     ph_low := num (13 # 2);
     ph_high := num (17 # 2);
     temperature_low := JNull;
     temperature_high := num (30 # 1);
     battery_low := num (20 # 1);
     no_data_minutes := Some 0;
     cooldown_minutes := Some 0;
     email_to := Some " ops@example.org ";
     enabled := Some true |}.

(** The database holds the settings of the device, a battery alert made
    ten minutes before the request and a temperature alert made twenty
    minutes before it; the queries succeed. *)
Definition db : Db :=
  {| stored := Done (Some pond);
     last_alert := fun type =>
       if String.eqb type "battery_low" then Done (Some 1700000000000)
       else if String.eqb type "temperature_high" then Done (Some 1699999400000)
       else Done None;
     returning := fun a =>
       Done (if String.eqb (alert_type a) "no_data" then "40"
             else if String.eqb (alert_type a) "salinity_high" then "41"
             else "42",
             1700000600000);
     marked := Done tt;
     now := 1700000600000;
     now_for := fun _ => 1700000600000 |}.

(** A reading with salinity 35, pH 7, temperature 31 and battery 5, taken
    two hours before the request. *)
Definition reading : EvaluatePayload :=
  {| device_id := JString " pond-1 ";
     createdAt := num (1699993400000 # 1);
     salinity := num (35 # 1);
     ph := num (7 # 1);
     temperature := num (31 # 1);
     battery := num (5 # 1) |}.

(** The settings are stored with the alerts switched off. *)
Definition switched_off : Db :=
  {| stored := Done (Some {| settings_device_id := "pond-1";
                             salinity_high := num (10 # 1);
                             ph_low := JNull; ph_high := JNull;
                             temperature_low := JNull; temperature_high := JNull;
                             battery_low := JNull;
                             no_data_minutes := None; cooldown_minutes := None;
                             email_to := None; enabled := Some false |});
     last_alert := fun _ => Done None;
     returning := fun _ => Done ("1", 0);
     marked := Done tt;
     now := 0;
     now_for := fun _ => 0 |}.

(** A mail server that follows the protocol, with STARTTLS, for one
    recipient. *)
Definition delivers : Net string :=
  {| connected := None; secured := None; closed := None;
     emitted := [Sample.banner; Sample.ehlo_reply; Sample.go_ahead; Sample.ehlo_again;
                 Sample.ask_user; Sample.ask_pass; Sample.auth_ok; Sample.sender_ok;
                 Sample.reply "250 rcpt ok"; Sample.data_go; Sample.queued];
     flushed := [];
     random := "8f3a2c" |}.

End AlertSample.

(** * Properties *)

(** ** Strings *)

Lemma split_by_cons (sep : ascii -> bool) (s : string) :
  exists piece pieces, split_by sep s = piece :: pieces.
Proof.
  destruct s as [|c r]; simpl; [eauto|].
  destruct (sep c); [eauto|].
  destruct (split_by sep r); eauto.
Qed.

Lemma terminator_not_digit (c : ascii) :
  is_line_terminator c = true -> is_digit c = false.
Proof.
  unfold is_line_terminator, is_digit. intros H.
  apply orb_true_iff in H. destruct H as [H|H]; apply Nat.eqb_eq in H; rewrite H; reflexivity.
Qed.

(** The three digits at the head of a text are those at the head of its
    first line. *)
Lemma three_digits_first_line (s : string) :
  three_digits (hd "" (lines s)) = three_digits s.
Proof.
  unfold lines.
  destruct s as [|a [|b [|c r]]]; simpl; try reflexivity.
  - destruct (is_line_terminator a); reflexivity.
  - destruct (is_line_terminator a) eqn:Ha; simpl; [reflexivity|].
    destruct (is_line_terminator b) eqn:Hb; reflexivity.
  - destruct (is_line_terminator a) eqn:Ha; simpl.
    { now rewrite (terminator_not_digit a Ha). }
    destruct (is_line_terminator b) eqn:Hb; simpl.
    { rewrite (terminator_not_digit b Hb). now rewrite andb_false_r. }
    destruct (is_line_terminator c) eqn:Hc; simpl.
    { rewrite (terminator_not_digit c Hc). now rewrite andb_false_r. }
    destruct (split_by_cons is_line_terminator r) as (p & ps & ->). reflexivity.
Qed.

Lemma match_code_lines (s : string) :
  match_code true s = first_code (lines s) /\
  match_code false s = first_code (tl (lines s)).
Proof.
  induction s as [|c r [IHt IHf]].
  - split; reflexivity.
  - pose proof (three_digits_first_line (String c r)) as Hd.
    assert (Hf : match_code false (String c r) = match_code (is_line_terminator c) r)
      by reflexivity.
    assert (Ht : match_code true (String c r) =
                 match three_digits (String c r) with
                 | Some n => Some n
                 | None => match_code (is_line_terminator c) r
                 end) by reflexivity.
    rewrite Ht, Hf. rewrite <- Hd. clear Ht Hf Hd.
    unfold lines in *. cbn [split_by].
    destruct (is_line_terminator c) eqn:Hc.
    + cbn [hd tl first_code]. rewrite IHt.
      split; reflexivity.
    + destruct (split_by_cons is_line_terminator r) as (p & ps & E).
      rewrite E in *. cbn [hd tl first_code] in *.
      rewrite IHf. split; reflexivity.
Qed.

Lemma extractCode_refines (resp : string) :
  extractCode resp = code_of_first_coded_line resp.
Proof.
  unfold extractCode, code_of_first_coded_line.
  now rewrite (proj1 (match_code_lines resp)).
Qed.

Lemma white_not_comma (c : ascii) :
  is_white c = true -> Ascii.eqb "," c = false.
Proof.
  intros H. destruct (Ascii.eqb_spec "," c) as [<-|]; [discriminate H|reflexivity].
Qed.

Lemma trimStart_white (s : string) :
  forallb is_white (list_ascii_of_string s) = true -> trimStart s = "".
Proof.
  induction s as [|c r IH]; simpl; [reflexivity|].
  intros H. apply andb_true_iff in H. destruct H as [Hc Hr].
  rewrite Hc. auto.
Qed.

Lemma split_white (s : string) :
  forallb is_white (list_ascii_of_string s) = true -> split "," s = [s].
Proof.
  unfold split. induction s as [|c r IH]; [reflexivity|].
  cbn [split_by list_ascii_of_string forallb].
  intros H. apply andb_true_iff in H. destruct H as [Hc Hr].
  rewrite (white_not_comma c Hc), (IH Hr). reflexivity.
Qed.

(** A recipient string made of white space only names nobody. *)
Lemma parse_recipients_white (s : string) :
  forallb is_white (list_ascii_of_string s) = true -> parse_recipients s = [].
Proof.
  intros H. unfold parse_recipients. rewrite (split_white s H). simpl.
  unfold trim. rewrite (trimStart_white s H). reflexivity.
Qed.

Lemma trimStart_head (s : string) (c : ascii) (r : string) :
  trimStart s = String c r -> is_white c = false.
Proof.
  induction s as [|a s IH]; simpl; [discriminate|].
  destruct (is_white a) eqn:Ha; [exact IH|].
  intros E. injection E as <- _. exact Ha.
Qed.

Lemma trimEnd_head (s : string) (c : ascii) (r : string) :
  trimEnd s = String c r -> exists r', s = String c r'.
Proof.
  destruct s as [|a s]; simpl; [discriminate|].
  destruct (trimEnd s); [destruct (is_white a); [discriminate|]|];
    intros E; injection E as <- _; eauto.
Qed.

(** A trimmed string does not start with white space. *)
Lemma trim_head (s : string) (c : ascii) (r : string) :
  trim s = String c r -> is_white c = false.
Proof.
  unfold trim. intros E.
  destruct (trimEnd_head _ _ _ E) as (r' & E').
  exact (trimStart_head _ _ _ E').
Qed.

Lemma env_head (penv : ProcessEnv) (k : string) (c : ascii) (r : string) :
  env penv k = String c r -> is_white c = false.
Proof. apply trim_head. Qed.

Lemma env_missing (penv : ProcessEnv) (k : string) :
  penv k = None -> env penv k = "".
Proof. unfold env. intros ->. reflexivity. Qed.

(** ** [b64] never spells a command *)

Lemma base64_length (l : list N) :
  exists k, String.length (base64 l) = (4 * k)%nat.
Proof.
  assert (H : forall n l', (List.length l' <= n)%nat ->
              exists k, String.length (base64 l') = (4 * k)%nat).
  { induction n as [|n IH]; intros l' Hl.
    - destruct l'; [exists 0%nat; reflexivity|simpl in Hl; lia].
    - destruct l' as [|a [|b [|c r]]].
      + exists 0%nat; reflexivity.
      + exists 1%nat; reflexivity.
      + exists 1%nat; reflexivity.
      + destruct (IH r) as (k & Hk); [simpl in Hl; lia|].
        exists (S k). cbn [base64 String.length]. rewrite Hk. lia. }
  exact (H (List.length l) l (le_n _)).
Qed.

Lemma b64_char_index (i : N) (c : ascii) :
  b64_char i = c -> c <> "="%char ->
  (i < 64)%N /\ String.get (N.to_nat i) b64_alphabet = Some c.
Proof.
  unfold b64_char. intros E Hc.
  destruct (String.get (N.to_nat i) b64_alphabet) as [c'|] eqn:G; [|congruence].
  subst c'. split; [|reflexivity].
  destruct (N.ltb_spec i 64) as [|Hge]; [assumption|exfalso].
  assert (Hn : (64 <= N.to_nat i)%nat) by lia.
  remember (N.to_nat i) as n.
  do 64 (destruct n as [|n]; [lia|]).
  discriminate G.
Qed.

Lemma b64_char_D (i : N) : b64_char i = "D"%char -> i = 3%N.
Proof.
  intros E. destruct (b64_char_index i _ E) as [Hi G]; [discriminate|].
  assert (Hn : (N.to_nat i < 64)%nat) by lia.
  remember (N.to_nat i) as n.
  do 64 (destruct n as [|n]; [try discriminate G; lia|]). lia.
Qed.

Lemma b64_char_A (i : N) : b64_char i = "A"%char -> i = 0%N.
Proof.
  intros E. destruct (b64_char_index i _ E) as [Hi G]; [discriminate|].
  assert (Hn : (N.to_nat i < 64)%nat) by lia.
  remember (N.to_nat i) as n.
  do 64 (destruct n as [|n]; [try discriminate G; lia|]). lia.
Qed.

Lemma b64_char_L (i : N) : b64_char i = "L"%char -> i = 11%N.
Proof.
  intros E. destruct (b64_char_index i _ E) as [Hi G]; [discriminate|].
  assert (Hn : (N.to_nat i < 64)%nat) by lia.
  remember (N.to_nat i) as n.
  do 64 (destruct n as [|n]; [try discriminate G; lia|]). lia.
Qed.

Lemma b64_char_S (i : N) : b64_char i = "S"%char -> i = 18%N.
Proof.
  intros E. destruct (b64_char_index i _ E) as [Hi G]; [discriminate|].
  assert (Hn : (N.to_nat i < 64)%nat) by lia.
  remember (N.to_nat i) as n.
  do 64 (destruct n as [|n]; [try discriminate G; lia|]). lia.
Qed.

Lemma base64_nil (l : list N) : base64 l = "" -> l = [].
Proof. destruct l as [|a [|b [|c r]]]; [reflexivity|discriminate..]. Qed.

Lemma utf8_String (c : ascii) (r : string) :
  utf8 (String c r) =
  if (N_of_ascii c <? 128)%N then N_of_ascii c :: utf8 r
  else (192 + N_of_ascii c / 64)%N :: (128 + N_of_ascii c mod 64)%N :: utf8 r.
Proof. reflexivity. Qed.

Lemma utf8_last (s : string) :
  utf8 s <> [] -> (last (utf8 s) 0 < 192)%N.
Proof.
  induction s as [|c r IH]; [intros H; now elim H|].
  intros _. rewrite utf8_String.
  assert (Hm : (N_of_ascii c mod 64 < 64)%N) by (apply N.mod_lt; discriminate).
  destruct (N.ltb_spec (N_of_ascii c) 128) as [Hc|Hc];
    (destruct (utf8 r) as [|x l] eqn:E; [cbn [last]; lia|]);
    change (last (?a :: x :: l) 0%N) with (last (x :: l) 0%N);
    try change (last (?a :: ?b :: x :: l) 0%N) with (last (x :: l) 0%N);
    apply IH; discriminate.
Qed.

(** No user name or password is sent as the text STARTTLS: the last byte
    would be 0xD2, which does not end a UTF-8 sequence. *)
Lemma b64_not_STARTTLS (s : string) : b64 s <> "STARTTLS".
Proof.
  unfold b64. intros E.
  assert (Hl : utf8 s <> []) by (intros E'; rewrite E' in E; discriminate E).
  apply utf8_last in Hl.
  destruct (utf8 s) as [|a [|b [|c [|d [|e [|f r]]]]]]; try discriminate E.
  cbn [base64] in E. injection E as _ _ _ _ _ _ HL HS Hr.
  apply base64_nil in Hr. subst r. cbn [last] in Hl.
  apply b64_char_L in HL. apply b64_char_S in HS.
  pose proof (N.div_mod' f 64) as Hf.
  generalize dependent (f mod 64)%N. generalize dependent (f / 64)%N.
  generalize (e mod 16)%N. intros. lia.
Qed.

(** The text AUTH LOGIN has ten characters, base64 has four for every three
    bytes. *)
Lemma b64_not_AUTH_LOGIN (s : string) : b64 s <> "AUTH LOGIN".
Proof.
  unfold b64. intros E.
  destruct (base64_length (utf8 s)) as (k & Hk).
  rewrite E in Hk. simpl in Hk. lia.
Qed.

Lemma base64_DATA (l : list N) :
  base64 l = "DATA" -> exists rest, l = 12%N :: rest.
Proof.
  intros E.
  destruct l as [|a [|b [|c r]]]; cbn [base64] in E.
  - discriminate E.
  - injection E as _ _ E. discriminate E.
  - injection E as _ _ _ E. discriminate E.
  - injection E as HD HA _ _ _.
    apply b64_char_D in HD. apply b64_char_A in HA.
    pose proof (N.div_mod' a 4).
    exists (b :: c :: r). f_equal.
    generalize dependent (a mod 4)%N. generalize dependent (a / 4)%N.
    generalize (b / 16)%N. intros. lia.
Qed.

(** No setting is sent as the text DATA: it would start with a form feed,
    which [trim] removes. *)
Lemma b64_env_not_DATA (penv : ProcessEnv) (k : string) : b64 (env penv k) <> "DATA".
Proof.
  unfold b64. intros E.
  destruct (base64_DATA _ E) as (rest & El).
  destruct (env penv k) as [|c r] eqn:Ev; [discriminate El|].
  pose proof (env_head _ _ _ _ Ev) as Hw.
  rewrite utf8_String in El.
  assert (Hc : N_of_ascii c = 12%N).
  { apply (f_equal (hd 0%N)) in El.
    destruct (N.ltb_spec (N_of_ascii c) 128) as [Hc|Hc]; cbn [hd] in El; [exact El|].
    exfalso. generalize dependent (N_of_ascii c / 64)%N. intros. lia. }
  rewrite <- (ascii_N_embedding c), Hc in Hw. discriminate Hw.
Qed.

Lemma length_app (a b : string) :
  String.length (a ++ b) = (String.length a + String.length b)%nat.
Proof. induction a as [|x a IH]; simpl; [reflexivity|now rewrite IH]. Qed.

Lemma append_eq_inv (a b c : string) : (a ++ c)%string = (b ++ c)%string -> a = b.
Proof.
  revert b. induction a as [|x a IH]; intros [|y b] E; simpl in E.
  - reflexivity.
  - exfalso. apply (f_equal String.length) in E. simpl in E.
    rewrite length_app in E. lia.
  - exfalso. apply (f_equal String.length) in E. simpl in E.
    rewrite length_app in E. lia.
  - injection E as <- E. f_equal. auto.
Qed.

Lemma prefix_LF (c : ascii) (s : string) :
  String.prefix LF (String c s) = Ascii.eqb (chr 10) c.
Proof.
  unfold LF. cbn [String.prefix].
  destruct (ascii_dec (chr 10) c) as [<-|Hn].
  - destruct s; reflexivity.
  - symmetry. apply Ascii.eqb_neq. exact Hn.
Qed.

Lemma includes_LF_app (a b : string) :
  includes LF (a ++ b) = includes LF a || includes LF b.
Proof.
  induction a as [|c a IH].
  - reflexivity.
  - change (String c a ++ b)%string with (String c (a ++ b)).
    cbn [includes]. rewrite !prefix_LF, IH. now rewrite orb_assoc.
Qed.

Lemma append_nil_r (s : string) : (s ++ "")%string = s.
Proof. induction s as [|c s IH]; cbn; congruence. Qed.

Lemma append_assoc (a b c : string) : (a ++ b ++ c)%string = ((a ++ b) ++ c)%string.
Proof. induction a as [|x a IH]; cbn; congruence. Qed.

Lemma three_digits_range (s : string) (n : Z) :
  three_digits s = Some n -> 0 <= n <= 999.
Proof.
  destruct s as [|a [|b [|c r]]]; cbn [three_digits]; try discriminate.
  destruct (is_digit a) eqn:Ha; [|discriminate].
  destruct (is_digit b) eqn:Hb; [|discriminate].
  destruct (is_digit c) eqn:Hc; [|discriminate].
  cbn [andb]. intros E.
  assert (En : n = 100 * digit_value a + 10 * digit_value b + digit_value c) by congruence.
  clear E. unfold is_digit in *. unfold digit_value in En.
  apply andb_true_iff in Ha, Hb, Hc.
  destruct Ha as [Ha1 Ha2], Hb as [Hb1 Hb2], Hc as [Hc1 Hc2].
  apply Nat.leb_le in Ha1, Ha2, Hb1, Hb2, Hc1, Hc2. lia.
Qed.

Lemma extractCode_range (resp : string) : 0 <= extractCode resp <= 999.
Proof.
  rewrite extractCode_refines. unfold code_of_first_coded_line.
  induction (lines resp) as [|l ls IH]; cbn [first_code]; [lia|].
  destruct (three_digits l) as [n|] eqn:E; [exact (three_digits_range l n E)|exact IH].
Qed.

(** ** MIME composer *)

(** C9. Two calls of the composer with the same sender, recipients,
    subject and body produce the same message but for the boundary token:
    the text before, between and after its three occurrences does not
    depend on the call; the token declared in the Content-Type header is the
    one of the opening delimiter and of the closing delimiter; and the
    message is a sequence of lines each ended by CRLF. *)
Theorem makeMime_same_but_boundary (from to subject html : string) :
  exists pre post : string,
    forall rnd : string,
      let boundary := "----wm" ++ rnd in
      makeMime rnd from to subject html =
        pre ++ "boundary=" ++ String (chr 34) boundary ++ String (chr 34) CRLF ++ CRLF
        ++ "--" ++ boundary ++ CRLF
        ++ post ++ CRLF
        ++ "--" ++ boundary ++ "--" ++ CRLF
      /\
      makeMime rnd from to subject html =
        crlf_lines
          [ "From: " ++ from;
            "To: " ++ to;
            "Subject: " ++ subject;
            "MIME-Version: 1.0";
            "Content-Type: multipart/alternative; boundary=" ++ String (chr 34) boundary
              ++ String (chr 34) "";
            "";
            "--" ++ boundary;
            "Content-Type: text/html; charset=utf-8";
            "Content-Transfer-Encoding: 7bit";
            "";
            html;
            "--" ++ boundary ++ "--" ].
Proof.
  exists ("From: " ++ from ++ CRLF ++ "To: " ++ to ++ CRLF ++ "Subject: " ++ subject ++ CRLF
          ++ "MIME-Version: 1.0" ++ CRLF ++ "Content-Type: multipart/alternative; ").
  exists ("Content-Type: text/html; charset=utf-8" ++ CRLF
          ++ "Content-Transfer-Encoding: 7bit" ++ CRLF ++ CRLF ++ html).
  intros rnd boundary. unfold makeMime, join. fold boundary.
  cbn [String.concat crlf_lines]. unfold CRLF, LF.
  split; repeat rewrite <- append_assoc; cbn [append];
    repeat (f_equal; repeat rewrite <- append_assoc; cbn [append]); reflexivity.
Qed.

(** ** The framed transport reader *)

Section Reader.

Variable Buffer : Type.
Variable toString_utf8 : Buffer -> string.

Lemma reading_start_waiting : waiting reading_start.
Proof. repeat split. Qed.

Lemma over_emit (r : Reading) (ev : Event Buffer) :
  over r -> emit toString_utf8 r ev = r.
Proof.
  intros (_ & Hh & _). unfold held in Hh.
  destruct ev; cbn [emit];
    destruct (data_listener r), (error_listener r), (timer r);
    try reflexivity; simpl in Hh; lia.
Qed.

Lemma waiting_emit (r : Reading) (ev : Event Buffer) :
  waiting r -> waiting (emit toString_utf8 r ev) \/ over (emit toString_utf8 r ev).
Proof.
  intros (Hs & Hd & He & Ht & Hn & Hb).
  destruct ev as [chunk|e|]; cbn [emit]; rewrite ?Hd, ?He, ?Ht.
  - unfold onData. cbn [buf].
    destruct (includes LF (buf r ++ toString_utf8 chunk)) eqn:Hi.
    + right. unfold over, held, settle, cleanup; cbn. rewrite Hs, Hn.
      repeat split. eexists; split; [reflexivity|].
      intros text [= <-]. exact Hi.
    + left. repeat split; cbn; assumption.
  - right. unfold over, held, onErr, settle, cleanup; cbn. rewrite Hs, Hn.
    repeat split. eexists; split; [reflexivity|]. intros text [=].
  - right. unfold over, held, onTimer, settle, cleanup; cbn. rewrite Hs, Hn.
    repeat split. eexists; split; [reflexivity|]. intros text [=].
Qed.

Lemma deliver_app (evs evs' : list (Event Buffer)) (r : Reading) :
  deliver toString_utf8 (evs ++ evs') r =
  deliver toString_utf8 evs' (deliver toString_utf8 evs r).
Proof. apply fold_left_app. Qed.

Lemma over_deliver (evs : list (Event Buffer)) (r : Reading) :
  over r -> deliver toString_utf8 evs r = r.
Proof.
  induction evs as [|ev evs IH]; intros H; [reflexivity|].
  cbn [deliver fold_left]. rewrite (over_emit r ev H). exact (IH H).
Qed.

Lemma waiting_deliver (evs : list (Event Buffer)) (r : Reading) :
  waiting r ->
  waiting (deliver toString_utf8 evs r) \/ over (deliver toString_utf8 evs r).
Proof.
  revert r. induction evs as [|ev evs IH]; intros r H; [now left|].
  change (deliver toString_utf8 (ev :: evs) r)
    with (deliver toString_utf8 evs (emit toString_utf8 r ev)).
  destruct (waiting_emit r ev H) as [Hw|Ho]; [auto|].
  right. now rewrite (over_deliver evs _ Ho).
Qed.

(** Every call is over once its events and its timer have passed. *)
Lemma reading_over (evs : list (Event Buffer)) : over (reading toString_utf8 evs).
Proof.
  unfold reading.
  destruct (waiting_deliver evs _ reading_start_waiting) as [Hw|Ho].
  - destruct (waiting_emit _ EvTimeout Hw) as [Hw'|Ho]; [|exact Ho].
    exfalso. destruct Hw as (_ & _ & _ & Ht & _), Hw' as (Hs & _).
    cbn [emit] in Hs. rewrite Ht in Hs.
    unfold onTimer, settle in Hs. cbn in Hs.
    destruct (settled (deliver toString_utf8 evs reading_start)); discriminate Hs.
  - now rewrite (over_emit _ _ Ho).
Qed.

(** Chunks without a newline so far are only accumulated. *)
Lemma deliver_chunks (chunks : list Buffer) (r : Reading) :
  waiting r ->
  includes LF (buf r ++ accumulated toString_utf8 chunks) = false ->
  let r' := deliver toString_utf8 (map EvData chunks) r in
  waiting r' /\ buf r' = (buf r ++ accumulated toString_utf8 chunks)%string.
Proof.
  revert r. induction chunks as [|c chunks IH]; intros r Hw Hn.
  - cbn. split; [exact Hw|]. unfold accumulated. cbn.
    clear. induction (buf r) as [|x b IHb]; cbn; congruence.
  - assert (Ha : accumulated toString_utf8 (c :: chunks) =
                 (toString_utf8 c ++ accumulated toString_utf8 chunks)%string).
    { unfold accumulated. cbn [map String.concat].
      destruct (map toString_utf8 chunks) eqn:E; [|reflexivity].
      cbn. clear. induction (toString_utf8 c) as [|x b IHb]; cbn; congruence. }
    rewrite Ha in *.
    assert (Hassoc : forall a b d : string, (a ++ b ++ d)%string = ((a ++ b) ++ d)%string).
    { clear. induction a as [|x a IHa]; intros; cbn; [reflexivity|now rewrite IHa]. }
    rewrite Hassoc in Hn.
    pose proof Hn as Hn'. rewrite includes_LF_app in Hn'.
    apply orb_false_iff in Hn'. destruct Hn' as [Hn1 _].
    destruct Hw as (Hs & Hd & He & Ht & Hc & Hb).
    set (r1 := emit toString_utf8 r (EvData c)).
    assert (E1 : r1 = mkReading (buf r ++ toString_utf8 c) true true true None 0).
    { unfold r1. cbn [emit]. rewrite Hd. unfold onData. cbn [buf].
      rewrite Hn1. now rewrite Hs, Hd, He, Ht, Hc. }
    assert (Hw1 : waiting r1) by (rewrite E1; repeat split; exact Hn1).
    assert (Hb1 : buf r1 = (buf r ++ toString_utf8 c)%string) by now rewrite E1.
    specialize (IH r1 Hw1). rewrite Hb1 in IH. specialize (IH Hn).
    cbn zeta in IH. destruct IH as [IHw IHb].
    cbn zeta. change (deliver toString_utf8 (map EvData (c :: chunks)) r)
      with (deliver toString_utf8 (map EvData chunks) r1).
    split; [exact IHw|]. rewrite IHb. symmetry. apply Hassoc.
Qed.

Lemma accumulated_snoc (chunks : list Buffer) (c : Buffer) :
  accumulated toString_utf8 (chunks ++ [c]) =
  (accumulated toString_utf8 chunks ++ toString_utf8 c)%string.
Proof.
  unfold accumulated. induction chunks as [|x chunks IH]; [reflexivity|].
  change ((x :: chunks) ++ [c])%list with (x :: (chunks ++ [c]))%list.
  cbn [map String.concat]. rewrite IH.
  destruct chunks as [|y chunks]; [reflexivity|].
  cbn [app map]. cbn [append]. now rewrite append_assoc.
Qed.

(** The state of a call after chunks without a newline. *)
Lemma reading_chunks (chunks : list Buffer) :
  includes LF (accumulated toString_utf8 chunks) = false ->
  let r := deliver toString_utf8 (map EvData chunks) reading_start in
  waiting r /\ buf r = accumulated toString_utf8 chunks.
Proof.
  intros Hn. exact (deliver_chunks chunks reading_start reading_start_waiting Hn).
Qed.

(** What decides a call, and what follows, after chunks without a newline. *)
Lemma reading_decided (chunks : list Buffer) (ev : Event Buffer)
    (later : list (Event Buffer)) :
  includes LF (accumulated toString_utf8 chunks) = false ->
  over (emit toString_utf8 (deliver toString_utf8 (map EvData chunks) reading_start) ev) ->
  reading toString_utf8 (map EvData chunks ++ ev :: later) =
  emit toString_utf8 (deliver toString_utf8 (map EvData chunks) reading_start) ev.
Proof.
  intros Hn Ho. unfold reading. rewrite deliver_app.
  change (deliver toString_utf8 (ev :: later) ?r)
    with (deliver toString_utf8 later (emit toString_utf8 r ev)).
  rewrite (over_deliver later _ Ho). exact (over_emit _ _ Ho).
Qed.

(** C4, as the code has it.  Every call of [readLine] produces exactly one
    outcome, by exactly one call of [resolve] or [reject], and when it is
    over its two listeners and its timer are deregistered, so that
    successive calls on one connection leave nothing behind.  The outcome
    is: the text accumulated from the chunks, each decoded as UTF-8, up to
    and including the first chunk that brings a newline into the buffer (the
    text contains a newline and may go on after it); the error the
    connection reports, if it comes before a newline; the timeout
    otherwise. *)
Theorem readLine_one_outcome_no_leak :
  (forall evs,
     exists c, settled (reading toString_utf8 evs) = Some c /\
               readLine_result toString_utf8 evs = c /\
               settlements (reading toString_utf8 evs) = 1%nat /\
               data_listener (reading toString_utf8 evs) = false /\
               error_listener (reading toString_utf8 evs) = false /\
               timer (reading toString_utf8 evs) = false) /\
  (forall calls, left_behind toString_utf8 calls = 0%nat) /\
  (forall evs text,
     readLine_result toString_utf8 evs = Return text -> includes LF text = true) /\
  (forall chunks c later,
     includes LF (accumulated toString_utf8 chunks) = false ->
     includes LF (accumulated toString_utf8 (chunks ++ [c])) = true ->
     readLine_result toString_utf8 (map EvData chunks ++ EvData c :: later) =
     Return (accumulated toString_utf8 (chunks ++ [c]))) /\
  (forall chunks e later,
     includes LF (accumulated toString_utf8 chunks) = false ->
     readLine_result toString_utf8 (map EvData chunks ++ EvError e :: later) = Throw e) /\
  (forall chunks later,
     includes LF (accumulated toString_utf8 chunks) = false ->
     readLine_result toString_utf8 (map EvData chunks ++ EvTimeout :: later) =
       Throw SmtpTimeout /\
     readLine_result toString_utf8 (map EvData chunks) = Throw SmtpTimeout).
Proof.
  assert (Hheld : forall r, held r = 0%nat ->
            data_listener r = false /\ error_listener r = false /\ timer r = false).
  { intros r. unfold held.
    destruct (data_listener r), (error_listener r), (timer r); simpl; intros; try lia; auto. }
  split; [|split; [|split; [|split; [|split]]]].
  - intros evs. destruct (reading_over evs) as ((c & Hc & _) & Hh & Hn).
    exists c. unfold readLine_result. rewrite Hc.
    destruct (Hheld _ Hh) as (? & ? & ?). auto 10.
  - intros calls. unfold left_behind.
    induction calls as [|evs calls IH]; [reflexivity|].
    change (list_sum (map (fun evs => held (reading toString_utf8 evs)) (evs :: calls)))
      with (held (reading toString_utf8 evs)
            + list_sum (map (fun evs => held (reading toString_utf8 evs)) calls))%nat.
    rewrite IH. destruct (reading_over evs) as (_ & -> & _). reflexivity.
  - intros evs text. unfold readLine_result.
    destruct (reading_over evs) as ((c & Hc & Ht) & _). rewrite Hc. exact (Ht text).
  - intros chunks c later Hn Hy.
    destruct (reading_chunks chunks Hn) as [(Hs & Hd & He & Ht & Hk & Hb) Hbuf].
    set (r := deliver toString_utf8 (map EvData chunks) reading_start) in *.
    rewrite accumulated_snoc in *.
    assert (E : emit toString_utf8 r (EvData c) =
                mkReading (accumulated toString_utf8 chunks ++ toString_utf8 c)
                  false false false
                  (Some (Return (accumulated toString_utf8 chunks ++ toString_utf8 c)%string)) 1).
    { cbn [emit]. rewrite Hd. unfold onData. cbn [buf]. rewrite Hbuf, Hy.
      unfold settle, cleanup. cbn. now rewrite Hs, Hk. }
    unfold readLine_result. rewrite (reading_decided chunks (EvData c) later Hn).
    + fold r. now rewrite E.
    + fold r. rewrite E. repeat split. eexists; split; [reflexivity|].
      intros text [= <-]. exact Hy.
  - intros chunks e later Hn.
    destruct (reading_chunks chunks Hn) as [(Hs & Hd & He & Ht & Hk & Hb) Hbuf].
    set (r := deliver toString_utf8 (map EvData chunks) reading_start) in *.
    assert (E : emit toString_utf8 r (EvError e) =
                mkReading (buf r) false false false (Some (Throw e)) 1).
    { cbn [emit]. rewrite He. unfold onErr, settle, cleanup. cbn. now rewrite Hs, Hk. }
    unfold readLine_result. rewrite (reading_decided chunks (EvError e) later Hn).
    + fold r. now rewrite E.
    + fold r. rewrite E. repeat split. eexists; split; [reflexivity|]. intros text [=].
  - intros chunks later Hn.
    destruct (reading_chunks chunks Hn) as [(Hs & Hd & He & Ht & Hk & Hb) Hbuf].
    set (r := deliver toString_utf8 (map EvData chunks) reading_start) in *.
    assert (E : emit toString_utf8 r EvTimeout =
                mkReading (buf r) false false false (Some (Throw SmtpTimeout)) 1).
    { cbn [emit]. rewrite Ht. unfold onTimer, settle, cleanup. cbn. now rewrite Hs, Hk. }
    split.
    + unfold readLine_result. rewrite (reading_decided chunks EvTimeout later Hn).
      * fold r. now rewrite E.
      * fold r. rewrite E. repeat split. eexists; split; [reflexivity|]. intros text [=].
    + unfold readLine_result, reading. fold r. now rewrite E.
Qed.

End Reader.

(** ** The session: rules for [acts] *)

Section Session.

Variable Buffer : Type.
Variable toString_utf8 : Buffer -> string.
Variable Number : string -> option Z.

Variable S : SocketLike -> Prop.
Variable P : Action -> Prop.

Lemma acts_ret {A} (a : A) : acts (Buffer := Buffer) S P (ret a).
Proof.
  intros w c w' Hs [= <- <-]. split; [exact Hs|].
  exists []. now rewrite app_nil_r.
Qed.

Lemma acts_throw {A} (e : JsError) : acts (Buffer := Buffer) (A := A) S P (throw e).
Proof.
  intros w c w' Hs [= <- <-]. split; [exact Hs|].
  exists []. now rewrite app_nil_r.
Qed.

Lemma acts_bind {A B} (m : M Buffer A) (k : A -> M Buffer B) :
  acts S P m -> (forall a, acts S P (k a)) -> acts S P (bind m k).
Proof.
  intros Hm Hk w c w' Hs E. unfold bind in E.
  destruct (m w) as [[a|e] w1] eqn:Em.
  - destruct (Hm _ _ _ Hs Em) as (Hs1 & d1 & E1 & F1).
    destruct (Hk a _ _ _ Hs1 E) as (Hs2 & d2 & E2 & F2).
    split; [exact Hs2|]. exists (d1 ++ d2)%list.
    rewrite E2, E1, app_assoc. split; [reflexivity|]. apply Forall_app; auto.
  - injection E as <- <-. exact (Hm _ _ _ Hs Em).
Qed.

Lemma acts_try_catch {A} (m : M Buffer A) (h : JsError -> M Buffer A) :
  acts S P m -> (forall e, acts S P (h e)) -> acts S P (try_catch m h).
Proof.
  intros Hm Hh w c w' Hs E. unfold try_catch in E.
  destruct (m w) as [[a|e] w1] eqn:Em.
  - injection E as <- <-. exact (Hm _ _ _ Hs Em).
  - destruct (Hm _ _ _ Hs Em) as (Hs1 & d1 & E1 & F1).
    destruct (Hh e _ _ _ Hs1 E) as (Hs2 & d2 & E2 & F2).
    split; [exact Hs2|]. exists (d1 ++ d2)%list.
    rewrite E2, E1, app_assoc. split; [reflexivity|]. apply Forall_app; auto.
Qed.

Lemma acts_swallow (m : M Buffer unit) : acts S P m -> acts S P (swallow m).
Proof. intros Hm. apply acts_try_catch; [exact Hm|]. intros e. apply acts_ret. Qed.

Lemma acts_try_finally {A} (m : M Buffer A) (fin : M Buffer unit) :
  acts S P m -> acts S P fin -> acts S P (try_finally m fin).
Proof.
  intros Hm Hf w c w' Hs E. unfold try_finally in E.
  destruct (m w) as [c1 w1] eqn:Em.
  destruct (Hm _ _ _ Hs Em) as (Hs1 & d1 & E1 & F1).
  destruct (fin w1) as [[u|e] w2] eqn:Ef; injection E as <- <-;
    destruct (Hf _ _ _ Hs1 Ef) as (Hs2 & d2 & E2 & F2);
    (split; [exact Hs2|]); exists (d1 ++ d2)%list;
    rewrite E2, E1, app_assoc; (split; [reflexivity|]); apply Forall_app; auto.
Qed.

Lemma acts_with_sock {A} (f : SocketLike -> M Buffer A) :
  (forall s, S s -> acts (fun s' => s' = s) P (f s)) -> acts S P (with_sock f).
Proof.
  intros Hf w c w' Hs E. unfold with_sock in E.
  destruct (Hf _ Hs _ _ _ eq_refl E) as (Hs' & d & Ed & Fd).
  split; [now rewrite Hs'|]. now exists d.
Qed.

Lemma acts_step {A} (m : M Buffer A) :
  (forall w c w', m w = (c, w') ->
     sock w' = sock w /\ exists a, trace w' = (trace w ++ [a])%list /\ P a) ->
  acts S P m.
Proof.
  intros Hm w c w' Hs E. destruct (Hm _ _ _ E) as (E1 & a & E2 & Pa).
  split; [now rewrite E1|]. exists [a]. auto.
Qed.

Lemma acts_write (s : SocketLike) (data : string) :
  (forall r, P (Write s data r)) -> acts (Buffer := Buffer) S P (write s data).
Proof.
  intros HP. apply acts_step. intros w c w' [= <- <-]. cbn. eauto.
Qed.

Lemma acts_readLine (s : SocketLike) (t : Z) :
  (forall r, P (Read s t r)) -> acts S P (readLine toString_utf8 s t).
Proof.
  intros HP. apply acts_step. intros w c w' [= <- <-]. cbn. eauto.
Qed.

Lemma acts_expect (s : SocketLike) (codes : list Z) (t : Z) :
  (forall r, P (Read s t r)) -> acts S P (expect toString_utf8 s codes t).
Proof.
  intros HP. unfold expect. apply acts_bind; [now apply acts_readLine|].
  intros resp. destruct (negb _); [apply acts_throw|apply acts_ret].
Qed.

Lemma acts_securing (net : Net Buffer) (s : SocketLike) :
  (forall r, P (Secure s r)) -> acts S P (securing net s).
Proof.
  intros HP. apply acts_step. intros w c w' [= <- <-]. cbn. eauto.
Qed.

Lemma acts_end (net : Net Buffer) (s : SocketLike) :
  (forall r, P (End_ s r)) -> acts S P (end_ net s).
Proof.
  intros HP. apply acts_step. intros w c w' [= <- <-]. cbn. eauto.
Qed.

Lemma acts_console_error (e : JsError) :
  P (LogError e) -> acts (Buffer := Buffer) S P (console_error e).
Proof.
  intros HP. apply acts_step. intros w c w' [= <- <-]. cbn. eauto.
Qed.

Lemma acts_assign_sock (s : SocketLike) :
  S s -> acts (Buffer := Buffer) S P (assign_sock s).
Proof.
  intros Hs w c w' _ [= <- <-]. cbn. split; [exact Hs|].
  exists []. now rewrite app_nil_r.
Qed.

End Session.

(** ** The session: what each block does *)

Section Blocks.

Variable Buffer : Type.
Variable toString_utf8 : Buffer -> string.
Variable Number : string -> option Z.

Lemma acts_upgrade (S : SocketLike -> Prop) (P : Action -> Prop) :
  (forall s, S s -> S (TlsOver s)) ->
  acts (Buffer := Buffer) S P (with_sock (fun sock => assign_sock (TlsOver sock))).
Proof.
  intros HS w c w' Hs [= <- <-]. cbn. split; [auto|]. exists []. now rewrite app_nil_r.
Qed.

Lemma acts_rcpt_loop (S : SocketLike -> Prop) (P : Action -> Prop) (rs : list string) :
  (forall s x r, S s -> In x rs -> P (Write s (RCPT_TO x) r)) ->
  (forall s t r, S s -> P (Read s t r)) ->
  acts S P (rcpt_loop toString_utf8 rs).
Proof.
  intros HW HR. induction rs as [|x rs IH]; cbn [rcpt_loop]; [apply acts_ret|].
  apply acts_bind; [|intros ?; apply acts_bind; [|intros ?]].
  - apply acts_with_sock. intros s Hs. apply acts_write. intros r.
    apply HW; [exact Hs|now left].
  - apply acts_with_sock. intros s Hs. apply acts_expect. intros r. now apply HR.
  - apply IH. intros s y r Hs Hy. apply HW; [exact Hs|now right].
Qed.

(** Goals [acts S P m], for a computation [m] made of the steps of the
    session: what is left to prove is [P] of each step it may take on a
    socket in [S], and that [S] allows the TLS socket of an upgrade. *)
Ltac acts_auto :=
  lazymatch goal with
  | |- acts _ _ (bind _ _) => apply acts_bind; [acts_auto | intros ?; acts_auto]
  | |- acts _ _ (ret _) => apply acts_ret
  | |- acts _ _ (throw _) => apply acts_throw
  | |- acts _ _ (if ?b then _ else _) => destruct b; acts_auto
  | |- acts _ _ (swallow _) => apply acts_swallow; acts_auto
  | |- acts _ _ (try_catch _ _) => apply acts_try_catch; [acts_auto | intros ?; acts_auto]
  | |- acts _ _ (with_sock (fun s => expect _ s _ _)) =>
      apply acts_with_sock; intros ? ?; apply acts_expect; intros ?
  | |- acts _ _ (with_sock (fun s => readLine _ s _)) =>
      apply acts_with_sock; intros ? ?; apply acts_readLine; intros ?
  | |- acts _ _ (with_sock (fun s => write s _)) =>
      apply acts_with_sock; intros ? ?; apply acts_write; intros ?
  | |- acts _ _ (with_sock (fun s => securing _ s)) =>
      apply acts_with_sock; intros ? ?; apply acts_securing; intros ?
  | |- acts _ _ (with_sock (fun s => end_ _ s)) =>
      apply acts_with_sock; intros ? ?; apply acts_end; intros ?
  | |- acts _ _ (with_sock (fun s => assign_sock (TlsOver s))) => apply acts_upgrade
  | |- acts _ _ (console_error _) => apply acts_console_error
  | |- acts _ _ (rcpt_loop _ _) => apply acts_rcpt_loop; [intros ? ? ? ? ? | intros ? ? ? ?]
  | |- acts _ _ (auth_login _ _ _) => unfold auth_login; acts_auto
  | |- acts _ _ (mail_from _ _) => unfold mail_from; acts_auto
  | |- acts _ _ (send_data _ _ _ _ _) => unfold send_data; cbn zeta; acts_auto
  | |- acts _ _ (tls_upgrade _ _) => unfold tls_upgrade; acts_auto
  | |- acts _ _ (after_greeting _ _ _ _ _ _ _) => unfold after_greeting; acts_auto
  | |- acts _ _ (greet_and_secure _ _ _ _) => unfold greet_and_secure; acts_auto
  | |- acts _ _ (try_block _ _ _ _ _ _ _ _ _) => unfold try_block; acts_auto
  | |- acts _ _ (catch_block _) => unfold catch_block; acts_auto
  | |- _ => idtac
  end.


Lemma catch_block_run (e : JsError) (w : World Buffer) :
  catch_block e w =
  (Return false,
   mkWorld (sock w) (coming_reads w) (tl (coming_writes w))
     (trace w ++ [LogError e; Write (sock w) QUIT (hd None (coming_writes w))])%list).
Proof.
  unfold catch_block, bind, console_error, swallow, try_catch, with_sock, write, record, ret.
  cbn. rewrite <- app_assoc. cbn.
  destruct (hd None (coming_writes w)); reflexivity.
Qed.

Lemma finally_block_run (net : Net Buffer) (w : World Buffer) :
  finally_block net w = (Return tt, record (End_ (sock w) (closed net)) w).
Proof.
  unfold finally_block, swallow, try_catch, with_sock, end_, ret.
  destruct (closed net); reflexivity.
Qed.

Lemma configured_host (penv : ProcessEnv) :
  configured penv -> forall k, In k required_settings -> env penv k <> "".
Proof.
  unfold configured, hasSmtpEnv, js_and. intros H k Hk E.
  cbn in Hk.
  destruct Hk as [<-|[<-|[<-|[<-|[<-|[]]]]]]; rewrite E in H; cbn in H;
    repeat match type of H with
           | context [truthy (env penv ?k')] => destruct (env penv k'); cbn in H
           end; discriminate H.
Qed.

Lemma sendEmail_not_configured (penv : ProcessEnv) (net : Net Buffer)
    (params : SendEmailParams) :
  ~ configured penv ->
  sendEmail toString_utf8 Number penv net params = (Return false, [Warn not_configured]).
Proof.
  unfold configured. intros H. unfold sendEmail, sendEmail_body.
  destruct (truthy (hasSmtpEnv penv)); [now elim H|]. reflexivity.
Qed.

Lemma sendEmail_no_recipient (penv : ProcessEnv) (net : Net Buffer)
    (params : SendEmailParams) :
  configured penv -> parse_recipients (to params) = [] ->
  sendEmail toString_utf8 Number penv net params = (Return false, []).
Proof.
  unfold configured. intros H E. unfold sendEmail, sendEmail_body.
  rewrite H, E. reflexivity.
Qed.

Lemma sendEmail_refused (penv : ProcessEnv) (net : Net Buffer)
    (params : SendEmailParams) (e : JsError) :
  configured penv -> parse_recipients (to params) <> [] ->
  connected net = Some e ->
  sendEmail toString_utf8 Number penv net params =
  (Throw e, [Connect (first_socket (Number (env penv "SMTP_PORT")))
               (env penv "SMTP_HOST") (Number (env penv "SMTP_PORT")) (Some e)]).
Proof.
  unfold configured. intros H Hr Hc. unfold sendEmail, sendEmail_body.
  rewrite H. cbn [negb].
  destruct (parse_recipients (to params)) as [|r rs]; [now elim Hr|].
  cbn [length Nat.eqb]. unfold first_socket.
  destruct (is465 (Number (env penv "SMTP_PORT")));
    unfold bind, assign_sock, with_sock, connecting, world0, record; cbn;
    rewrite Hc; reflexivity.
Qed.

Lemma sendEmail_connected (penv : ProcessEnv) (net : Net Buffer)
    (params : SendEmailParams) :
  configured penv -> parse_recipients (to params) <> [] ->
  connected net = None ->
  sendEmail toString_utf8 Number penv net params =
  concluded net (session toString_utf8 Number penv net params).
Proof.
  unfold configured. intros H Hr Hc. unfold sendEmail, sendEmail_body, session.
  rewrite H. cbn [negb].
  destruct (parse_recipients (to params)) as [|r rs] eqn:Er; [now elim Hr|].
  cbn [length Nat.eqb]. unfold first_socket, connected_world, useStartTls_of.
  set (tb := try_block _ _ _ _ _ _ _ _ _).
  destruct (is465 (Number (env penv "SMTP_PORT")));
    unfold bind at 1 2; unfold assign_sock, with_sock at 1, connecting, world0, record;
    cbn; rewrite Hc; cbn;
    unfold try_finally, try_catch;
    match goal with |- context [tb ?w] => destruct (tb w) as [[b|e] w2] end;
    cbn [concluded]; rewrite ?catch_block_run, finally_block_run; cbn;
    rewrite <- ?app_assoc; reflexivity.
Qed.

Lemma filter_is_end_app (t u : list Action) :
  filter is_end (t ++ u) = (filter is_end t ++ filter is_end u)%list.
Proof. apply filter_app. Qed.

Lemma filter_none {A} (f : A -> bool) (l : list A) :
  Forall (fun a => f a = false) l -> filter f l = [].
Proof.
  induction 1 as [|a l Ha _ IH]; [reflexivity|]. cbn. now rewrite Ha.
Qed.

(** What the [try] block adds to the trace is neither a connection nor a
    release. *)
Lemma session_steps (penv : ProcessEnv) (net : Net Buffer) (params : SendEmailParams) :
  exists d,
    trace (snd (session toString_utf8 Number penv net params)) =
      (Connect (first_socket (Number (env penv "SMTP_PORT"))) (env penv "SMTP_HOST")
         (Number (env penv "SMTP_PORT")) None :: d)%list /\
    Forall (fun a => is_end a = false /\ is_connect a = false) d.
Proof.
  unfold session.
  destruct (try_block _ _ _ _ _ _ _ _ _ _) as [c w2] eqn:E.
  assert (H : acts (fun _ => True) (fun a => is_end a = false /\ is_connect a = false)
                (try_block toString_utf8 net (Number (env penv "SMTP_PORT"))
                   (useStartTls_of penv) (env penv "SMTP_USER") (env penv "SMTP_PASS")
                   (env penv "SMTP_FROM") (parse_recipients (to params)) params))
    by (acts_auto; auto).
  destruct (H _ _ _ I E) as (_ & d & Ed & Fd).
  exists d. cbn [snd]. rewrite Ed. split; [reflexivity|exact Fd].
Qed.

(** Once the connection is established the call resolves with a boolean,
    and the connection is released exactly once, by the [finally] block. *)
Lemma sendEmail_connected_settles (penv : ProcessEnv) (net : Net Buffer)
    (params : SendEmailParams) :
  configured penv -> parse_recipients (to params) <> [] -> connected net = None ->
  (exists b, fst (sendEmail toString_utf8 Number penv net params) = Return b) /\
  (exists s, filter is_end (snd (sendEmail toString_utf8 Number penv net params)) =
             [End_ s (closed net)]).
Proof.
  intros Hc Hr Hn. rewrite (sendEmail_connected penv net params Hc Hr Hn).
  destruct (session_steps penv net params) as (d & Ed & Fd).
  assert (Hf : filter is_end d = []).
  { apply filter_none. eapply Forall_impl; [|exact Fd]. now intros a [H _]. }
  destruct (session toString_utf8 Number penv net params) as [[b|e] w].
  - cbn [snd] in Ed. cbn [concluded fst snd]. split; [eauto|].
    exists (sock w). rewrite Ed. cbn [app filter is_end].
    rewrite filter_is_end_app, Hf. reflexivity.
  - cbn [snd] in Ed. cbn [concluded fst snd]. split; [eauto|].
    exists (sock w). rewrite Ed. cbn [app filter is_end].
    rewrite filter_is_end_app, Hf. reflexivity.
Qed.

(** The promise of [sendEmail] rejects exactly when the connection is
    attempted and fails, and then with the error of the connection. *)
Lemma sendEmail_rejects_iff (penv : ProcessEnv) (net : Net Buffer)
    (params : SendEmailParams) (e : JsError) :
  fst (sendEmail toString_utf8 Number penv net params) = Throw e <->
  configured penv /\ parse_recipients (to params) <> [] /\ connected net = Some e.
Proof.
  split.
  - intros H.
    destruct (truthy (hasSmtpEnv penv)) eqn:Hc.
    + destruct (parse_recipients (to params)) as [|r rs] eqn:Hr.
      * rewrite (sendEmail_no_recipient penv net params Hc Hr) in H. discriminate H.
      * assert (Hr' : parse_recipients (to params) <> []) by (rewrite Hr; discriminate).
        rewrite <- Hr.
        destruct (connected net) as [e'|] eqn:Hn.
        -- rewrite (sendEmail_refused penv net params e' Hc Hr' Hn) in H.
           injection H as <-. auto.
        -- destruct (sendEmail_connected_settles penv net params Hc Hr' Hn) as ((b & Hb) & _).
           rewrite Hb in H. discriminate H.
    + rewrite (sendEmail_not_configured penv net params) in H; [discriminate H|].
      unfold configured. rewrite Hc. discriminate.
  - intros (Hc & Hr & Hn). now rewrite (sendEmail_refused penv net params e Hc Hr Hn).
Qed.

(** C8. When one of the five settings is missing (absent, empty or white
    space only), and likewise when the recipient string names nobody (in
    particular when it is empty or white space only), [sendEmail] resolves
    with [false] and no connection is attempted. *)
Theorem sendEmail_short_circuit (penv : ProcessEnv) (net : Net Buffer)
    (params : SendEmailParams) :
  (exists k, In k required_settings /\ (penv k = None \/ env penv k = "")) \/
  parse_recipients (to params) = [] \/
  forallb is_white (list_ascii_of_string (to params)) = true ->
  fst (sendEmail toString_utf8 Number penv net params) = Return false /\
  filter is_connect (snd (sendEmail toString_utf8 Number penv net params)) = [].
Proof.
  intros H.
  destruct (truthy (hasSmtpEnv penv)) eqn:Hc.
  - destruct H as [(k & Hk & Hm)|H].
    + exfalso. apply (configured_host penv Hc k Hk).
      destruct Hm as [Hm|Hm]; [now apply env_missing|exact Hm].
    + assert (Hr : parse_recipients (to params) = []).
      { destruct H as [H|H]; [exact H|now apply parse_recipients_white]. }
      rewrite (sendEmail_no_recipient penv net params Hc Hr). split; reflexivity.
  - rewrite (sendEmail_not_configured penv net params).
    + split; reflexivity.
    + unfold configured. rewrite Hc. discriminate.
Qed.

(** ** The session when every step succeeds *)

Lemma written_app (t u : list Action) :
  written (t ++ u) = (written t ++ written u)%list.
Proof.
  induction t as [|a t IH]; [reflexivity|].
  destruct a; cbn; rewrite IH; reflexivity.
Qed.

Lemma bind_ok {A B} (m : M Buffer A) (k : A -> M Buffer B) (w w' : World Buffer) (a : A) :
  m w = (Return a, w') -> bind m k w = k a w'.
Proof. intros E. unfold bind. now rewrite E. Qed.

Lemma bind_failed {A B} (m : M Buffer A) (k : A -> M Buffer B) (w w' : World Buffer)
    (e : JsError) :
  m w = (Throw e, w') -> bind m k w = (Throw e, w').
Proof. intros E. unfold bind. now rewrite E. Qed.

Lemma all_flushed_hd (l : list (option JsError)) :
  all_flushed l -> hd None l = None /\ all_flushed (tl l).
Proof.
  intros H. destruct H as [|r l Hr Hl]; cbn; [split; [reflexivity|constructor]|auto].
Qed.

Lemma happy_write (w : World Buffer) (s : SocketLike)
    (reads : list (list (Event Buffer))) (ws : list string) (data : string) :
  in_state w s reads ws ->
  exists w', with_sock (fun sock => write sock data) w = (Return tt, w') /\
             in_state w' s reads (ws ++ [data]).
Proof.
  intros (Hs & Hr & Hf & Hw). destruct (all_flushed_hd _ Hf) as [Hh Ht].
  eexists. unfold with_sock, write. rewrite Hh. split; [reflexivity|].
  repeat split; cbn; auto. rewrite written_app, Hw. reflexivity.
Qed.

Lemma happy_readLine (w : World Buffer) (s : SocketLike)
    (evs : list (Event Buffer)) (reads : list (list (Event Buffer)))
    (ws : list string) (t : Z) (text : string) :
  in_state w s (evs :: reads) ws ->
  readLine_result toString_utf8 evs = Return text ->
  exists w', with_sock (fun sock => readLine toString_utf8 sock t) w = (Return text, w') /\
             in_state w' s reads ws.
Proof.
  intros (Hs & Hr & Hf & Hw) E.
  eexists. unfold with_sock, readLine. rewrite Hr. cbn [hd tl]. rewrite E.
  split; [reflexivity|].
  repeat split; cbn; auto. rewrite written_app, Hw. cbn. apply app_nil_r.
Qed.

Lemma accepted_existsb (codes : list Z) (text : string) :
  In (extractCode text) codes -> existsb (Z.eqb (extractCode text)) codes = true.
Proof. intros H. apply existsb_exists. exists (extractCode text). split; [exact H|apply Z.eqb_refl]. Qed.

Lemma happy_expect (w : World Buffer) (s : SocketLike)
    (evs : list (Event Buffer)) (reads : list (list (Event Buffer)))
    (ws : list string) (codes : list Z) (t : Z) :
  in_state w s (evs :: reads) ws ->
  accepted toString_utf8 codes evs ->
  exists text w',
    with_sock (fun sock => expect toString_utf8 sock codes t) w = (Return text, w') /\
    in_state w' s reads ws.
Proof.
  intros (Hs & Hr & Hf & Hw) (text & E & Hin).
  exists text. eexists. unfold with_sock, expect, bind, readLine.
  rewrite Hr. cbn [hd tl]. rewrite E. rewrite (accepted_existsb _ _ Hin). cbn [negb].
  split; [reflexivity|].
  repeat split; cbn; auto. rewrite written_app, Hw. cbn. apply app_nil_r.
Qed.

Lemma happy_auth_login (w : World Buffer) (s : SocketLike)
    (c1 c2 c3 : list (Event Buffer)) (reads : list (list (Event Buffer)))
    (ws : list string) (user pass : string) :
  in_state w s (c1 :: c2 :: c3 :: reads) ws ->
  accepted toString_utf8 [334] c1 -> accepted toString_utf8 [334] c2 ->
  accepted toString_utf8 [235] c3 ->
  exists w', auth_login toString_utf8 user pass w = (Return tt, w') /\
             in_state w' s reads (ws ++ [AUTH_LOGIN; credential user; credential pass]).
Proof.
  intros H0 A1 A2 A3. unfold auth_login.
  destruct (happy_write w s _ ws AUTH_LOGIN H0) as (w1 & E1 & H1).
  rewrite (bind_ok _ _ _ _ _ E1).
  destruct (happy_expect w1 s _ _ _ _ 10000 H1 A1) as (t2 & w2 & E2 & H2).
  rewrite (bind_ok _ _ _ _ _ E2).
  destruct (happy_write w2 s _ _ (credential user) H2) as (w3 & E3 & H3).
  rewrite (bind_ok _ _ _ _ _ E3).
  destruct (happy_expect w3 s _ _ _ _ 10000 H3 A2) as (t4 & w4 & E4 & H4).
  rewrite (bind_ok _ _ _ _ _ E4).
  destruct (happy_write w4 s _ _ (credential pass) H4) as (w5 & E5 & H5).
  rewrite (bind_ok _ _ _ _ _ E5).
  destruct (happy_expect w5 s _ _ _ _ 10000 H5 A3) as (t6 & w6 & E6 & H6).
  rewrite (bind_ok _ _ _ _ _ E6).
  exists w6. split; [reflexivity|].
  rewrite <- !app_assoc in H6. exact H6.
Qed.

Lemma happy_mail_from (w : World Buffer) (s : SocketLike)
    (m : list (Event Buffer)) (reads : list (list (Event Buffer)))
    (ws : list string) (from : string) :
  in_state w s (m :: reads) ws ->
  accepted toString_utf8 [250] m ->
  exists w', mail_from toString_utf8 from w = (Return tt, w') /\
             in_state w' s reads (ws ++ [MAIL_FROM from]).
Proof.
  intros H0 A1. unfold mail_from.
  destruct (happy_write w s _ ws (MAIL_FROM from) H0) as (w1 & E1 & H1).
  rewrite (bind_ok _ _ _ _ _ E1).
  destruct (happy_expect w1 s _ _ _ _ 10000 H1 A1) as (t2 & w2 & E2 & H2).
  rewrite (bind_ok _ _ _ _ _ E2).
  exists w2. split; [reflexivity|exact H2].
Qed.

Lemma happy_rcpt_loop (recipients : list string) :
  forall (w : World Buffer) (s : SocketLike) (replies reads : list (list (Event Buffer)))
         (ws : list string),
    in_state w s (replies ++ reads) ws ->
    length replies = length recipients ->
    Forall (accepted toString_utf8 [250; 251]) replies ->
    exists w', rcpt_loop toString_utf8 recipients w = (Return tt, w') /\
               in_state w' s reads (ws ++ map RCPT_TO recipients).
Proof.
  induction recipients as [|r rs IH]; intros w s replies reads ws H0 Hl Ha.
  - destruct replies; [|discriminate Hl]. exists w. split; [reflexivity|].
    cbn [map]. rewrite app_nil_r. exact H0.
  - destruct replies as [|evs replies]; [discriminate Hl|].
    inversion Ha as [|? ? A1 A2]; subst. cbn [rcpt_loop].
    destruct (happy_write w s _ ws (RCPT_TO r) H0) as (w1 & E1 & H1).
    rewrite (bind_ok _ _ _ _ _ E1).
    destruct (happy_expect w1 s _ _ _ _ 10000 H1 A1) as (t2 & w2 & E2 & H2).
    rewrite (bind_ok _ _ _ _ _ E2).
    destruct (IH w2 s replies reads _ H2) as (w3 & E3 & H3); [now injection Hl|exact A2|].
    exists w3. split; [exact E3|]. cbn [map]. rewrite <- app_assoc in H3. exact H3.
Qed.

Lemma happy_send_data (w : World Buffer) (s : SocketLike)
    (d q : list (Event Buffer)) (reads : list (list (Event Buffer)))
    (ws : list string) (net : Net Buffer) (from : string) (recipients : list string)
    (params : SendEmailParams) :
  in_state w s (d :: q :: reads) ws ->
  accepted toString_utf8 [354] d -> accepted toString_utf8 [250] q ->
  exists w', send_data toString_utf8 net from recipients params w = (Return tt, w') /\
             in_state w' s reads (ws ++ [DATA; payload_of net from recipients params]).
Proof.
  intros H0 A1 A2. unfold send_data.
  destruct (happy_write w s _ ws DATA H0) as (w1 & E1 & H1).
  rewrite (bind_ok _ _ _ _ _ E1).
  destruct (happy_expect w1 s _ _ _ _ 10000 H1 A1) as (t2 & w2 & E2 & H2).
  rewrite (bind_ok _ _ _ _ _ E2). cbn zeta.
  destruct (happy_write w2 s _ _ (payload_of net from recipients params) H2)
    as (w3 & E3 & H3).
  unfold payload_of in E3. rewrite (bind_ok _ _ _ _ _ E3).
  destruct (happy_expect w3 s _ _ _ _ 10000 H3 A2) as (t4 & w4 & E4 & H4).
  rewrite (bind_ok _ _ _ _ _ E4).
  exists w4. split; [reflexivity|].
  rewrite <- !app_assoc in H4. exact H4.
Qed.

Lemma happy_greeting_upgrade (w : World Buffer) (s : SocketLike)
    (banner ehlo go ehlo2 : list (Event Buffer)) (reads : list (list (Event Buffer)))
    (ws : list string) (net : Net Buffer) (port : option Z) (text text2 : string) :
  in_state w s (banner :: ehlo :: go :: ehlo2 :: reads) ws ->
  accepted toString_utf8 [220] banner ->
  readLine_result toString_utf8 ehlo = Return text -> test_STARTTLS_i text = true ->
  accepted toString_utf8 [220] go ->
  readLine_result toString_utf8 ehlo2 = Return text2 ->
  is465 port = false -> secured net = None ->
  exists w', greet_and_secure toString_utf8 net port true w = (Return tt, w') /\
             in_state w' (TlsOver s) reads (ws ++ [EHLO; STARTTLS; EHLO]).
Proof.
  intros H0 A1 R2 T2 A3 R4 Hp Hsec. unfold greet_and_secure.
  destruct (happy_expect w s _ _ _ _ 10000 H0 A1) as (t1 & w1 & E1 & H1).
  rewrite (bind_ok _ _ _ _ _ E1).
  destruct (happy_write w1 s _ _ EHLO H1) as (w2 & E2 & H2).
  rewrite (bind_ok _ _ _ _ _ E2).
  destruct (happy_readLine w2 s _ _ _ 10000 _ H2 R2) as (w3 & E3 & H3).
  rewrite (bind_ok _ _ _ _ _ E3).
  rewrite Hp, T2. cbn [negb andb].
  destruct (happy_write w3 s _ _ STARTTLS H3) as (w4 & E4 & H4).
  rewrite (bind_ok _ _ _ _ _ E4). unfold tls_upgrade.
  destruct (happy_expect w4 s _ _ _ _ 10000 H4 A3) as (t5 & w5 & E5 & H5).
  rewrite (bind_ok _ _ _ _ _ E5).
  destruct H5 as (Hs5 & Hr5 & Hf5 & Hw5).
  set (w6 := mkWorld (TlsOver s) (coming_reads w5) (coming_writes w5) (trace w5)).
  assert (E6 : with_sock (fun sock => assign_sock (TlsOver sock)) w5 = (Return tt, w6))
    by (unfold with_sock, assign_sock, w6; now rewrite Hs5).
  rewrite (bind_ok _ _ _ _ _ E6).
  set (w7 := record (Secure (TlsOver s) None) w6).
  assert (E7 : with_sock (fun sock => securing net sock) w6 = (Return tt, w7))
    by (unfold with_sock, securing, w7; rewrite Hsec; reflexivity).
  rewrite (bind_ok _ _ _ _ _ E7).
  assert (H7 : in_state w7 (TlsOver s) (ehlo2 :: reads) ((ws ++ [EHLO]) ++ [STARTTLS])).
  { repeat split; cbn; auto. rewrite written_app, Hw5. cbn. apply app_nil_r. }
  destruct (happy_write w7 _ _ _ EHLO H7) as (w8 & E8 & H8).
  rewrite (bind_ok _ _ _ _ _ E8).
  destruct (happy_readLine w8 _ _ _ _ 10000 _ H8 R4) as (w9 & E9 & H9).
  rewrite (bind_ok _ _ _ _ _ E9).
  exists w9. split; [reflexivity|]. rewrite <- !app_assoc in H9. exact H9.
Qed.

Lemma RCPT_TO_not_DATA (rs : list string) : ~ In DATA (map RCPT_TO rs).
Proof.
  intros H. apply in_map_iff in H. destruct H as (r & E & _). discriminate E.
Qed.

Lemma credential_not_DATA (penv : ProcessEnv) (k : string) :
  credential (env penv k) <> DATA.
Proof.
  intros E. apply (b64_env_not_DATA penv k). exact (append_eq_inv _ _ _ E).
Qed.

(** C2. A configured call for N recipients (N at least 1) on a port other
    than 465, with STARTTLS enabled, against a transport that establishes
    the connection, flushes every write and replies with 220, an EHLO reply
    that advertises STARTTLS, 220, a reply to the second EHLO, 334, 334,
    235, 250 to MAIL FROM, 250 (or 251) to each of the N RCPT TO, 354 to
    DATA and 250 after the message: [sendEmail] resolves with [true]; the
    transport sees the commands in order, with one RCPT TO per recipient,
    the DATA command exactly once, and after it one payload, the composed
    message followed by CRLF.CRLF. *)
Theorem happy_path_delivers (penv : ProcessEnv) (net : Net Buffer)
    (params : SendEmailParams)
    (banner ehlo go ehlo2 c1 c2 c3 mail data queued : list (Event Buffer))
    (rcpts more : list (list (Event Buffer))) :
  configured penv ->
  is465 (Number (env penv "SMTP_PORT")) = false ->
  useStartTls_of penv = true ->
  parse_recipients (to params) <> [] ->
  connected net = None -> secured net = None -> all_flushed (flushed net) ->
  emitted net =
    ([banner; ehlo; go; ehlo2; c1; c2; c3; mail] ++ rcpts ++ [data; queued] ++ more)%list ->
  accepted toString_utf8 [220] banner ->
  (exists text, readLine_result toString_utf8 ehlo = Return text /\
                test_STARTTLS_i text = true) ->
  accepted toString_utf8 [220] go ->
  (exists text, readLine_result toString_utf8 ehlo2 = Return text) ->
  accepted toString_utf8 [334] c1 ->
  accepted toString_utf8 [334] c2 ->
  accepted toString_utf8 [235] c3 ->
  accepted toString_utf8 [250] mail ->
  length rcpts = length (parse_recipients (to params)) ->
  Forall (accepted toString_utf8 [250; 251]) rcpts ->
  accepted toString_utf8 [354] data ->
  accepted toString_utf8 [250] queued ->
  let recipients := parse_recipients (to params) in
  let payload := payload_of net (env penv "SMTP_FROM") recipients params in
  let r := sendEmail toString_utf8 Number penv net params in
  fst r = Return true /\
  written (snd r) =
    ([EHLO; STARTTLS; EHLO; AUTH_LOGIN;
      credential (env penv "SMTP_USER"); credential (env penv "SMTP_PASS");
      MAIL_FROM (env penv "SMTP_FROM")]
     ++ map RCPT_TO recipients ++ [DATA; payload; QUIT])%list /\
  times_sent DATA (snd r) = 1%nat /\
  payload = (makeMime (random net) (env penv "SMTP_FROM") (join ", " recipients)
               (subject params) (html params) ++ CRLF ++ "." ++ CRLF)%string.
Proof.
  intros Hc Hp Htls Hr Hcon Hsec Hfl Hem A1 (text & R2 & T2) A3 (text2 & R4)
         A5 A6 A7 A8 Hlen Hall A9 A10 recipients payload r.
  assert (Hw : written (snd r) =
    ([EHLO; STARTTLS; EHLO; AUTH_LOGIN;
      credential (env penv "SMTP_USER"); credential (env penv "SMTP_PASS");
      MAIL_FROM (env penv "SMTP_FROM")]
     ++ map RCPT_TO recipients ++ [DATA; payload; QUIT])%list /\ fst r = Return true).
  { unfold r. rewrite (sendEmail_connected penv net params Hc Hr Hcon).
    unfold session. rewrite Htls. unfold try_block, after_greeting.
    set (port := Number (env penv "SMTP_PORT")) in *.
    set (w0 := connected_world net (first_socket port) (env penv "SMTP_HOST") port).
    assert (H0 : in_state w0 (first_socket port)
                   (banner :: ehlo :: go :: ehlo2 ::
                    c1 :: c2 :: c3 :: mail :: rcpts ++ [data; queued] ++ more) []).
    { repeat split; cbn; auto. }
    destruct (happy_greeting_upgrade w0 _ _ _ _ _ _ _ net port _ _
                H0 A1 R2 T2 A3 R4 Hp Hsec) as (w1 & E1 & H1).
    rewrite (bind_ok _ _ _ _ _ E1).
    destruct (happy_auth_login w1 _ _ _ _ _ _ (env penv "SMTP_USER") (env penv "SMTP_PASS")
                H1 A5 A6 A7) as (w2 & E2 & H2).
    rewrite (bind_ok _ _ _ _ _ E2).
    destruct (happy_mail_from w2 _ _ _ _ (env penv "SMTP_FROM") H2 A8) as (w3 & E3 & H3).
    rewrite (bind_ok _ _ _ _ _ E3).
    destruct (happy_rcpt_loop recipients w3 _ rcpts _ _ H3 Hlen Hall) as (w4 & E4 & H4).
    fold recipients. rewrite (bind_ok _ _ _ _ _ E4).
    destruct (happy_send_data w4 _ _ _ _ _ net (env penv "SMTP_FROM") recipients params
                H4 A9 A10) as (w5 & E5 & H5).
    rewrite (bind_ok _ _ _ _ _ E5).
    destruct (happy_write w5 _ _ _ QUIT H5) as (w6 & E6 & H6).
    rewrite (bind_ok _ _ _ _ _ E6).
    unfold ret. cbn [concluded fst snd]. split; [|reflexivity].
    destruct H6 as (_ & _ & _ & H6).
    rewrite written_app, H6. cbn [written app]. rewrite app_nil_r.
    fold payload. cbn [app]. rewrite <- !app_assoc. reflexivity. }
  destruct Hw as [Hw Hres].
  split; [exact Hres|]. split; [exact Hw|]. split; [|reflexivity].
  unfold times_sent. rewrite Hw.
  assert (Hpay : payload <> DATA) by (unfold payload, payload_of, makeMime; discriminate).
  assert (Hu := credential_not_DATA penv "SMTP_USER").
  assert (Hpw := credential_not_DATA penv "SMTP_PASS").
  assert (Hrc : count_occ string_dec (map RCPT_TO recipients) DATA = 0%nat)
    by (apply count_occ_not_In, RCPT_TO_not_DATA).
  cbn [app]. rewrite !count_occ_cons_neq, count_occ_app, Hrc by (congruence || discriminate).
  cbn [count_occ Nat.add].
  destruct (string_dec DATA DATA) as [_|N]; [|now elim N].
  destruct (string_dec payload DATA) as [E|_]; [now elim Hpay|].
  reflexivity.
Qed.

(** ** Response parser *)

(** C5. The parser returns the three-digit code at the head of the first
    line that starts with one, and 0 when no line does; [expect] reads one
    line and, for a line that was read, throws the unexpected-response
    error with the parsed code and the raw text exactly when the code is
    not in the accepted set, and returns the raw text otherwise. *)
Theorem response_parser_contract :
  extractCode ("250 OK" ++ CRLF) = 250 /\
  extractCode ("550-first" ++ CRLF ++ "550 second" ++ CRLF) = 550 /\
  extractCode ("garbage" ++ CRLF) = 0 /\
  (forall resp, extractCode resp = code_of_first_coded_line resp) /\
  (forall (w : World Buffer) (s : SocketLike) (okCodes : list Z) (t : Z) (resp : string),
     readLine_result toString_utf8 (hd [] (coming_reads w)) = Return resp ->
     let r := expect toString_utf8 s okCodes t w in
     trace (snd r) = (trace w ++ [Read s t (Return resp)])%list /\
     coming_reads (snd r) = tl (coming_reads w) /\
     (fst r = Throw (SmtpUnexpected (extractCode resp) resp) <->
      ~ In (extractCode resp) okCodes) /\
     (fst r = Return resp <-> In (extractCode resp) okCodes)).
Proof.
  split; [reflexivity|]. split; [reflexivity|]. split; [reflexivity|].
  split; [exact extractCode_refines|].
  intros w s okCodes t resp E r. unfold r, expect, bind, readLine. rewrite E.
  cbn [fst snd trace coming_reads].
  destruct (existsb (Z.eqb (extractCode resp)) okCodes) eqn:Hex; cbn [negb fst snd].
  - assert (Hin : In (extractCode resp) okCodes).
    { apply existsb_exists in Hex. destruct Hex as (x & Hx & Hq).
      apply Z.eqb_eq in Hq. now subst x. }
    unfold ret. cbn [fst snd trace coming_reads].
    repeat split; auto; try discriminate. intros Hn. now elim Hn.
  - assert (Hin : ~ In (extractCode resp) okCodes).
    { intros Hin. rewrite (accepted_existsb _ _ Hin) in Hex. discriminate Hex. }
    unfold throw. cbn [fst snd trace coming_reads].
    repeat split; auto; try discriminate. intros Hy. now elim Hin.
Qed.

(** ** The session step by step *)

Lemma bind_assoc {A B C} (m : M Buffer A) (k : A -> M Buffer B) (k' : B -> M Buffer C)
    (w : World Buffer) :
  bind (bind m k) k' w = bind m (fun a => bind (k a) k') w.
Proof. unfold bind. destruct (m w) as [[a|e] w1]; reflexivity. Qed.

Lemma bind_ext {A B} (m : M Buffer A) (k k' : A -> M Buffer B) (w : World Buffer) :
  (forall a w', k a w' = k' a w') -> bind m k w = bind m k' w.
Proof. intros H. unfold bind. destruct (m w) as [[a|e] w1]; [apply H|reflexivity]. Qed.

Lemma sock_write_run (w : World Buffer) (data : string) :
  with_sock (fun sock => write sock data) w =
  (of_error (hd None (coming_writes w)),
   mkWorld (sock w) (coming_reads w) (tl (coming_writes w))
     (trace w ++ [Write (sock w) data (hd None (coming_writes w))])%list).
Proof. reflexivity. Qed.

Lemma sock_readLine_run (w : World Buffer) (t : Z) :
  with_sock (fun sock => readLine toString_utf8 sock t) w =
  (readLine_result toString_utf8 (hd [] (coming_reads w)),
   mkWorld (sock w) (tl (coming_reads w)) (coming_writes w)
     (trace w ++ [Read (sock w) t (readLine_result toString_utf8 (hd [] (coming_reads w)))])%list).
Proof. reflexivity. Qed.

Lemma sock_expect_ok (w : World Buffer) (codes : list Z) (t : Z) (text : string) :
  readLine_result toString_utf8 (hd [] (coming_reads w)) = Return text ->
  In (extractCode text) codes ->
  with_sock (fun sock => expect toString_utf8 sock codes t) w =
  (Return text,
   mkWorld (sock w) (tl (coming_reads w)) (coming_writes w)
     (trace w ++ [Read (sock w) t (Return text)])%list).
Proof.
  intros E Hin. unfold with_sock, expect, bind, readLine. rewrite E.
  now rewrite (accepted_existsb _ _ Hin).
Qed.

Lemma sock_expect_rejected (w : World Buffer) (codes : list Z) (t : Z) (text : string) :
  readLine_result toString_utf8 (hd [] (coming_reads w)) = Return text ->
  ~ In (extractCode text) codes ->
  with_sock (fun sock => expect toString_utf8 sock codes t) w =
  (Throw (SmtpUnexpected (extractCode text) text),
   mkWorld (sock w) (tl (coming_reads w)) (coming_writes w)
     (trace w ++ [Read (sock w) t (Return text)])%list).
Proof.
  intros E Hin. unfold with_sock, expect, bind, readLine. rewrite E.
  destruct (existsb (Z.eqb (extractCode text)) codes) eqn:Hex; [|reflexivity].
  exfalso. apply Hin. apply existsb_exists in Hex. destruct Hex as (x & Hx & Hq).
  apply Z.eqb_eq in Hq. now subst x.
Qed.

Lemma sock_expect_failed (w : World Buffer) (codes : list Z) (t : Z) (e : JsError) :
  readLine_result toString_utf8 (hd [] (coming_reads w)) = Throw e ->
  with_sock (fun sock => expect toString_utf8 sock codes t) w =
  (Throw e,
   mkWorld (sock w) (tl (coming_reads w)) (coming_writes w)
     (trace w ++ [Read (sock w) t (Throw e)])%list).
Proof.
  intros E. unfold with_sock, expect, bind, readLine. now rewrite E.
Qed.

Lemma credential_not_STARTTLS (s : string) : String.eqb (credential s) STARTTLS = false.
Proof.
  apply String.eqb_neq. intros E. apply (b64_not_STARTTLS s).
  exact (append_eq_inv _ _ _ E).
Qed.

Lemma credential_not_AUTH_LOGIN (s : string) : String.eqb (credential s) AUTH_LOGIN = false.
Proof.
  apply String.eqb_neq. intros E. apply (b64_not_AUTH_LOGIN s).
  exact (append_eq_inv _ _ _ E).
Qed.

(** What follows the greeting stays on the socket in use and starts with
    the AUTH LOGIN command. *)
Lemma after_greeting_run (net : Net Buffer) (user pass from : string)
    (recipients : list string) (params : SendEmailParams) (w : World Buffer) :
  exists c w' d,
    after_greeting toString_utf8 net user pass from recipients params w = (c, w') /\
    sock w' = sock w /\
    trace w' = (trace w ++ Write (sock w) AUTH_LOGIN (hd None (coming_writes w)) :: d)%list /\
    Forall (later_step (sock w)) d.
Proof.
  unfold after_greeting, auth_login. rewrite bind_assoc.
  unfold bind at 1. rewrite sock_write_run.
  destruct (hd None (coming_writes w)) as [e|] eqn:Hw; cbn [of_error].
  - do 2 eexists. exists []. cbn. repeat split; constructor.
  - set (m := bind _ _). set (w1 := mkWorld _ _ _ _).
    assert (H : acts (fun s => s = sock w) (later_step (sock w)) m).
    { unfold m. acts_auto; subst; unfold later_step, plain_step, payload_of;
        cbn [on_socket is_secure sends];
        repeat split; auto;
        first [exact (credential_not_STARTTLS _)|exact (credential_not_AUTH_LOGIN _)]. }
    destruct (m w1) as [c w'] eqn:E.
    destruct (H w1 _ _ eq_refl E) as (Hs & d & Ed & Fd).
    exists c, w', d. cbn in Hs, Ed. repeat split; auto.
    rewrite Ed, <- app_assoc. reflexivity.
Qed.

Lemma concluded_steps (net : Net Buffer) (c : Completion bool) (w : World Buffer) :
  exists b x,
    concluded net (c, w) = (Return b, (trace w ++ x)%list) /\
    Forall (later_step (sock w)) x /\
    (b = true -> c = Return true).
Proof.
  destruct c as [b|e]; cbn [concluded].
  - exists b. eexists. split; [reflexivity|]. split; [|congruence].
    repeat constructor.
  - exists false. eexists. split; [reflexivity|]. split; [|discriminate].
    repeat constructor.
Qed.

Lemma nth_hd_tl {A} (l : list A) (d : A) :
  hd d l = nth 0 l d /\ hd d (tl l) = nth 1 l d /\ hd d (tl (tl l)) = nth 2 l d /\
  hd d (tl (tl (tl l))) = nth 3 l d.
Proof. destruct l as [|a [|b [|c [|e l]]]]; repeat split. Qed.

Lemma later_plain (s : SocketLike) (d : list Action) :
  Forall (later_step s) d -> Forall (plain_step s) d.
Proof. intros H. eapply Forall_impl; [|exact H]. now intros a (Ha & _). Qed.

Lemma plain_step_written (s : SocketLike) (d : list Action) :
  Forall (plain_step s) d -> ~ In STARTTLS (written d).
Proof.
  induction 1 as [|a d (_ & _ & Ha) _ IH]; [intros []|].
  destruct a; cbn [written]; try exact IH.
  intros [E|H']; [|now apply IH].
  cbn [sends] in Ha. subst. rewrite String.eqb_refl in Ha. discriminate Ha.
Qed.

Lemma plain_step_secure (s : SocketLike) (d : list Action) :
  Forall (plain_step s) d -> filter is_secure d = [].
Proof.
  intros H. apply filter_none. eapply Forall_impl; [|exact H]. now intros a (_ & Ha & _).
Qed.

Lemma plain_step_socket (s : SocketLike) (d : list Action) :
  Forall (plain_step s) d -> Forall (on_socket s) d.
Proof. intros H. eapply Forall_impl; [|exact H]. now intros a (Ha & _). Qed.

(** C6. Once the greeting has reached the reply to EHLO, the STARTTLS
    command is written if and only if the port is not 465, the flag is
    enabled and the reply contains STARTTLS in any letter case.  When one
    of the three fails, the command after the reply is AUTH LOGIN on the
    socket of the connection, every step of the session is on that socket,
    and no TLS handshake is attempted.  When the three hold, the command
    after the reply is STARTTLS on the plain socket; if it is flushed and
    answered by 220, the same connection is wrapped in a TLS socket, the
    handshake is awaited on it, and when it succeeds EHLO is written again
    on the TLS socket, its reply is read and ignored whatever it is, and
    AUTH LOGIN and every later step, the release included, are on the TLS
    socket. *)
Theorem starttls_decision (penv : ProcessEnv) (net : Net Buffer) (params : SendEmailParams)
    (banner ehlo : list (Event Buffer)) (rest : list (list (Event Buffer)))
    (text : string) :
  configured penv -> parse_recipients (to params) <> [] -> connected net = None ->
  emitted net = banner :: ehlo :: rest ->
  accepted toString_utf8 [220] banner ->
  nth 0 (flushed net) None = None ->
  readLine_result toString_utf8 ehlo = Return text ->
  let port := Number (env penv "SMTP_PORT") in
  let host := env penv "SMTP_HOST" in
  let s0 := first_socket port in
  let attempted := negb (is465 port) && useStartTls_of penv && test_STARTTLS_i text in
  let t := snd (sendEmail toString_utf8 Number penv net params) in
  (In STARTTLS (written t) <-> attempted = true) /\
  (attempted = false ->
   Forall (on_socket s0) t /\ filter is_secure t = [] /\
   nth_error t 4 = Some (Write s0 AUTH_LOGIN (nth 1 (flushed net) None))) /\
  (attempted = true ->
   s0 = NetSocket /\
   nth_error t 4 = Some (Write NetSocket STARTTLS (nth 1 (flushed net) None)) /\
   forall (go ehlo2 : list (Event Buffer)) (rest' : list (list (Event Buffer)))
          (text2 : string),
     rest = go :: ehlo2 :: rest' ->
     nth 1 (flushed net) None = None ->
     accepted toString_utf8 [220] go ->
     secured net = None ->
     nth 2 (flushed net) None = None ->
     readLine_result toString_utf8 ehlo2 = Return text2 ->
     exists b g tail,
       t = ([Connect NetSocket host port None;
             Read NetSocket 10000 (Return b);
             Write NetSocket EHLO None;
             Read NetSocket 10000 (Return text);
             Write NetSocket STARTTLS None;
             Read NetSocket 10000 (Return g);
             Secure (TlsOver NetSocket) None;
             Write (TlsOver NetSocket) EHLO None;
             Read (TlsOver NetSocket) 10000 (Return text2);
             Write (TlsOver NetSocket) AUTH_LOGIN (nth 3 (flushed net) None)]
            ++ tail)%list /\
       Forall (on_socket (TlsOver NetSocket)) tail).
Proof.
  intros Hc Hr Hcon Hem (b & Rb & Cb) Hf0 Re port host s0 attempted t.
  destruct (nth_hd_tl (flushed net) None) as (N0 & N1 & N2 & N3).
  rewrite <- N0 in Hf0. rewrite <- N1, <- N2, <- N3. clear N0 N1 N2 N3.
  set (R := sendEmail toString_utf8 Number penv net params) in *.
  pose proof (eq_refl R) as Et. unfold R at 2 in Et.
  rewrite (sendEmail_connected penv net params Hc Hr Hcon) in Et.
  unfold session, try_block, greet_and_secure in Et. fold port host s0 in Et.
  unfold connected_world in Et. rewrite Hem in Et.
  rewrite !bind_assoc in Et.
  erewrite bind_ok in Et by (apply sock_expect_ok; [exact Rb|exact Cb]).
  cbn [sock coming_reads coming_writes trace hd tl app] in Et.
  rewrite bind_assoc in Et. unfold bind at 1 in Et. rewrite sock_write_run in Et.
  cbn [sock coming_reads coming_writes trace hd tl app] in Et.
  rewrite Hf0 in Et. cbn [of_error] in Et.
  rewrite bind_assoc in Et. unfold bind at 1 in Et. rewrite sock_readLine_run in Et.
  cbn [sock coming_reads coming_writes trace hd tl app] in Et. rewrite Re in Et.
  fold attempted in Et.
  set (w3 := mkWorld s0 rest (tl (flushed net))
               [Connect s0 host port None; Read s0 10000 (Return b);
                Write s0 EHLO None; Read s0 10000 (Return text)]) in Et.
  unfold t. clearbody R. clear t.
  destruct attempted eqn:Ha.
  - (* the upgrade is attempted *)
    assert (Hs0 : s0 = NetSocket).
    { unfold s0, first_socket. apply andb_true_iff in Ha. destruct Ha as [Ha _].
      apply andb_true_iff in Ha. destruct Ha as [Ha _].
      destruct (is465 port); [discriminate Ha|reflexivity]. }
    rewrite bind_assoc in Et. unfold bind at 1 in Et. rewrite sock_write_run in Et.
    cbn [sock coming_reads coming_writes trace hd tl app w3] in Et.
    set (r1 := hd None (tl (flushed net))) in *.
    set (w4 := mkWorld _ _ _ _) in Et.
    set (k := bind _ _) in Et.
    assert (Hk : acts (fun _ => True) (fun _ => True) k)
      by (unfold k; acts_auto; auto).
    assert (Hgrow : exists c w' d, (match of_error r1 with
                                    | Return a => k w4
                                    | Throw e => (Throw e, w4)
                                    end) = (c, w') /\ trace w' = (trace w4 ++ d)%list).
    { destruct r1; cbn [of_error]; [exists (Throw j), w4, []; now rewrite app_nil_r|].
      destruct (k w4) as [c w'] eqn:Ek.
      destruct (Hk _ _ _ I Ek) as (_ & d & Ed & _). now exists c, w', d. }
    destruct Hgrow as (c & w' & d & Eg & Ed).
    split; [|split; [discriminate|intros _; split; [exact Hs0|split]]].
    + split; [reflexivity|intros _].
      rewrite Et, Eg.
      destruct (concluded_steps net c w') as (b' & x & -> & _).
      cbn [snd]. rewrite Ed. unfold w4. cbn [trace].
      rewrite !written_app. cbn [written app In]. right. left. reflexivity.
    + rewrite Et, Eg.
      destruct (concluded_steps net c w') as (b' & x & -> & _).
      cbn [snd]. rewrite Ed. unfold w4. cbn [trace]. rewrite <- !app_assoc.
      rewrite <- Hs0. reflexivity.
    + intros go ehlo2 rest' text2 -> H1 (g & Rg & Cg) Hsec H2 R2.
      clear Eg. unfold r1 in *. rewrite H1 in Et. cbn [of_error] in Et.
      unfold k, tls_upgrade in Et. rewrite !bind_assoc in Et.
      erewrite bind_ok in Et by (apply sock_expect_ok; [exact Rg|exact Cg]).
      cbn [sock coming_reads coming_writes trace hd tl app w4] in Et.
      rewrite bind_assoc in Et. unfold bind at 1 in Et.
      unfold with_sock at 1, assign_sock in Et.
      cbn [sock coming_reads coming_writes trace hd tl app] in Et.
      rewrite bind_assoc in Et. unfold bind at 1 in Et.
      unfold with_sock at 1, securing, record in Et.
      cbn [sock coming_reads coming_writes trace hd tl app] in Et.
      rewrite Hsec in Et. cbn [of_error] in Et.
      rewrite bind_assoc in Et. unfold bind at 1 in Et. rewrite sock_write_run in Et.
      cbn [sock coming_reads coming_writes trace hd tl app] in Et.
      rewrite H2 in Et. cbn [of_error] in Et.
      rewrite bind_assoc in Et. unfold bind at 1 in Et. rewrite sock_readLine_run in Et.
      cbn [sock coming_reads coming_writes trace hd tl app] in Et. rewrite R2 in Et.
      unfold bind at 1 in Et. unfold ret at 1 in Et.
      set (w9 := mkWorld _ _ _ _) in Et.
      destruct (after_greeting_run net (env penv "SMTP_USER") (env penv "SMTP_PASS")
                  (env penv "SMTP_FROM") (parse_recipients (to params)) params w9)
        as (c9 & w10 & d9 & E9 & S9 & T9 & F9).
      rewrite E9 in Et. apply later_plain in F9.
      destruct (concluded_steps net c9 w10) as (b' & x & Ex & Fx & _).
      apply later_plain in Fx.
      rewrite Ex in Et. rewrite Et.
      exists b, g, (d9 ++ x)%list. cbn [snd]. rewrite T9. unfold w9.
      cbn [trace sock coming_writes].
      rewrite Hs0, H1. split.
      * rewrite <- !app_assoc. reflexivity.
      * apply Forall_app. rewrite S9 in Fx. unfold w9 in F9, Fx. cbn [sock] in F9, Fx.
        rewrite Hs0 in F9, Fx.
        split; eapply plain_step_socket; eassumption.
  - (* no upgrade *)
    unfold bind at 1 in Et. unfold ret at 1 in Et.
    destruct (after_greeting_run net (env penv "SMTP_USER") (env penv "SMTP_PASS")
                (env penv "SMTP_FROM") (parse_recipients (to params)) params w3)
      as (c & w' & d & E & Sw & T & F).
    rewrite E in Et. apply later_plain in F.
    destruct (concluded_steps net c w') as (b' & x & Ex & Fx & _).
    apply later_plain in Fx.
    rewrite Ex in Et. rewrite Et. clear Et Ex E.
    cbn [snd]. rewrite T, Sw in *. unfold w3 in *. cbn [trace sock coming_writes] in *.
    assert (Fall : Forall (plain_step s0)
                     (Write s0 AUTH_LOGIN (hd None (tl (flushed net))) :: d ++ x)).
    { constructor; [repeat split|apply Forall_app; split; assumption]. }
    rewrite <- app_assoc. cbn [app].
    split; [|split; [intros _|discriminate]].
    + split; [|discriminate]. intros Hin. exfalso.
      cbn [written] in Hin.
      destruct Hin as [Hin|[Hin|Hin]]; try discriminate Hin.
      refine (plain_step_written s0 (d ++ x) _ Hin).
      apply Forall_app; split; assumption.
    + split; [|split; [|reflexivity]].
      * repeat (constructor; [reflexivity|]).
        exact (plain_step_socket _ _ (Forall_inv_tail Fall)).
      * cbn [filter is_secure]. exact (plain_step_secure _ _ (Forall_inv_tail Fall)).
Qed.

(** ** The loop over the recipients *)

Lemma rcpt_loop_app (rs rs' : list string) (w : World Buffer) :
  rcpt_loop toString_utf8 (rs ++ rs') w =
  bind (rcpt_loop toString_utf8 rs) (fun _ => rcpt_loop toString_utf8 rs') w.
Proof.
  revert w. induction rs as [|r rs IH]; intros w; [reflexivity|].
  cbn [app rcpt_loop]. rewrite bind_assoc.
  apply bind_ext. intros _ w1. rewrite bind_assoc.
  apply bind_ext. intros _ w2. apply IH.
Qed.

Lemma bind_rcpt_loop_app {B} (rs rs' : list string) (k : unit -> M Buffer B)
    (w : World Buffer) :
  bind (rcpt_loop toString_utf8 (rs ++ rs')) k w =
  bind (rcpt_loop toString_utf8 rs)
    (fun _ => bind (rcpt_loop toString_utf8 rs') k) w.
Proof.
  rewrite <- bind_assoc. unfold bind at 1 3. now rewrite rcpt_loop_app.
Qed.

(** The loop writes RCPT TO for the recipients in order, one each, and
    stops at the first one that fails. *)
Lemma sock_expect_written (w w' : World Buffer) (codes : list Z) (t : Z)
    (c : Completion string) :
  with_sock (fun sock => expect toString_utf8 sock codes t) w = (c, w') ->
  written (trace w') = written (trace w).
Proof.
  unfold with_sock, expect, bind, readLine. intros E.
  destruct (readLine_result _ _); [destruct (negb _)|]; injection E as _ <-;
    cbn [trace]; rewrite written_app; cbn; apply app_nil_r.
Qed.

Lemma rcpt_loop_in_order (rs : list string) (w w' : World Buffer) (c : Completion unit) :
  rcpt_loop toString_utf8 rs w = (c, w') ->
  exists k,
    written (trace w') = (written (trace w) ++ map RCPT_TO (firstn k rs))%list /\
    (k <= length rs)%nat /\
    (c = Return tt -> k = length rs).
Proof.
  revert w. induction rs as [|r rs IH]; intros w E.
  - injection E as <- <-. exists 0%nat. cbn. rewrite app_nil_r. auto.
  - cbn [rcpt_loop] in E. unfold bind at 1 in E. rewrite sock_write_run in E.
    destruct (hd None (coming_writes w)) as [e|]; cbn [of_error] in E.
    + injection E as <- <-. exists 1%nat. cbn [trace firstn map length].
      rewrite written_app. split; [reflexivity|]. split; [lia|discriminate].
    + unfold bind at 1 in E.
      set (w1 := mkWorld _ _ _ _) in E.
      destruct (with_sock (fun sock => expect toString_utf8 sock [250; 251] 10000) w1)
        as [[x|e] w2] eqn:E2;
        apply sock_expect_written in E2; unfold w1 in E2; cbn [trace] in E2;
        rewrite written_app in E2; cbn [written] in E2.
      * destruct (IH w2 E) as (k & Hk & Hle & Hr).
        exists (S k). rewrite Hk, E2, <- app_assoc. cbn [firstn map length].
        split; [reflexivity|]. split; [lia|]. intros H. f_equal. now apply Hr.
      * injection E as <- <-. exists 1%nat. cbn [firstn map length].
        rewrite E2. split; [reflexivity|]. split; [lia|discriminate].
Qed.

Lemma try_block_split (net : Net Buffer) (port : option Z) (tls : bool)
    (user pass from : string) (recipients : list string) (params : SendEmailParams)
    (w : World Buffer) :
  try_block toString_utf8 net port tls user pass from recipients params w =
  bind (until_recipients toString_utf8 net port tls user pass from)
    (fun _ =>
       bind (rcpt_loop toString_utf8 recipients)
         (fun _ =>
            bind (send_data toString_utf8 net from recipients params)
              (fun _ => bind (with_sock (fun sock => write sock QUIT))
                          (fun _ => ret true)))) w.
Proof.
  unfold try_block, until_recipients, after_greeting.
  rewrite bind_assoc. apply bind_ext. intros _ w1.
  rewrite bind_assoc. apply bind_ext. intros _ w2. reflexivity.
Qed.

Lemma credential_env_not_DATA (penv : ProcessEnv) (k : string) :
  String.eqb (credential (env penv k)) DATA = false.
Proof. apply String.eqb_neq. apply credential_not_DATA. Qed.

Lemma not_sends_written (cmd : string) (d : list Action) :
  Forall (fun a => sends cmd a = false) d -> ~ In cmd (written d).
Proof.
  induction 1 as [|a d Ha _ IH]; [intros []|].
  destruct a; cbn [written]; try exact IH.
  intros [E|H']; [|now apply IH].
  cbn [sends] in Ha. subst. rewrite String.eqb_refl in Ha. discriminate Ha.
Qed.

(** Up to the loop over the recipients no DATA command is written. *)
Lemma until_recipients_no_DATA (penv : ProcessEnv) (net : Net Buffer) :
  ~ In DATA (written (trace (snd (session_until_recipients toString_utf8 Number penv net)))).
Proof.
  unfold session_until_recipients.
  set (w0 := connected_world _ _ _ _).
  destruct (until_recipients _ _ _ _ _ _ _ w0) as [c w] eqn:E.
  assert (H : acts (fun _ => True) (fun a => sends DATA a = false)
                (until_recipients toString_utf8 net (Number (env penv "SMTP_PORT"))
                   (useStartTls_of penv) (env penv "SMTP_USER") (env penv "SMTP_PASS")
                   (env penv "SMTP_FROM"))).
  { unfold until_recipients. acts_auto; auto; exact (credential_env_not_DATA _ _). }
  destruct (H _ _ _ I E) as (_ & d & Ed & Fd).
  cbn [snd]. rewrite Ed, written_app. unfold w0. cbn [connected_world trace written app].
  now apply not_sends_written.
Qed.

(** C7. RCPT TO is written for the recipients in order, one each, as far
    as the loop goes.  When the session has reached the loop, the recipients
    before [r] were accepted, and the reply to RCPT TO for [r] carries a code
    other than 250 and 251, the session stops there: the error is logged,
    QUIT is attempted, the connection is released, [sendEmail] resolves with
    [false], and no DATA command is written in the session. *)
Theorem rejected_recipient_aborts (penv : ProcessEnv) (net : Net Buffer)
    (params : SendEmailParams) (before after : list string) (r resp : string)
    (w2 w3 : World Buffer) :
  configured penv -> connected net = None ->
  parse_recipients (to params) = (before ++ r :: after)%list ->
  session_until_recipients toString_utf8 Number penv net = (Return tt, w2) ->
  rcpt_loop toString_utf8 before w2 = (Return tt, w3) ->
  hd None (coming_writes w3) = None ->
  readLine_result toString_utf8 (hd [] (coming_reads w3)) = Return resp ->
  ~ In (extractCode resp) [250; 251] ->
  let R := sendEmail toString_utf8 Number penv net params in
  fst R = Return false /\
  snd R = (trace w3 ++
           [Write (sock w3) (RCPT_TO r) None;
            Read (sock w3) 10000 (Return resp);
            LogError (SmtpUnexpected (extractCode resp) resp);
            Write (sock w3) QUIT (hd None (tl (coming_writes w3)));
            End_ (sock w3) (closed net)])%list /\
  written (snd R) =
    (written (trace w2) ++ map RCPT_TO (before ++ [r]) ++ [QUIT])%list /\
  ~ In DATA (written (snd R)) /\
  (forall (rs : list string) (w w' : World Buffer) (c : Completion unit),
     rcpt_loop toString_utf8 rs w = (c, w') ->
     exists k,
       written (trace w') = (written (trace w) ++ map RCPT_TO (firstn k rs))%list /\
       (k <= length rs)%nat /\ (c = Return tt -> k = length rs)).
Proof.
  intros Hc Hcon Hrec Hpre Hloop Hw Hread Hcode R.
  refine ((fun H => conj (proj1 H) (conj (proj1 (proj2 H)) (conj (proj1 (proj2 (proj2 H)))
            (conj (proj2 (proj2 (proj2 H))) rcpt_loop_in_order)))) _).
  assert (Hr : parse_recipients (to params) <> [])
    by (rewrite Hrec; destruct before; discriminate).
  pose proof (until_recipients_no_DATA penv net) as HnoDATA.
  rewrite Hpre in HnoDATA. cbn [snd] in HnoDATA.
  pose proof (eq_refl R) as Et. unfold R at 2 in Et.
  rewrite (sendEmail_connected penv net params Hc Hr Hcon) in Et.
  unfold session in Et. rewrite try_block_split in Et.
  unfold session_until_recipients in Hpre.
  rewrite (bind_ok _ _ _ _ _ Hpre) in Et.
  cbn beta in Et. rewrite Hrec, bind_rcpt_loop_app in Et.
  rewrite (bind_ok _ _ _ _ _ Hloop) in Et.
  cbn [rcpt_loop] in Et. rewrite !bind_assoc in Et.
  unfold bind at 1 in Et. rewrite sock_write_run, Hw in Et. cbn [of_error] in Et.
  rewrite !bind_assoc in Et.
  erewrite bind_failed in Et by (apply sock_expect_rejected; [exact Hread|exact Hcode]).
  cbn [concluded sock coming_reads coming_writes trace hd tl] in Et.
  clearbody R. subst R. cbn [fst snd].
  destruct (rcpt_loop_in_order before w2 w3 _ Hloop) as (k & Hk & Hle & Hkk).
  rewrite (Hkk eq_refl), firstn_all in Hk.
  rewrite <- !app_assoc. cbn [app].
  split; [reflexivity|]. split; [reflexivity|].
  rewrite written_app, Hk, map_app. cbn [written map app].
  rewrite <- !app_assoc. split; [reflexivity|].
  intros Hin.
  apply in_app_or in Hin. destruct Hin as [Hin|Hin]; [now apply HnoDATA|].
  apply in_app_or in Hin. destruct Hin as [Hin|[Hin|[Hin|[]]]]; try discriminate Hin.
  exact (RCPT_TO_not_DATA _ Hin).
Qed.

(** Whatever the transport does, the STARTTLS command is written only after
    a reply to EHLO that advertises it, on a port other than 465 and with
    the flag enabled. *)
Lemma starttls_only_when_offered (penv : ProcessEnv) (net : Net Buffer)
    (params : SendEmailParams) :
  let port := Number (env penv "SMTP_PORT") in
  let t := snd (sendEmail toString_utf8 Number penv net params) in
  In STARTTLS (written t) ->
  exists text,
    nth_error t 3 = Some (Read (first_socket port) 10000 (Return text)) /\
    negb (is465 port) && useStartTls_of penv && test_STARTTLS_i text = true.
Proof.
  intros port t. unfold t. clear t.
  destruct (truthy (hasSmtpEnv penv)) eqn:Hc.
  2:{ rewrite (sendEmail_not_configured penv net params); [intros []|].
      unfold configured. rewrite Hc. discriminate. }
  destruct (parse_recipients (to params)) as [|r0 rs] eqn:Hr0.
  { rewrite (sendEmail_no_recipient penv net params Hc Hr0). intros []. }
  assert (Hr : parse_recipients (to params) <> []) by (rewrite Hr0; discriminate).
  clear Hr0 r0 rs.
  destruct (connected net) as [e|] eqn:Hn.
  { rewrite (sendEmail_refused penv net params e Hc Hr Hn). intros []. }
  set (R := sendEmail toString_utf8 Number penv net params).
  pose proof (eq_refl R) as Et. unfold R at 2 in Et.
  rewrite (sendEmail_connected penv net params Hc Hr Hn) in Et.
  unfold session, try_block, greet_and_secure in Et. fold port in Et.
  set (s0 := first_socket port) in *. set (host := env penv "SMTP_HOST") in *.
  set (w0 := connected_world net s0 host port) in Et.
  rewrite !bind_assoc in Et. unfold bind at 1 in Et.
  destruct (with_sock (fun sock => expect toString_utf8 sock [220] 10000) w0)
    as [[b|e] w1] eqn:E1.
  2:{ apply sock_expect_written in E1. rewrite Et. cbn [concluded snd].
      rewrite written_app, E1. cbn. intros [H|[]]. discriminate H. }
  assert (T1 : trace w1 = [Connect s0 host port None; Read s0 10000 (Return b)] /\
               sock w1 = s0 /\ coming_writes w1 = flushed net /\
               coming_reads w1 = tl (emitted net)).
  { unfold with_sock, expect, bind, readLine in E1.
    destruct (readLine_result _ _); [|discriminate E1].
    destruct (negb _); [discriminate E1|]. injection E1 as -> <-. cbn. auto. }
  destruct T1 as (T1 & S1 & W1 & R1). clear E1.
  rewrite bind_assoc in Et. unfold bind at 1 in Et. rewrite sock_write_run in Et.
  rewrite T1, S1, W1, R1 in Et. cbn [app] in Et.
  destruct (hd None (flushed net)) as [e|]; cbn [of_error] in Et.
  { rewrite Et. cbn. intros [H|[H|[]]]; discriminate H. }
  rewrite bind_assoc in Et. unfold bind at 1 in Et. rewrite sock_readLine_run in Et.
  cbn [sock coming_reads coming_writes trace app] in Et.
  destruct (readLine_result toString_utf8 (hd [] (tl (emitted net)))) as [text|e].
  2:{ rewrite Et. cbn. intros [H|[H|[]]]; discriminate H. }
  set (w3 := mkWorld _ _ _ _) in Et.
  destruct (negb (is465 port) && useStartTls_of penv && test_STARTTLS_i text) eqn:Ha.
  - intros _. exists text. split; [|exact Ha].
    set (k := bind _ _) in Et.
    assert (Hk : acts (fun _ => True) (fun _ => True) k) by (unfold k; acts_auto; auto).
    destruct (k w3) as [c w'] eqn:Ek.
    destruct (Hk _ _ _ I Ek) as (_ & d & Ed & _).
    destruct (concluded_steps net c w') as (b' & x & Ex & _).
    rewrite Et, Ex. cbn [snd]. rewrite Ed. unfold w3. cbn [trace].
    rewrite <- !app_assoc. reflexivity.
  - unfold bind at 1 in Et. unfold ret at 1 in Et.
    destruct (after_greeting_run net (env penv "SMTP_USER") (env penv "SMTP_PASS")
                (env penv "SMTP_FROM") (parse_recipients (to params)) params w3)
      as (c & w' & d & E & Sw & T & F).
    rewrite E in Et. apply later_plain in F.
    destruct (concluded_steps net c w') as (b' & x & Ex & Fx & _).
    apply later_plain in Fx. rewrite Sw in Fx.
    rewrite Et, Ex. cbn [snd]. rewrite T. unfold w3. cbn [trace sock coming_writes].
    rewrite <- app_assoc. cbn [app written]. intros Hin. exfalso.
    destruct Hin as [Hin|[Hin|Hin]]; try discriminate Hin.
    refine (plain_step_written s0 (d ++ x) _ Hin).
    apply Forall_app; split; assumption.
Qed.

(** ** The AUTH LOGIN exchange *)

Lemma sock_expect_cases (w : World Buffer) (codes : list Z) (t : Z) :
  (exists text,
     with_sock (fun sock => expect toString_utf8 sock codes t) w =
       (Return text,
        mkWorld (sock w) (tl (coming_reads w)) (coming_writes w)
          (trace w ++ [Read (sock w) t (Return text)])%list) /\
     readLine_result toString_utf8 (hd [] (coming_reads w)) = Return text /\
     In (extractCode text) codes) \/
  (exists e w',
     with_sock (fun sock => expect toString_utf8 sock codes t) w = (Throw e, w') /\
     ~ accepted toString_utf8 codes (hd [] (coming_reads w))).
Proof.
  destruct (readLine_result toString_utf8 (hd [] (coming_reads w))) as [text|e] eqn:R.
  - destruct (in_dec Z.eq_dec (extractCode text) codes) as [Hin|Hin].
    + left. exists text. split; [apply sock_expect_ok; assumption|auto].
    + right. do 2 eexists. split; [apply sock_expect_rejected; eassumption|].
      intros (text' & R' & Hin'). rewrite R in R'. injection R' as <-. now apply Hin.
  - right. do 2 eexists. split; [apply sock_expect_failed; eassumption|].
    intros (text' & R' & _). rewrite R in R'. discriminate R'.
Qed.

(** The rest of the [try] block completes only through the whole exchange:
    AUTH LOGIN answered by 334, the user name answered by 334, the password
    answered by 235, and then MAIL FROM. *)
Lemma after_greeting_completes (net : Net Buffer) (user pass from : string)
    (recipients : list string) (params : SendEmailParams) (w w' : World Buffer) (b : bool) :
  after_greeting toString_utf8 net user pass from recipients params w = (Return b, w') ->
  answers_auth toString_utf8 (coming_reads w) /\
  exists x1 x2 x3 d,
    trace w' =
      (trace w ++
       [Write (sock w) AUTH_LOGIN None; Read (sock w) 10000 (Return x1);
        Write (sock w) (credential user) None; Read (sock w) 10000 (Return x2);
        Write (sock w) (credential pass) None; Read (sock w) 10000 (Return x3);
        Write (sock w) (MAIL_FROM from) None] ++ d)%list /\
    extractCode x1 = 334 /\ extractCode x2 = 334 /\ extractCode x3 = 235.
Proof.
  intros E. unfold after_greeting, auth_login, mail_from in E.
  assert (Hcode : forall x n, In (extractCode x) [n] -> extractCode x = n)
    by (intros x n [H|[]]; now symmetry).
  destruct (nth_hd_tl (coming_reads w) []) as (N0 & N1 & N2 & _).
  unfold answers_auth. rewrite <- N0, <- N1, <- N2. clear N0 N1 N2.
  (* AUTH LOGIN *)
  rewrite !bind_assoc in E. unfold bind at 1 in E. rewrite sock_write_run in E.
  destruct (hd None (coming_writes w)) as [e|]; cbn [of_error] in E; [discriminate E|].
  rewrite !bind_assoc in E. unfold bind at 1 in E.
  match type of E with context [with_sock _ ?w1] =>
    destruct (sock_expect_cases w1 [334] 10000) as [(x1 & E1 & R1 & C1)|(e & w1' & E1 & _)] end;
    rewrite E1 in E; [|discriminate E].
  cbn [sock coming_reads coming_writes trace hd tl] in *.
  (* the user name *)
  rewrite !bind_assoc in E. unfold bind at 1 in E. rewrite sock_write_run in E.
  cbn [sock coming_reads coming_writes trace hd tl] in E.
  destruct (hd None (tl (coming_writes w))) as [e|]; cbn [of_error] in E; [discriminate E|].
  rewrite !bind_assoc in E. unfold bind at 1 in E.
  match type of E with context [with_sock _ ?w1] =>
    destruct (sock_expect_cases w1 [334] 10000) as [(x2 & E2 & R2 & C2)|(e & w2' & E2 & _)] end;
    rewrite E2 in E; [|discriminate E].
  cbn [sock coming_reads coming_writes trace hd tl] in *.
  (* the password *)
  rewrite !bind_assoc in E. unfold bind at 1 in E. rewrite sock_write_run in E.
  cbn [sock coming_reads coming_writes trace hd tl] in E.
  destruct (hd None (tl (tl (coming_writes w)))) as [e|]; cbn [of_error] in E;
    [discriminate E|].
  rewrite !bind_assoc in E. unfold bind at 1 in E.
  match type of E with context [with_sock _ ?w1] =>
    destruct (sock_expect_cases w1 [235] 10000) as [(x3 & E3 & R3 & C3)|(e & w3' & E3 & _)] end;
    rewrite E3 in E; [|discriminate E].
  cbn [sock coming_reads coming_writes trace hd tl] in *.
  (* MAIL FROM *)
  unfold bind at 1 in E. unfold ret at 1 in E.
  rewrite !bind_assoc in E. unfold bind at 1 in E. rewrite sock_write_run in E.
  cbn [sock coming_reads coming_writes trace hd tl] in E.
  destruct (hd None (tl (tl (tl (coming_writes w))))) as [e|]; cbn [of_error] in E;
    [discriminate E|].
  set (k := bind _ _) in E. set (w7 := mkWorld _ _ _ _) in E.
  assert (Hk : acts (fun _ => True) (fun _ => True) k) by (unfold k; acts_auto; auto).
  destruct (Hk _ _ _ I E) as (_ & d & Ed & _).
  split; [repeat split; eexists; eauto|].
  exists x1, x2, x3, d. rewrite Ed. unfold w7. cbn [trace].
  split; [rewrite <- !app_assoc; reflexivity|auto].
Qed.

(** The greeting writes no AUTH LOGIN command. *)
Lemma greeting_no_AUTH_LOGIN (penv : ProcessEnv) (net : Net Buffer) :
  ~ In AUTH_LOGIN (written (trace (snd (session_greeting toString_utf8 Number penv net)))).
Proof.
  unfold session_greeting.
  set (w0 := connected_world _ _ _ _).
  destruct (greet_and_secure _ _ _ _ w0) as [c w] eqn:E.
  assert (H : acts (fun _ => True) (fun a => sends AUTH_LOGIN a = false)
                (greet_and_secure toString_utf8 net (Number (env penv "SMTP_PORT"))
                   (useStartTls_of penv))) by (acts_auto; auto).
  destruct (H _ _ _ I E) as (_ & d & Ed & Fd).
  cbn [snd]. rewrite Ed, written_app. unfold w0. cbn [connected_world trace written app].
  now apply not_sends_written.
Qed.

Lemma later_step_no_AUTH_LOGIN (s : SocketLike) (d : list Action) :
  Forall (later_step s) d -> ~ In AUTH_LOGIN (written d).
Proof.
  intros H. apply not_sends_written. eapply Forall_impl; [|exact H]. now intros a (_ & Ha).
Qed.

(** C10. Every session that passes the greeting (with or without the
    STARTTLS upgrade), whatever the reply to EHLO said, writes AUTH LOGIN
    next, and writes it exactly once in the session.  [sendEmail] resolves
    with [true] only through the whole exchange, AUTH LOGIN answered by 334,
    the base64 user name answered by 334, the base64 password answered by
    235, followed by MAIL FROM; against a server that does not give these
    three answers it resolves with [false]. *)
Theorem auth_login_unconditional (penv : ProcessEnv) (net : Net Buffer)
    (params : SendEmailParams) (w1 : World Buffer) :
  configured penv -> parse_recipients (to params) <> [] -> connected net = None ->
  session_greeting toString_utf8 Number penv net = (Return tt, w1) ->
  let R := sendEmail toString_utf8 Number penv net params in
  let s := sock w1 in
  (exists tail,
     snd R = (trace w1 ++ Write s AUTH_LOGIN (hd None (coming_writes w1)) :: tail)%list) /\
  times_sent AUTH_LOGIN (snd R) = 1%nat /\
  (exists b, fst R = Return b) /\
  (fst R = Return true ->
   answers_auth toString_utf8 (coming_reads w1) /\
   exists x1 x2 x3 tail,
     snd R =
       (trace w1 ++
        [Write s AUTH_LOGIN None; Read s 10000 (Return x1);
         Write s (credential (env penv "SMTP_USER")) None; Read s 10000 (Return x2);
         Write s (credential (env penv "SMTP_PASS")) None; Read s 10000 (Return x3);
         Write s (MAIL_FROM (env penv "SMTP_FROM")) None] ++ tail)%list /\
     extractCode x1 = 334 /\ extractCode x2 = 334 /\ extractCode x3 = 235) /\
  (~ answers_auth toString_utf8 (coming_reads w1) -> fst R = Return false).
Proof.
  intros Hc Hr Hcon Hg R s.
  pose proof (greeting_no_AUTH_LOGIN penv net) as Hno.
  rewrite Hg in Hno. cbn [snd] in Hno.
  pose proof (eq_refl R) as Et. unfold R at 2 in Et.
  rewrite (sendEmail_connected penv net params Hc Hr Hcon) in Et.
  unfold session, try_block in Et. unfold session_greeting in Hg.
  rewrite (bind_ok _ _ _ _ _ Hg) in Et.
  destruct (after_greeting_run net (env penv "SMTP_USER") (env penv "SMTP_PASS")
              (env penv "SMTP_FROM") (parse_recipients (to params)) params w1)
    as (c & w' & d & E & Sw & T & F).
  rewrite E in Et.
  destruct (concluded_steps net c w') as (b' & x & Ex & Fx & Hb).
  rewrite Ex in Et. clearbody R. subst R. cbn [fst snd]. rewrite Sw in Fx. fold s in F, Fx, T.
  assert (Htrue : b' = true ->
            answers_auth toString_utf8 (coming_reads w1) /\
            exists x1 x2 x3 tail,
              (trace w' ++ x)%list =
                (trace w1 ++
                 [Write s AUTH_LOGIN None; Read s 10000 (Return x1);
                  Write s (credential (env penv "SMTP_USER")) None; Read s 10000 (Return x2);
                  Write s (credential (env penv "SMTP_PASS")) None; Read s 10000 (Return x3);
                  Write s (MAIL_FROM (env penv "SMTP_FROM")) None] ++ tail)%list /\
              extractCode x1 = 334 /\ extractCode x2 = 334 /\ extractCode x3 = 235).
  { intros ->. rewrite (Hb eq_refl) in E.
    destruct (after_greeting_completes _ _ _ _ _ _ _ _ _ E)
      as (Ha & x1 & x2 & x3 & d' & Ed' & C1 & C2 & C3).
    split; [exact Ha|]. exists x1, x2, x3, (d' ++ x)%list.
    fold s in Ed'. rewrite Ed', <- !app_assoc. auto. }
  split; [|split; [|split; [|split]]].
  - exists (d ++ x)%list. rewrite T, <- app_assoc. reflexivity.
  - unfold times_sent. rewrite T, <- app_assoc, written_app. cbn [app written].
    rewrite count_occ_app. cbn [count_occ].
    destruct (string_dec AUTH_LOGIN AUTH_LOGIN) as [_|N]; [|now elim N].
    assert (H1 : count_occ string_dec (written (trace w1)) AUTH_LOGIN = 0%nat)
      by now apply count_occ_not_In.
    assert (H2 : count_occ string_dec (written (d ++ x)) AUTH_LOGIN = 0%nat).
    { apply count_occ_not_In. apply (later_step_no_AUTH_LOGIN s).
      apply Forall_app; split; assumption. }
    rewrite H1, H2. reflexivity.
  - now exists b'.
  - intros [= ->]. now apply Htrue.
  - intros Hn. destruct b'; [|reflexivity]. exfalso. apply Hn. now apply Htrue.
Qed.

(** ** The conversation of a call that returns true *)

Lemma follows_app (steps1 steps2 : list Step) :
  forall (s : SocketLike) (d1 d2 : list Action),
    follows s steps1 d1 -> follows (socket_after s steps1) steps2 d2 ->
    follows s (steps1 ++ steps2) (d1 ++ d2).
Proof.
  induction steps1 as [|st steps1 IH]; intros s d1 d2 H1 H2.
  - destruct d1; [exact H2|destruct steps2; contradiction H1].
  - destruct st; destruct d1 as [|a d1]; cbn [follows] in H1; try contradiction;
      destruct a; try contradiction;
      repeat match type of H1 with
             | match ?x with _ => _ end => destruct x; try contradiction
             end;
      cbn [app follows socket_after] in *; intuition auto.
Qed.

Lemma socket_after_app (steps1 steps2 : list Step) (s : SocketLike) :
  socket_after s (steps1 ++ steps2) = socket_after (socket_after s steps1) steps2.
Proof.
  revert s. induction steps1 as [|st steps1 IH]; intros s; [reflexivity|].
  destruct st; cbn [app socket_after]; apply IH.
Qed.

Lemma follows_steps (steps : list Step) :
  forall (s : SocketLike) (d : list Action),
    follows s steps d ->
    Forall (fun a => match a with
                     | Write _ _ None | Read _ _ (Return _) | Secure _ None => True
                     | _ => False
                     end) d.
Proof.
  induction steps as [|st steps IH]; intros s d H.
  - destruct d; [constructor|contradiction H].
  - destruct st; destruct d as [|a d]; cbn [follows] in H; try contradiction;
      destruct a; try contradiction;
      repeat match type of H with
             | match ?x with _ => _ end => destruct x; try contradiction
             end;
      constructor; try exact I; eapply IH; intuition eauto.
Qed.

Lemma proceeds_ret {A} (a : A) : proceeds (Buffer := Buffer) [[]] (ret a).
Proof.
  intros w a' w' [= <- <-]. exists [], []. rewrite app_nil_r. cbn. auto.
Qed.

Lemma proceeds_bind {A B} (S1 S2 : list (list Step)) (m : M Buffer A)
    (k : A -> M Buffer B) :
  proceeds S1 m -> (forall a, proceeds S2 (k a)) ->
  proceeds (flat_map (fun steps1 => map (app steps1) S2) S1) (bind m k).
Proof.
  intros Hm Hk w b w' E. unfold bind in E.
  destruct (m w) as [[a|e] w1] eqn:E1; [|discriminate E].
  destruct (Hm _ _ _ E1) as (st1 & d1 & I1 & T1 & F1 & K1).
  destruct (Hk a _ _ _ E) as (st2 & d2 & I2 & T2 & F2 & K2).
  exists (st1 ++ st2)%list, (d1 ++ d2)%list. split; [|split; [|split]].
  - apply in_flat_map. exists st1. split; [exact I1|]. now apply in_map.
  - rewrite T2, T1. now rewrite app_assoc.
  - apply follows_app; [exact F1|]. now rewrite <- K1.
  - rewrite K2, K1. now rewrite socket_after_app.
Qed.

Lemma proceeds_weaken {A} (S1 S2 : list (list Step)) (m : M Buffer A) :
  incl S1 S2 -> proceeds S1 m -> proceeds S2 m.
Proof.
  intros Hi Hm w a w' E. destruct (Hm _ _ _ E) as (st & d & I1 & H).
  exists st, d. split; [now apply Hi|exact H].
Qed.

Lemma proceeds_if {A} (S1 S2 : list (list Step)) (b : bool) (m1 m2 : M Buffer A) :
  proceeds S1 m1 -> proceeds S2 m2 -> proceeds (S1 ++ S2) (if b then m1 else m2).
Proof.
  intros H1 H2. destruct b.
  - eapply proceeds_weaken; [|exact H1]. now apply incl_appl.
  - eapply proceeds_weaken; [|exact H2]. now apply incl_appr.
Qed.

Lemma proceeds_write (data : string) :
  proceeds (Buffer := Buffer) [[Sent data]] (with_sock (fun sock => write sock data)).
Proof.
  intros w a w' E. rewrite sock_write_run in E.
  destruct (hd None (coming_writes w)); [discriminate E|].
  injection E as _ <-. exists [Sent data], [Write (sock w) data None].
  cbn. auto 6.
Qed.

Lemma proceeds_readLine :
  proceeds [[Line]] (with_sock (fun sock => readLine toString_utf8 sock 10000)).
Proof.
  intros w a w' E. rewrite sock_readLine_run in E.
  destruct (readLine_result toString_utf8 (hd [] (coming_reads w))) as [text|e];
    [|discriminate E].
  injection E as _ <-. exists [Line], [Read (sock w) 10000 (Return text)].
  cbn. auto 6.
Qed.

Lemma proceeds_expect (codes : list Z) :
  proceeds [[Got codes]] (with_sock (fun sock => expect toString_utf8 sock codes 10000)).
Proof.
  intros w a w' E.
  destruct (sock_expect_cases w codes 10000) as [(text & E' & _ & Hin)|(e & w1 & E' & _)];
    rewrite E' in E; [|discriminate E].
  injection E as _ <-. exists [Got codes], [Read (sock w) 10000 (Return text)].
  cbn. auto 7.
Qed.

Lemma proceeds_handshake {A} (S1 : list (list Step)) (net : Net Buffer) (k : M Buffer A) :
  proceeds S1 k ->
  proceeds (map (cons Handshake) S1)
    (bind (with_sock (fun sock => assign_sock (TlsOver sock)))
       (fun _ => bind (with_sock (fun sock => securing net sock)) (fun _ => k))).
Proof.
  intros Hk w a w' E.
  unfold bind at 1 2 in E. unfold with_sock at 1 2, assign_sock, securing, record in E.
  cbn [sock coming_reads coming_writes trace] in E.
  destruct (secured net) as [e|] eqn:Hs; cbn [of_error] in E; [discriminate E|].
  destruct (Hk _ _ _ E) as (st & d & I1 & T1 & F1 & K1).
  cbn [sock trace] in T1, F1, K1.
  exists (Handshake :: st), (Secure (TlsOver (sock w)) None :: d).
  split; [now apply in_map|]. split; [|split].
  - rewrite T1, <- app_assoc. reflexivity.
  - cbn [follows]. auto.
  - exact K1.
Qed.

Lemma proceeds_rcpt_loop (rs : list string) :
  proceeds [rcpt_steps rs] (rcpt_loop toString_utf8 rs).
Proof.
  induction rs as [|r rs IH]; [apply proceeds_ret|].
  cbn [rcpt_loop]. eapply proceeds_weaken;
    [|eapply proceeds_bind;
      [apply proceeds_write
      |intros _; eapply proceeds_bind; [apply proceeds_expect|intros _; exact IH]]].
  cbn. apply incl_refl.
Qed.

Ltac proceeds_auto :=
  lazymatch goal with
  | |- proceeds _ (bind (with_sock (fun s => assign_sock (TlsOver s))) _) =>
      eapply proceeds_handshake; proceeds_auto
  | |- proceeds _ (bind _ _) =>
      eapply proceeds_bind; [proceeds_auto | intros ?; proceeds_auto]
  | |- proceeds _ (ret _) => apply proceeds_ret
  | |- proceeds _ (if _ then _ else _) => eapply proceeds_if; proceeds_auto
  | |- proceeds _ (with_sock (fun s => expect _ s _ _)) => apply proceeds_expect
  | |- proceeds _ (with_sock (fun s => readLine _ s _)) => apply proceeds_readLine
  | |- proceeds _ (with_sock (fun s => write s _)) => apply proceeds_write
  | |- proceeds _ (rcpt_loop _ _) => apply proceeds_rcpt_loop
  | |- _ => idtac
  end.

Lemma try_block_proceeds (net : Net Buffer) (port : option Z) (tls : bool)
    (user pass from : string) (recipients : list string) (params : SendEmailParams) :
  proceeds
    [conversation upgraded_greeting user pass from recipients
       (payload_of net from recipients params);
     conversation plain_greeting user pass from recipients
       (payload_of net from recipients params)]
    (try_block toString_utf8 net port tls user pass from recipients params).
Proof.
  eapply proceeds_weaken; [|unfold try_block, greet_and_secure, tls_upgrade, after_greeting,
    auth_login, mail_from, send_data; cbn zeta; proceeds_auto].
  cbn. apply incl_refl.
Qed.

Lemma bind_returns {A B} (m : M Buffer A) (k : A -> M Buffer B) (w w' : World Buffer)
    (b : B) :
  bind m k w = (Return b, w') ->
  exists a w1, m w = (Return a, w1) /\ k a w1 = (Return b, w').
Proof.
  unfold bind. destruct (m w) as [[a|e] w1]; [eauto|discriminate].
Qed.

Lemma try_block_returns_true (net : Net Buffer) (port : option Z) (tls : bool)
    (user pass from : string) (recipients : list string) (params : SendEmailParams)
    (w w' : World Buffer) (b : bool) :
  try_block toString_utf8 net port tls user pass from recipients params w = (Return b, w') ->
  b = true /\
  exists w1 : World Buffer, trace w' = (trace w1 ++ [Write (sock w') QUIT None])%list /\
             exists d, trace w1 = (trace w ++ d)%list.
Proof.
  rewrite try_block_split. intros E.
  apply bind_returns in E. destruct E as (a1 & w1 & E1 & E).
  apply bind_returns in E. destruct E as (a2 & w2 & E2 & E).
  apply bind_returns in E. destruct E as (a3 & w3 & E3 & E).
  apply bind_returns in E. destruct E as (a4 & w4 & E4 & E).
  rewrite sock_write_run in E4.
  destruct (hd None (coming_writes w3)); [discriminate E4|].
  cbn [of_error] in E4. inversion E4; subst; clear E4.
  inversion E; subst; clear E. split; [reflexivity|].
  cbn [trace sock]. exists w3. split; [reflexivity|].
  assert (H : acts (fun _ => True) (fun _ => True)
                (bind (until_recipients toString_utf8 net port tls user pass from)
                   (fun _ => bind (rcpt_loop toString_utf8 recipients)
                      (fun _ => send_data toString_utf8 net from recipients params)))).
  { unfold until_recipients. acts_auto; auto. }
  assert (E' : bind (until_recipients toString_utf8 net port tls user pass from)
                 (fun _ => bind (rcpt_loop toString_utf8 recipients)
                    (fun _ => send_data toString_utf8 net from recipients params)) w
               = (Return a3, w3)).
  { unfold bind. rewrite E1, E2. exact E3. }
  destruct (H _ _ _ I E') as (_ & d & Ed & _). now exists d.
Qed.

Lemma socket_after_rcpt_steps (rs : list string) (s : SocketLike) :
  socket_after s (rcpt_steps rs) = s.
Proof. induction rs as [|r rs IH]; [reflexivity|exact IH]. Qed.

Lemma socket_after_conversation (greeting : list Step) (user pass from : string)
    (recipients : list string) (payload : string) (s : SocketLike) :
  socket_after s (conversation greeting user pass from recipients payload) =
  socket_after s greeting.
Proof.
  unfold conversation. rewrite socket_after_app. cbn [app socket_after].
  rewrite socket_after_app, socket_after_rcpt_steps. reflexivity.
Qed.

(** X1. [sendEmail] resolves with [true] exactly when what the transport saw is
    a whole conversation that went well: the banner 220, EHLO and its
    reply, with or without the upgrade (STARTTLS, 220, the handshake, EHLO
    again and its reply), then AUTH LOGIN/334, the user name/334, the
    password/235, MAIL FROM/250, RCPT TO for every recipient in order with
    250 or 251 for each, DATA/354, the message with its end marker/250 and
    QUIT, every write flushed, every reply read within ten seconds, and at
    the end the release of the socket in use. *)
Theorem true_iff_whole_conversation (penv : ProcessEnv) (net : Net Buffer)
    (params : SendEmailParams) :
  let port := Number (env penv "SMTP_PORT") in
  let s0 := first_socket port in
  let from := env penv "SMTP_FROM" in
  let recipients := parse_recipients (to params) in
  let R := sendEmail toString_utf8 Number penv net params in
  fst R = Return true <->
  exists greeting d,
    (greeting = plain_greeting \/ greeting = upgraded_greeting) /\
    snd R = (Connect s0 (env penv "SMTP_HOST") port None :: d
             ++ [End_ (socket_after s0 greeting) (closed net)])%list /\
    follows s0
      (conversation greeting (env penv "SMTP_USER") (env penv "SMTP_PASS") from
         recipients (payload_of net from recipients params)) d.
Proof.
  intros port s0 from recipients R. unfold R. clear R.
  destruct (truthy (hasSmtpEnv penv)) eqn:Hc.
  2:{ rewrite (sendEmail_not_configured penv net params)
        by (unfold configured; rewrite Hc; discriminate).
      split; [discriminate|]. intros (g & d & _ & E & _). discriminate E. }
  destruct (parse_recipients (to params)) as [|r0 rs] eqn:Hr0.
  { rewrite (sendEmail_no_recipient penv net params Hc Hr0).
    split; [discriminate|]. intros (g & d & _ & E & _). discriminate E. }
  assert (Hr : parse_recipients (to params) <> []) by (rewrite Hr0; discriminate).
  destruct (connected net) as [e|] eqn:Hn.
  { rewrite (sendEmail_refused penv net params e Hc Hr Hn).
    split; [discriminate|]. intros (g & d & _ & E & _). discriminate E. }
  rewrite (sendEmail_connected penv net params Hc Hr Hn).
  unfold session. fold port s0 from. rewrite Hr0. fold recipients.
  pose proof (try_block_proceeds net port (useStartTls_of penv) (env penv "SMTP_USER")
                (env penv "SMTP_PASS") from recipients params) as Hp.
  destruct (session_steps penv net params) as (d0 & Ed0 & _).
  unfold session in Ed0. fold port s0 from in Ed0. rewrite Hr0 in Ed0. fold recipients in Ed0.
  set (w0 := connected_world net s0 (env penv "SMTP_HOST") port) in *.
  destruct (try_block toString_utf8 net port (useStartTls_of penv) (env penv "SMTP_USER")
              (env penv "SMTP_PASS") from recipients params w0) as [[b|e] w] eqn:E.
  - destruct (try_block_returns_true _ _ _ _ _ _ _ _ _ _ _ E) as (-> & _).
    cbn [concluded fst snd]. split; [intros _|reflexivity].
    destruct (Hp _ _ _ E) as (steps & d & Hin & T & F & K).
    cbn [trace sock w0 connected_world] in T, F, K.
    destruct Hin as [<-|[<-|[]]]; rewrite socket_after_conversation in K.
    + exists upgraded_greeting, d. rewrite T, K. cbn [app]. auto.
    + exists plain_greeting, d. rewrite T, K. cbn [app]. auto.
  - cbn [concluded fst snd]. split; [discriminate|].
    intros (g & d & _ & T & F). exfalso.
    cbn [snd] in Ed0. rewrite Ed0 in T. cbn [app] in T.
    injection T as T.
    change [LogError e; Write (sock w) QUIT (hd None (coming_writes w));
            End_ (sock w) (closed net)]
      with ([LogError e; Write (sock w) QUIT (hd None (coming_writes w))]
            ++ [End_ (sock w) (closed net)])%list in T.
    rewrite app_assoc in T. apply app_inj_tail in T. destruct T as [T _].
    apply follows_steps in F. rewrite <- T in F.
    apply Forall_app in F. destruct F as [_ F].
    inversion_clear F as [|? ? F1 _]. exact F1.
Qed.


(** X3. The promise of [sendEmail] rejects exactly when the settings are
    complete, the recipient list is not empty and the connection cannot be
    established; it then rejects with the error of the connection, and
    the connection attempt is all the transport saw. *)
Theorem rejects_iff_connection_fails (penv : ProcessEnv) (net : Net Buffer)
    (params : SendEmailParams) (e : JsError) :
  let port := Number (env penv "SMTP_PORT") in
  let R := sendEmail toString_utf8 Number penv net params in
  (fst R = Throw e <->
   configured penv /\ parse_recipients (to params) <> [] /\ connected net = Some e) /\
  (fst R = Throw e ->
   snd R = [Connect (first_socket port) (env penv "SMTP_HOST") port (Some e)]).
Proof.
  intros port R. unfold R. split; [apply sendEmail_rejects_iff|].
  intros H. apply sendEmail_rejects_iff in H. destruct H as (Hc & Hr & Hn).
  now rewrite (sendEmail_refused penv net params e Hc Hr Hn).
Qed.

Lemma on_tls_nothing_secret (s : SocketLike) (d : list Action) :
  Forall (on_socket (TlsOver s)) d -> Forall nothing_secret d.
Proof.
  intros H. eapply Forall_impl; [|exact H].
  intros [] Ha; cbn in *; try exact I. subst. exact I.
Qed.

Ltac nothing_secret_steps :=
  repeat (apply Forall_cons; [first [exact I | unfold nothing_secret, In; auto 6]|]);
  try apply Forall_nil.

(** X4. Once the STARTTLS command is written, nothing but EHLO, STARTTLS and
    QUIT is ever written on the socket of the plain connection, however
    the upgrade and the rest of the session go: AUTH LOGIN, the user name,
    the password, the addresses and the message are written on the TLS
    socket or not at all. *)
Theorem no_plain_text_session_after_STARTTLS (penv : ProcessEnv) (net : Net Buffer)
    (params : SendEmailParams) :
  let t := snd (sendEmail toString_utf8 Number penv net params) in
  In STARTTLS (written t) -> Forall nothing_secret t.
Proof.
  intros t. unfold t. clear t.
  destruct (truthy (hasSmtpEnv penv)) eqn:Hc.
  2:{ rewrite (sendEmail_not_configured penv net params); [intros []|].
      unfold configured. rewrite Hc. discriminate. }
  destruct (parse_recipients (to params)) as [|r0 rs] eqn:Hr0.
  { rewrite (sendEmail_no_recipient penv net params Hc Hr0). intros []. }
  assert (Hr : parse_recipients (to params) <> []) by (rewrite Hr0; discriminate).
  clear Hr0 r0 rs.
  destruct (connected net) as [e|] eqn:Hn.
  { rewrite (sendEmail_refused penv net params e Hc Hr Hn). intros []. }
  set (R := sendEmail toString_utf8 Number penv net params).
  pose proof (eq_refl R) as Et. unfold R at 2 in Et.
  rewrite (sendEmail_connected penv net params Hc Hr Hn) in Et.
  unfold session, try_block, greet_and_secure in Et.
  set (port := Number (env penv "SMTP_PORT")) in *.
  set (s0 := first_socket port) in *. set (host := env penv "SMTP_HOST") in *.
  set (w0 := connected_world net s0 host port) in Et.
  rewrite !bind_assoc in Et. unfold bind at 1 in Et.
  destruct (with_sock (fun sock => expect toString_utf8 sock [220] 10000) w0)
    as [[b|e] w1] eqn:E1.
  2:{ apply sock_expect_written in E1. rewrite Et. cbn [concluded snd].
      rewrite written_app, E1. cbn. intros [H|[]]. discriminate H. }
  assert (T1 : trace w1 = [Connect s0 host port None; Read s0 10000 (Return b)] /\
               sock w1 = s0 /\ coming_writes w1 = flushed net /\
               coming_reads w1 = tl (emitted net)).
  { unfold with_sock, expect, bind, readLine in E1.
    destruct (readLine_result _ _); [|discriminate E1].
    destruct (negb _); [discriminate E1|]. injection E1 as -> <-. cbn. auto. }
  destruct T1 as (T1 & S1 & W1 & R1). clear E1.
  rewrite bind_assoc in Et. unfold bind at 1 in Et. rewrite sock_write_run in Et.
  rewrite T1, S1, W1, R1 in Et. cbn [app] in Et.
  destruct (hd None (flushed net)) as [e|]; cbn [of_error] in Et.
  { rewrite Et. cbn. intros [H|[H|[]]]; discriminate H. }
  rewrite bind_assoc in Et. unfold bind at 1 in Et. rewrite sock_readLine_run in Et.
  cbn [sock coming_reads coming_writes trace app] in Et.
  destruct (readLine_result toString_utf8 (hd [] (tl (emitted net)))) as [text|e].
  2:{ rewrite Et. cbn. intros [H|[H|[]]]; discriminate H. }
  set (w3 := mkWorld _ _ _ _) in Et.
  destruct (negb (is465 port) && useStartTls_of penv && test_STARTTLS_i text) eqn:Ha.
  - intros _.
    assert (Hs0 : s0 = NetSocket).
    { unfold s0, first_socket. apply andb_true_iff in Ha. destruct Ha as [Ha _].
      apply andb_true_iff in Ha. destruct Ha as [Ha _].
      destruct (is465 port); [discriminate Ha|reflexivity]. }
    rewrite bind_assoc in Et. unfold bind at 1 in Et. rewrite sock_write_run in Et.
    cbn [sock coming_reads coming_writes trace hd tl app w3] in Et.
    destruct (hd None (tl (flushed net))) as [e|]; cbn [of_error] in Et.
    { rewrite Et. cbn [concluded snd trace sock coming_writes app].
      rewrite Hs0. nothing_secret_steps. }
    unfold tls_upgrade in Et. rewrite !bind_assoc in Et. unfold bind at 1 in Et.
    set (w4 := mkWorld _ _ _ _) in Et.
    destruct (with_sock (fun sock => expect toString_utf8 sock [220] 10000) w4)
      as [[g|e] w5] eqn:E5.
    2:{ assert (T5 : exists c, trace w5 = (trace w4 ++ [Read s0 10000 c])%list /\
                               sock w5 = s0).
        { unfold with_sock, expect, bind, readLine in E5. cbn [sock w4] in E5.
          destruct (readLine_result _ _) as [x|x].
          - destruct (negb (existsb _ _)); [|discriminate E5].
            injection E5 as _ <-. cbn. eauto.
          - injection E5 as _ <-. cbn. eauto. }
        destruct T5 as (c & T5 & S5).
        rewrite Et. cbn [concluded snd]. rewrite T5, S5. unfold w4. cbn [trace app].
        rewrite Hs0. nothing_secret_steps. }
    assert (T5 : trace w5 = (trace w4 ++ [Read s0 10000 (Return g)])%list /\ sock w5 = s0).
    { unfold with_sock, expect, bind, readLine in E5. cbn [sock w4] in E5.
      destruct (readLine_result _ _) as [x|x]; [|discriminate E5].
      destruct (negb (existsb _ _)); [discriminate E5|].
      injection E5 as -> <-. cbn. auto. }
    destruct T5 as (T5 & S5). clear E5.
    rewrite bind_assoc in Et. unfold bind at 1 in Et.
    unfold with_sock at 1, assign_sock in Et. rewrite S5 in Et.
    set (w6 := mkWorld _ _ _ _) in Et.
    set (k := bind _ _) in Et.
    assert (Hk : acts (fun s => s = TlsOver s0) (on_socket (TlsOver s0)) k).
    { unfold k. acts_auto; cbn; try congruence; intros; subst; reflexivity. }
    destruct (k w6) as [c w'] eqn:Ek.
    destruct (Hk w6 c w' eq_refl Ek) as (Sw & d & Ed & Fd).
    destruct (concluded_steps net c w') as (b' & x & Ex & Fx & _).
    apply later_plain, plain_step_socket in Fx. rewrite Sw in Fx.
    rewrite Et, Ex. cbn [snd]. rewrite Ed. unfold w6. cbn [trace].
    rewrite T5. unfold w4. cbn [trace app]. rewrite <- ?app_assoc. cbn [app].
    rewrite Hs0 in *.
    nothing_secret_steps.
    apply Forall_app. split; eapply on_tls_nothing_secret; eassumption.
  - unfold bind at 1 in Et. unfold ret at 1 in Et.
    destruct (after_greeting_run net (env penv "SMTP_USER") (env penv "SMTP_PASS")
                (env penv "SMTP_FROM") (parse_recipients (to params)) params w3)
      as (c & w' & d & E & Sw & T & F).
    rewrite E in Et. apply later_plain in F.
    destruct (concluded_steps net c w') as (b' & x & Ex & Fx & _).
    apply later_plain in Fx. rewrite Sw in Fx.
    rewrite Et, Ex. cbn [snd]. rewrite T. unfold w3. cbn [trace sock coming_writes].
    rewrite <- app_assoc. cbn [app written]. intros Hin. exfalso.
    destruct Hin as [Hin|[Hin|Hin]]; try discriminate Hin.
    refine (plain_step_written s0 (d ++ x) _ Hin).
    apply Forall_app; split; assumption.
Qed.

Lemma rcpt_loop_waits (rs : list string) :
  acts (fun _ => True) waits_ten_seconds (rcpt_loop toString_utf8 rs).
Proof.
  induction rs as [|r rs IH]; cbn [rcpt_loop]; [apply acts_ret|].
  apply acts_bind; [|intros _; apply acts_bind; [|intros _; exact IH]].
  - apply acts_with_sock. intros s _. apply acts_write. intros ?. exact I.
  - apply acts_with_sock. intros s _. apply acts_expect. intros ?. reflexivity.
Qed.

(** X5. Every reply of the server is awaited with the timeout of ten seconds,
    in every call and on every path: the banner, the replies to EHLO, the
    replies checked by [expect] with its default timeout, and the reply
    to EHLO after the upgrade. *)
Theorem every_reply_is_awaited_ten_seconds (penv : ProcessEnv) (net : Net Buffer)
    (params : SendEmailParams) :
  Forall waits_ten_seconds (snd (sendEmail toString_utf8 Number penv net params)).
Proof.
  destruct (truthy (hasSmtpEnv penv)) eqn:Hc.
  2:{ rewrite (sendEmail_not_configured penv net params); [repeat constructor|].
      unfold configured. rewrite Hc. discriminate. }
  destruct (parse_recipients (to params)) as [|r0 rs] eqn:Hr0.
  { rewrite (sendEmail_no_recipient penv net params Hc Hr0). constructor. }
  assert (Hr : parse_recipients (to params) <> []) by (rewrite Hr0; discriminate).
  clear Hr0 r0 rs.
  destruct (connected net) as [e|] eqn:Hn.
  { rewrite (sendEmail_refused penv net params e Hc Hr Hn). repeat constructor. }
  rewrite (sendEmail_connected penv net params Hc Hr Hn). unfold session.
  destruct (try_block _ _ _ _ _ _ _ _ _ _) as [c w] eqn:E.
  rewrite try_block_split in E.
  match type of E with
  | ?m _ = _ => assert (H : acts (fun _ => True) waits_ten_seconds m)
  end.
  { apply acts_bind; [unfold until_recipients; acts_auto; cbn; auto|intros _].
    apply acts_bind; [apply rcpt_loop_waits|intros _]. acts_auto; cbn; auto. }
  destruct (H _ _ _ I E) as (_ & d & Ed & Fd).
  cbn [trace connected_world] in Ed.
  destruct c as [b|e]; cbn [concluded snd]; rewrite Ed; cbn [app];
    (constructor; [exact I|]); apply Forall_app; (split; [exact Fd|]);
    repeat constructor.
Qed.
End Blocks.

(** ** Recipients and settings *)

Lemma last_char_some (c : ascii) (r : string) : exists d, last_char (String c r) = Some d.
Proof.
  revert c. induction r as [|a r IH]; intros c; [exists c; reflexivity|].
  destruct (IH a) as (d & E). exists d.
  change (last_char (String c (String a r))) with
    (match last_char (String a r) with Some d => Some d | None => Some c end).
  now rewrite E.
Qed.

Lemma last_char_cons (c a : ascii) (r : string) :
  last_char (String c (String a r)) = last_char (String a r).
Proof.
  destruct (last_char_some a r) as (d & E).
  change (last_char (String c (String a r))) with
    (match last_char (String a r) with Some d => Some d | None => Some c end).
  now rewrite E.
Qed.

Lemma trimEnd_last (s : string) : white_edge (last_char (trimEnd s)) = false.
Proof.
  induction s as [|a r IH]; [reflexivity|].
  cbn [trimEnd]. destruct (trimEnd r) as [|k ks] eqn:E.
  - destruct (is_white a) eqn:Ha; [reflexivity|]. cbn. exact Ha.
  - rewrite last_char_cons. exact IH.
Qed.

Lemma trimEnd_fixed (s : string) : white_edge (last_char s) = false -> trimEnd s = s.
Proof.
  induction s as [|a r IH]; [reflexivity|].
  destruct r as [|b r].
  - cbn. intros ->. reflexivity.
  - rewrite last_char_cons. intros H. specialize (IH H).
    change (trimEnd (String a (String b r))) with
      (match trimEnd (String b r) with
       | "" => if is_white a then "" else String a ""
       | kept => String a kept
       end).
    rewrite IH. reflexivity.
Qed.

Lemma trimStart_fixed (s : string) : white_edge (first_char s) = false -> trimStart s = s.
Proof. destruct s as [|a r]; [reflexivity|]. cbn. intros ->. reflexivity. Qed.

Lemma trimStart_first (s : string) : white_edge (first_char (trimStart s)) = false.
Proof.
  induction s as [|a r IH]; [reflexivity|]. cbn [trimStart].
  destruct (is_white a) eqn:Ha; [exact IH|]. cbn. exact Ha.
Qed.

Lemma trimEnd_first (s : string) :
  white_edge (first_char s) = false -> white_edge (first_char (trimEnd s)) = false.
Proof.
  destruct s as [|a r]; [reflexivity|]. cbn [trimEnd first_char white_edge].
  intros Ha. destruct (trimEnd r); [rewrite Ha|]; cbn; exact Ha.
Qed.

Lemma trim_edges (s : string) :
  white_edge (first_char (trim s)) = false /\ white_edge (last_char (trim s)) = false.
Proof.
  unfold trim. split; [apply trimEnd_first, trimStart_first|apply trimEnd_last].
Qed.

Lemma trim_fixed (s : string) :
  white_edge (first_char s) = false -> white_edge (last_char s) = false -> trim s = s.
Proof. intros H1 H2. unfold trim. rewrite (trimStart_fixed s H1). now apply trimEnd_fixed. Qed.

Lemma trim_idempotent (s : string) : trim (trim s) = trim s.
Proof. destruct (trim_edges s). now apply trim_fixed. Qed.

Lemma trimStart_keeps (p : ascii -> bool) (s : string) :
  forallb p (list_ascii_of_string s) = true ->
  forallb p (list_ascii_of_string (trimStart s)) = true.
Proof.
  induction s as [|a r IH]; [reflexivity|]. cbn [trimStart].
  destruct (is_white a); [|trivial].
  cbn [list_ascii_of_string forallb]. intros H. apply andb_true_iff in H. now apply IH.
Qed.

Lemma trimEnd_keeps (p : ascii -> bool) (s : string) :
  forallb p (list_ascii_of_string s) = true ->
  forallb p (list_ascii_of_string (trimEnd s)) = true.
Proof.
  induction s as [|a r IH]; [reflexivity|]. cbn [trimEnd list_ascii_of_string forallb].
  intros H. apply andb_true_iff in H. destruct H as [Ha Hr]. specialize (IH Hr).
  destruct (trimEnd r) as [|k ks].
  - destruct (is_white a); [reflexivity|]. cbn. now rewrite Ha.
  - cbn [list_ascii_of_string forallb] in *. now rewrite Ha.
Qed.

Lemma trim_keeps (p : ascii -> bool) (s : string) :
  forallb p (list_ascii_of_string s) = true ->
  forallb p (list_ascii_of_string (trim s)) = true.
Proof. intros H. unfold trim. now apply trimEnd_keeps, trimStart_keeps. Qed.

Lemma split_by_pieces (sep : ascii -> bool) (s : string) :
  Forall (fun p => forallb (fun c => negb (sep c)) (list_ascii_of_string p) = true)
    (split_by sep s).
Proof.
  induction s as [|c r IH]; [repeat constructor|].
  cbn [split_by]. destruct (sep c) eqn:Hc.
  - constructor; [reflexivity|exact IH].
  - destruct (split_by sep r) as [|p ps].
    + repeat constructor. cbn. now rewrite Hc.
    + inversion IH; subst. constructor; [|assumption].
      cbn [list_ascii_of_string forallb]. rewrite Hc. assumption.
Qed.

Lemma split_by_whole (sep : ascii -> bool) (s : string) :
  forallb (fun c => negb (sep c)) (list_ascii_of_string s) = true -> split_by sep s = [s].
Proof.
  induction s as [|c r IH]; [reflexivity|].
  cbn [list_ascii_of_string forallb split_by]. intros H.
  apply andb_true_iff in H. destruct H as [Hc Hr].
  apply negb_true_iff in Hc. rewrite Hc, (IH Hr). reflexivity.
Qed.

Lemma split_by_app (sep : ascii -> bool) (a : string) (c : ascii) (b : string) :
  forallb (fun c => negb (sep c)) (list_ascii_of_string a) = true -> sep c = true ->
  split_by sep (a ++ String c b) = a :: split_by sep b.
Proof.
  intros Ha Hc. induction a as [|x a IH].
  - cbn. now rewrite Hc.
  - cbn [list_ascii_of_string forallb] in Ha. apply andb_true_iff in Ha.
    destruct Ha as [Hx Ha]. apply negb_true_iff in Hx.
    change (String x a ++ String c b)%string with (String x (a ++ String c b)).
    cbn [split_by]. rewrite Hx, (IH Ha). reflexivity.
Qed.

Lemma tidy_parts (r : string) :
  tidy r = true ->
  truthy r = true /\ no_comma r = true /\ white_edge (first_char r) = false /\
  white_edge (last_char r) = false.
Proof.
  unfold tidy. intros H.
  apply andb_true_iff in H. destruct H as [H H4].
  apply andb_true_iff in H. destruct H as [H H3].
  apply andb_true_iff in H. destruct H as [H1 H2].
  apply negb_true_iff in H3, H4. auto.
Qed.

Lemma parse_recipients_all_tidy (to : string) :
  Forall (fun r => tidy r = true) (parse_recipients to).
Proof.
  unfold parse_recipients, split.
  pose proof (split_by_pieces (Ascii.eqb ",") to) as H.
  induction H as [|p ps Hp Hps IH]; [constructor|].
  cbn [map filter]. destruct (truthy (trim p)) eqn:Ht; [|exact IH].
  constructor; [|exact IH].
  unfold tidy. rewrite Ht. destruct (trim_edges p) as [-> ->].
  unfold no_comma. rewrite (trim_keeps _ p Hp). reflexivity.
Qed.

Lemma split_join_tidy (rs : list string) :
  Forall (fun r => tidy r = true) rs -> split "," (join ", " rs) = spaced rs.
Proof.
  unfold split, join. induction 1 as [|r rest Hr Hrest IH]; [reflexivity|].
  destruct (tidy_parts r Hr) as (_ & Hc & _).
  destruct rest as [|r2 rest].
  - cbn [String.concat spaced map]. now apply split_by_whole.
  - change (String.concat ", " (r :: r2 :: rest))
      with (r ++ String "," (String " " (String.concat ", " (r2 :: rest)))).
    rewrite split_by_app; [|exact Hc|reflexivity].
    cbn [split_by]. change (Ascii.eqb "," " ") with false. cbv iota.
    rewrite IH. reflexivity.
Qed.

Lemma trim_tidy (r : string) : tidy r = true -> trim r = r.
Proof. intros H. destruct (tidy_parts r H) as (_ & _ & H1 & H2). now apply trim_fixed. Qed.

Lemma trim_spaced (r : string) : trim (String " " r) = trim r.
Proof. reflexivity. Qed.

Lemma parse_join_tidy (rs : list string) :
  Forall (fun r => tidy r = true) rs -> parse_recipients (join ", " rs) = rs.
Proof.
  intros H. unfold parse_recipients. rewrite (split_join_tidy rs H).
  destruct H as [|r rest Hr Hrest]; [reflexivity|].
  cbn [spaced map filter]. rewrite (trim_tidy r Hr).
  destruct (tidy_parts r Hr) as (-> & _). f_equal.
  induction Hrest as [|x l Hx Hl IH]; [reflexivity|].
  cbn [map filter]. rewrite trim_spaced, (trim_tidy x Hx).
  destruct (tidy_parts x Hx) as (-> & _). now f_equal.
Qed.

(** X6. Every recipient that [sendEmail] addresses is a text that is not
    empty, has no comma, neither starts nor ends with white space, and is
    what is left of a piece of [params.to] between two commas once the
    white space around it is removed. *)
Theorem recipients_are_tidy (to : string) :
  Forall (fun r =>
            r <> "" /\ no_comma r = true /\
            white_edge (first_char r) = false /\ white_edge (last_char r) = false /\
            trim r = r /\ In r (map trim (split "," to)))
    (parse_recipients to).
Proof.
  pose proof (parse_recipients_all_tidy to) as H.
  rewrite Forall_forall in *. intros r Hr.
  destruct (tidy_parts r (H r Hr)) as (H1 & H2 & H3 & H4).
  split; [intros ->; discriminate H1|]. split; [exact H2|]. split; [exact H3|].
  split; [exact H4|]. split; [now apply trim_fixed|].
  unfold parse_recipients in Hr. apply filter_In in Hr. exact (proj1 Hr).
Qed.

(** X7. The To header that [sendEmail] writes names the recipients it
    addresses: parsed the way [params.to] is, it gives them back. *)
Theorem recipients_round_trip (to : string) :
  parse_recipients (join ", " (parse_recipients to)) = parse_recipients to.
Proof. apply parse_join_tidy, parse_recipients_all_tidy. Qed.

(** X8. The client is configured exactly when each of the five settings
    SMTP_HOST, SMTP_PORT, SMTP_USER, SMTP_PASS and SMTP_FROM is present
    and is not empty once the white space around it is removed. *)
Theorem hasSmtpEnv_iff (penv : ProcessEnv) :
  truthy (hasSmtpEnv penv) = true <->
  Forall (fun k => env penv k <> "") required_settings.
Proof.
  unfold hasSmtpEnv, js_and, required_settings. split.
  - intros H.
    destruct (env penv "SMTP_HOST") eqn:E1; [discriminate H|].
    destruct (env penv "SMTP_PORT") eqn:E2; [discriminate H|].
    destruct (env penv "SMTP_USER") eqn:E3; [discriminate H|].
    destruct (env penv "SMTP_PASS") eqn:E4; [discriminate H|].
    destruct (env penv "SMTP_FROM") eqn:E5; [discriminate H|].
    repeat constructor; congruence.
  - intros H.
    inversion_clear H as [|? ? H1 Ha]. inversion_clear Ha as [|? ? H2 Hb].
    inversion_clear Hb as [|? ? H3 Hc]. inversion_clear Hc as [|? ? H4 Hd].
    inversion_clear Hd as [|? ? H5 _].
    destruct (env penv "SMTP_HOST"); [congruence|].
    destruct (env penv "SMTP_PORT"); [congruence|].
    destruct (env penv "SMTP_USER"); [congruence|].
    destruct (env penv "SMTP_PASS"); [congruence|].
    destruct (env penv "SMTP_FROM"); [congruence|]. reflexivity.
Qed.

(** ** The texts of the credentials *)

Lemma b64_char_of_nat (n : nat) :
  (n < 64)%nat ->
  index_of (b64_char (N.of_nat n)) b64_alphabet = N.of_nat n /\
  is_b64_symbol (b64_char (N.of_nat n)) = true.
Proof.
  intros H. do 64 (destruct n as [|n]; [split; vm_compute; reflexivity|]). lia.
Qed.

Lemma b64_char_inj (i j : N) :
  (i < 64)%N -> (j < 64)%N -> b64_char i = b64_char j -> i = j.
Proof.
  intros Hi Hj E.
  rewrite <- (N2Nat.id i), <- (N2Nat.id j) in E |- *.
  destruct (b64_char_of_nat (N.to_nat i)) as [Ei _]; [lia|].
  destruct (b64_char_of_nat (N.to_nat j)) as [Ej _]; [lia|].
  rewrite <- Ei, <- Ej at 1. now rewrite E.
Qed.

Lemma b64_char_not_pad (i : N) : (i < 64)%N -> b64_char i <> "="%char.
Proof.
  intros Hi E. rewrite <- (N2Nat.id i) in E.
  destruct (b64_char_of_nat (N.to_nat i)) as [Ei _]; [lia|].
  rewrite E in Ei. vm_compute in Ei.
  assert (N.of_nat (N.to_nat i) = 64%N) by (symmetry; exact Ei). lia.
Qed.

Lemma b64_char_symbol (i : N) : is_b64_symbol (b64_char i) = true.
Proof.
  destruct (N.ltb_spec i 64) as [Hi|Hi].
  - rewrite <- (N2Nat.id i). apply b64_char_of_nat. lia.
  - unfold b64_char.
    destruct (String.get (N.to_nat i) b64_alphabet) as [c|] eqn:G; [|reflexivity].
    exfalso. assert (Hn : (64 <= N.to_nat i)%nat) by lia.
    remember (N.to_nat i) as n.
    do 64 (destruct n as [|n]; [lia|]). discriminate G.
Qed.

Lemma base64_symbols (l : list N) :
  forallb is_b64_symbol (list_ascii_of_string (base64 l)) = true.
Proof.
  assert (H : forall n l', (List.length l' <= n)%nat ->
              forallb is_b64_symbol (list_ascii_of_string (base64 l')) = true).
  { induction n as [|n IH]; intros l' Hl.
    - destruct l'; [reflexivity|simpl in Hl; lia].
    - destruct l' as [|a [|b [|c r]]]; cbn [base64 list_ascii_of_string forallb];
        rewrite ?b64_char_symbol; try reflexivity.
      apply IH. simpl in Hl. lia. }
  exact (H (List.length l) l (le_n _)).
Qed.

Lemma base64_length_exact (l : list N) :
  String.length (base64 l) = (4 * ((List.length l + 2) / 3))%nat.
Proof.
  assert (H : forall n l', (List.length l' <= n)%nat ->
              String.length (base64 l') = (4 * ((List.length l' + 2) / 3))%nat).
  { induction n as [|n IH]; intros l' Hl.
    - destruct l'; [reflexivity|simpl in Hl; lia].
    - destruct l' as [|a [|b [|c r]]]; try reflexivity.
      cbn [base64 String.length List.length]. rewrite IH by (simpl in Hl; lia).
      replace (S (S (S (List.length r))) + 2)%nat with ((List.length r + 2) + 1 * 3)%nat by lia.
      rewrite Nat.div_add by discriminate. lia. }
  exact (H (List.length l) l (le_n _)).
Qed.

Lemma symbol_not_LF (c : ascii) : is_b64_symbol c = true -> Ascii.eqb c (chr 10) = false.
Proof.
  intros H. destruct (Ascii.eqb_spec c (chr 10)) as [->|]; [discriminate H|reflexivity].
Qed.

Lemma is_one_line_app (a b : string) :
  forallb (fun c => negb (Ascii.eqb c (chr 10))) (list_ascii_of_string a) = true ->
  is_one_line (a ++ b) = is_one_line b.
Proof.
  induction a as [|x a IH]; [reflexivity|].
  cbn [list_ascii_of_string forallb]. intros H. apply andb_true_iff in H.
  destruct H as [Hx Ha]. apply negb_true_iff in Hx.
  change (String x a ++ b)%string with (String x (a ++ b)).
  cbn [is_one_line]. rewrite Hx. auto.
Qed.

(** X9. What is written for a user name or a password is a text of base64
    symbols, four for every three bytes of the UTF-8 encoding, and with
    its CRLF it is one line. *)
Theorem b64_shape (s : string) :
  forallb is_b64_symbol (list_ascii_of_string (b64 s)) = true /\
  String.length (b64 s) = (4 * ((List.length (utf8 s) + 2) / 3))%nat /\
  is_one_line (credential s) = true.
Proof.
  unfold credential, b64. split; [apply base64_symbols|]. split; [apply base64_length_exact|].
  rewrite is_one_line_app; [reflexivity|].
  pose proof (base64_symbols (utf8 s)) as H.
  induction (list_ascii_of_string (base64 (utf8 s))) as [|c l IH]; [reflexivity|].
  cbn [forallb] in *. apply andb_true_iff in H. destruct H as [Hc Hl].
  rewrite (symbol_not_LF c Hc). now apply IH.
Qed.

Lemma utf8_bytes (s : string) : Forall (fun b => (b < 256)%N) (utf8 s).
Proof.
  induction s as [|c r IH]; [constructor|]. rewrite utf8_String.
  pose proof (N_ascii_bounded c) as Hc.
  assert (Hm : (N_of_ascii c mod 64 < 64)%N) by (apply N.mod_lt; discriminate).
  pose proof (N.div_mod' (N_of_ascii c) 64) as Hd.
  destruct (N.ltb_spec (N_of_ascii c) 128); repeat constructor; try exact IH; try lia.
  generalize dependent (N_of_ascii c mod 64)%N.
  generalize dependent (N_of_ascii c / 64)%N. intros. lia.
Qed.

Lemma utf8_injective (s s' : string) : utf8 s = utf8 s' -> s = s'.
Proof.
  revert s'. induction s as [|c r IH]; intros [|c' r'] E.
  - reflexivity.
  - exfalso. rewrite utf8_String in E. destruct (N_of_ascii c' <? 128)%N; discriminate E.
  - exfalso. rewrite utf8_String in E. destruct (N_of_ascii c <? 128)%N; discriminate E.
  - rewrite !utf8_String in E.
    pose proof (N.div_mod' (N_of_ascii c) 64) as Hd.
    pose proof (N.div_mod' (N_of_ascii c') 64) as Hd'.
    assert (Hm : (N_of_ascii c mod 64 < 64)%N) by (apply N.mod_lt; discriminate).
    assert (Hm' : (N_of_ascii c' mod 64 < 64)%N) by (apply N.mod_lt; discriminate).
    pose proof (N_ascii_bounded c) as Hc. pose proof (N_ascii_bounded c') as Hc'.
    assert (En : N_of_ascii c = N_of_ascii c' /\ utf8 r = utf8 r').
    { destruct (N.ltb_spec (N_of_ascii c) 128) as [H|H];
        destruct (N.ltb_spec (N_of_ascii c') 128) as [H'|H'].
      - split; congruence.
      - exfalso. assert (E1 : N_of_ascii c = (192 + N_of_ascii c' / 64)%N) by congruence.
        generalize dependent (N_of_ascii c' / 64)%N. intros. lia.
      - exfalso. assert (E1 : (192 + N_of_ascii c / 64)%N = N_of_ascii c') by congruence.
        generalize dependent (N_of_ascii c / 64)%N. intros. lia.
      - assert (E1 : (192 + N_of_ascii c / 64)%N = (192 + N_of_ascii c' / 64)%N) by congruence.
        assert (E2 : (128 + N_of_ascii c mod 64)%N = (128 + N_of_ascii c' mod 64)%N)
          by congruence.
        split; [|congruence].
        generalize dependent (N_of_ascii c mod 64)%N.
        generalize dependent (N_of_ascii c / 64)%N.
        generalize dependent (N_of_ascii c' mod 64)%N.
        generalize dependent (N_of_ascii c' / 64)%N. intros. lia. }
    destruct En as [En Er]. f_equal; [|now apply IH].
    rewrite <- (ascii_N_embedding c), <- (ascii_N_embedding c'). now rewrite En.
Qed.

Lemma quad_bounds (a b c : N) :
  (a < 256 -> b < 256 -> c < 256 ->
   a / 4 < 64 /\ (a mod 4) * 16 + b / 16 < 64 /\ (b mod 16) * 4 + c / 64 < 64 /\
   c mod 64 < 64 /\ (a mod 4) * 16 < 64 /\ (b mod 16) * 4 < 64)%N.
Proof.
  intros Ha Hb Hc.
  pose proof (N.div_mod' a 4). pose proof (N.div_mod' b 16). pose proof (N.div_mod' c 64).
  assert (a mod 4 < 4)%N by (apply N.mod_lt; discriminate).
  assert (b mod 16 < 16)%N by (apply N.mod_lt; discriminate).
  assert (c mod 64 < 64)%N by (apply N.mod_lt; discriminate).
  generalize dependent (a mod 4)%N. generalize dependent (a / 4)%N.
  generalize dependent (b mod 16)%N. generalize dependent (b / 16)%N.
  generalize dependent (c mod 64)%N. generalize dependent (c / 64)%N.
  intros. lia.
Qed.

Lemma quad_injective (a b c a' b' c' : N) :
  (a < 256 -> b < 256 -> c < 256 -> a' < 256 -> b' < 256 -> c' < 256 ->
   a / 4 = a' / 4 ->
   (a mod 4) * 16 + b / 16 = (a' mod 4) * 16 + b' / 16 ->
   (b mod 16) * 4 + c / 64 = (b' mod 16) * 4 + c' / 64 ->
   c mod 64 = c' mod 64 ->
   a = a' /\ b = b' /\ c = c')%N.
Proof.
  intros Ha Hb Hc Ha' Hb' Hc'.
  pose proof (N.div_mod' a 4). pose proof (N.div_mod' b 16). pose proof (N.div_mod' c 64).
  pose proof (N.div_mod' a' 4). pose proof (N.div_mod' b' 16). pose proof (N.div_mod' c' 64).
  assert (a mod 4 < 4)%N by (apply N.mod_lt; discriminate).
  assert (b mod 16 < 16)%N by (apply N.mod_lt; discriminate).
  assert (c mod 64 < 64)%N by (apply N.mod_lt; discriminate).
  assert (a' mod 4 < 4)%N by (apply N.mod_lt; discriminate).
  assert (b' mod 16 < 16)%N by (apply N.mod_lt; discriminate).
  assert (c' mod 64 < 64)%N by (apply N.mod_lt; discriminate).
  generalize dependent (a mod 4)%N. generalize dependent (a / 4)%N.
  generalize dependent (b mod 16)%N. generalize dependent (b / 16)%N.
  generalize dependent (c mod 64)%N. generalize dependent (c / 64)%N.
  generalize dependent (a' mod 4)%N. generalize dependent (a' / 4)%N.
  generalize dependent (b' mod 16)%N. generalize dependent (b' / 16)%N.
  generalize dependent (c' mod 64)%N. generalize dependent (c' / 64)%N.
  intros. lia.
Qed.

Lemma String_inj (a b : ascii) (r r' : string) :
  String a r = String b r' -> a = b /\ r = r'.
Proof. intros E. split; congruence. Qed.

Lemma base64_injective (l l' : list N) :
  Forall (fun b => (b < 256)%N) l -> Forall (fun b => (b < 256)%N) l' ->
  base64 l = base64 l' -> l = l'.
Proof.
  assert (H : forall n l l', (List.length l <= n)%nat ->
              Forall (fun b => (b < 256)%N) l -> Forall (fun b => (b < 256)%N) l' ->
              base64 l = base64 l' -> l = l').
  { clear l l'. induction n as [|n IH]; intros l l' Hn Hl Hl' E.
    - destruct l; [|simpl in Hn; lia]. symmetry. now apply base64_nil.
    - destruct l as [|a [|b [|c r]]].
      + symmetry. now apply base64_nil.
      + destruct l' as [|a' [|b' [|c' r']]]; cbn [base64] in E.
        * discriminate E.
        * apply String_inj in E. destruct E as [E1 E]. apply String_inj in E.
          destruct E as [E2 _].
          inversion_clear Hl as [|? ? Ha _]. inversion_clear Hl' as [|? ? Ha' _].
          destruct (quad_bounds a 0 0 Ha) as (B1 & _ & _ & _ & B2 & _); [lia..|].
          destruct (quad_bounds a' 0 0 Ha') as (B1' & _ & _ & _ & B2' & _); [lia..|].
          apply b64_char_inj in E1, E2; try assumption.
          destruct (quad_injective a 0 0 a' 0 0) as (-> & _); try lia; try reflexivity.
        * exfalso. apply String_inj in E. destruct E as [_ E]. apply String_inj in E.
          destruct E as [_ E]. apply String_inj in E. destruct E as [E _].
          inversion_clear Hl' as [|? ? Ha' Hl0]. inversion_clear Hl0 as [|? ? Hb' _].
          destruct (quad_bounds a' b' 0 Ha' Hb') as (_ & _ & _ & _ & _ & B); [lia|].
          symmetry in E. revert E. now apply b64_char_not_pad.
        * exfalso. apply String_inj in E. destruct E as [_ E]. apply String_inj in E.
          destruct E as [_ E]. apply String_inj in E. destruct E as [E _].
          inversion_clear Hl' as [|? ? Ha' Hl0]. inversion_clear Hl0 as [|? ? Hb' Hl1].
          inversion_clear Hl1 as [|? ? Hc' _].
          destruct (quad_bounds a' b' c' Ha' Hb' Hc') as (_ & _ & B & _).
          symmetry in E. revert E. now apply b64_char_not_pad.
      + inversion_clear Hl as [|? ? Ha Hl0]. inversion_clear Hl0 as [|? ? Hb _].
        destruct (quad_bounds a b 0 Ha Hb) as (B1 & B2 & _ & _ & _ & B3); [lia|].
        destruct l' as [|a' [|b' [|c' r']]]; cbn [base64] in E.
        * discriminate E.
        * exfalso. apply String_inj in E. destruct E as [_ E]. apply String_inj in E.
          destruct E as [_ E]. apply String_inj in E. destruct E as [E _].
          revert E. now apply b64_char_not_pad.
        * apply String_inj in E. destruct E as [E1 E]. apply String_inj in E.
          destruct E as [E2 E]. apply String_inj in E. destruct E as [E3 _].
          inversion_clear Hl' as [|? ? Ha' Hl0]. inversion_clear Hl0 as [|? ? Hb' _].
          destruct (quad_bounds a' b' 0 Ha' Hb') as (B1' & B2' & _ & _ & _ & B3'); [lia|].
          apply b64_char_inj in E1, E2, E3; try assumption.
          destruct (quad_injective a b 0 a' b' 0) as (-> & -> & _); try lia; try reflexivity.
        * exfalso. apply String_inj in E. destruct E as [_ E]. apply String_inj in E.
          destruct E as [_ E]. apply String_inj in E. destruct E as [_ E].
          apply String_inj in E. destruct E as [E _].
          inversion_clear Hl' as [|? ? Ha' Hl0]. inversion_clear Hl0 as [|? ? Hb' Hl1].
          inversion_clear Hl1 as [|? ? Hc' _].
          destruct (quad_bounds a' b' c' Ha' Hb' Hc') as (_ & _ & _ & B & _).
          symmetry in E. revert E. now apply b64_char_not_pad.
      + inversion_clear Hl as [|? ? Ha Hl0]. inversion_clear Hl0 as [|? ? Hb Hl1].
        inversion_clear Hl1 as [|? ? Hc Hr].
        destruct (quad_bounds a b c Ha Hb Hc) as (B1 & B2 & B3 & B4 & _).
        destruct l' as [|a' [|b' [|c' r']]]; cbn [base64] in E.
        * discriminate E.
        * exfalso. apply String_inj in E. destruct E as [_ E]. apply String_inj in E.
          destruct E as [_ E]. apply String_inj in E. destruct E as [E _].
          revert E. now apply b64_char_not_pad.
        * exfalso. apply String_inj in E. destruct E as [_ E]. apply String_inj in E.
          destruct E as [_ E]. apply String_inj in E. destruct E as [_ E].
          apply String_inj in E. destruct E as [E _].
          revert E. now apply b64_char_not_pad.
        * apply String_inj in E. destruct E as [E1 E]. apply String_inj in E.
          destruct E as [E2 E]. apply String_inj in E. destruct E as [E3 E].
          apply String_inj in E. destruct E as [E4 E].
          inversion_clear Hl' as [|? ? Ha' Hl0]. inversion_clear Hl0 as [|? ? Hb' Hl1].
          inversion_clear Hl1 as [|? ? Hc' Hr'].
          destruct (quad_bounds a' b' c' Ha' Hb' Hc') as (B1' & B2' & B3' & B4' & _).
          apply b64_char_inj in E1, E2, E3, E4; try assumption.
          destruct (quad_injective a b c a' b' c') as (-> & -> & ->); try assumption.
          do 3 f_equal. apply (IH r r'); try assumption. simpl in Hn. lia. }
  intros Hl Hl'. exact (H (List.length l) l l' (le_n _) Hl Hl').
Qed.

(** X10. Two different user names, or two different passwords, are never written
    as the same text. *)
Theorem b64_injective (s s' : string) : b64 s = b64 s' -> s = s'.
Proof.
  unfold b64. intros E. apply utf8_injective.
  apply base64_injective; [apply utf8_bytes..|exact E].
Qed.

(** ** Line endings of the message *)

Lemma crlf_wellformed_app (a b : string) :
  starts_with_LF b = false ->
  crlf_wellformed (a ++ b) = crlf_wellformed a && crlf_wellformed b.
Proof.
  intros Hb.
  assert (H : crlf_wellformed (a ++ b) = crlf_wellformed a && crlf_wellformed b /\
              forall x, crlf_wellformed (String x a ++ b) =
                        crlf_wellformed (String x a) && crlf_wellformed b).
  { induction a as [|y a [IH1 IH2]].
    - split; [reflexivity|]. intros x. cbn [append crlf_wellformed].
      destruct (Ascii.eqb x (chr 13)).
      + destruct b as [|d r']; [reflexivity|]. unfold starts_with_LF in Hb.
        rewrite Hb. reflexivity.
      + destruct (Ascii.eqb x (chr 10)); reflexivity.
    - split; [apply IH2|]. intros x.
      change (String x (String y a) ++ b)%string with (String x (String y (a ++ b))).
      cbn [crlf_wellformed]. destruct (Ascii.eqb x (chr 13)).
      + rewrite IH1. now rewrite andb_assoc.
      + destruct (Ascii.eqb x (chr 10)); [reflexivity|].
        exact (IH2 y). }
  exact (proj1 H).
Qed.

Lemma makeMime_flat (rnd from to subject html : string) :
  makeMime rnd from to subject html =
  "From: " ++ from ++ CRLF ++ "To: " ++ to ++ CRLF ++ "Subject: " ++ subject ++ CRLF
  ++ "MIME-Version: 1.0" ++ CRLF
  ++ "Content-Type: multipart/alternative; boundary=" ++ quote ++ "----wm" ++ rnd
  ++ quote ++ CRLF ++ CRLF
  ++ "------wm" ++ rnd ++ CRLF
  ++ "Content-Type: text/html; charset=utf-8" ++ CRLF
  ++ "Content-Transfer-Encoding: 7bit" ++ CRLF ++ CRLF
  ++ html ++ CRLF
  ++ "------wm" ++ rnd ++ "--" ++ CRLF.
Proof.
  unfold makeMime, join. cbn [String.concat]. unfold quote, CRLF, LF.
  repeat rewrite <- append_assoc; cbn [append];
    repeat (f_equal; repeat rewrite <- append_assoc; cbn [append]); reflexivity.
Qed.

Lemma crlf_wellformed_plain (a b : string) :
  plain a = true -> crlf_wellformed (a ++ b) = crlf_wellformed b.
Proof.
  unfold plain. induction a as [|x a IH]; [reflexivity|].
  cbn [list_ascii_of_string forallb]. intros H. apply andb_true_iff in H.
  destruct H as [Hx Ha]. apply negb_true_iff in Hx.
  unfold is_line_terminator in Hx. apply orb_false_iff in Hx. destruct Hx as [H10 H13].
  change (String x a ++ b)%string with (String x (a ++ b)).
  cbn [crlf_wellformed].
  assert (E13 : Ascii.eqb x (chr 13) = false).
  { destruct (Ascii.eqb_spec x (chr 13)) as [->|]; [discriminate H13|reflexivity]. }
  assert (E10 : Ascii.eqb x (chr 10) = false).
  { destruct (Ascii.eqb_spec x (chr 10)) as [->|]; [discriminate H10|reflexivity]. }
  rewrite E13, E10. now apply IH.
Qed.

Lemma crlf_wellformed_CRLF (b : string) :
  crlf_wellformed (CRLF ++ b) = crlf_wellformed b.
Proof. reflexivity. Qed.

Lemma starts_CRLF (b : string) : starts_with_LF (CRLF ++ b) = false.
Proof. reflexivity. Qed.

(** X11. The composer neither repairs nor breaks line endings: the message has
    CR and LF only in pairs exactly when that holds of the token, the
    sender, the recipients, the subject and the body it is given. *)
Theorem makeMime_line_endings (rnd from to subject html : string) :
  crlf_wellformed (makeMime rnd from to subject html) =
  crlf_wellformed rnd && crlf_wellformed from && crlf_wellformed to
  && crlf_wellformed subject && crlf_wellformed html.
Proof.
  rewrite makeMime_flat.
  rewrite (crlf_wellformed_plain "From: ") by reflexivity.
  rewrite (crlf_wellformed_app from) by apply starts_CRLF.
  rewrite crlf_wellformed_CRLF.
  rewrite (crlf_wellformed_plain "To: ") by reflexivity.
  rewrite (crlf_wellformed_app to) by apply starts_CRLF.
  rewrite crlf_wellformed_CRLF.
  rewrite (crlf_wellformed_plain "Subject: ") by reflexivity.
  rewrite (crlf_wellformed_app subject) by apply starts_CRLF.
  rewrite crlf_wellformed_CRLF.
  rewrite (crlf_wellformed_plain "MIME-Version: 1.0") by reflexivity.
  rewrite crlf_wellformed_CRLF.
  rewrite (crlf_wellformed_plain "Content-Type: multipart/alternative; boundary=")
    by reflexivity.
  rewrite (crlf_wellformed_plain quote) by reflexivity.
  rewrite (crlf_wellformed_plain "----wm") by reflexivity.
  rewrite (crlf_wellformed_app rnd) by reflexivity.
  rewrite (crlf_wellformed_plain quote) by reflexivity.
  rewrite !crlf_wellformed_CRLF.
  rewrite (crlf_wellformed_plain "------wm") by reflexivity.
  rewrite (crlf_wellformed_app rnd) by apply starts_CRLF.
  rewrite crlf_wellformed_CRLF.
  rewrite (crlf_wellformed_plain "Content-Type: text/html; charset=utf-8") by reflexivity.
  rewrite crlf_wellformed_CRLF.
  rewrite (crlf_wellformed_plain "Content-Transfer-Encoding: 7bit") by reflexivity.
  rewrite !crlf_wellformed_CRLF.
  rewrite (crlf_wellformed_app html) by apply starts_CRLF.
  rewrite crlf_wellformed_CRLF.
  rewrite (crlf_wellformed_plain "------wm") by reflexivity.
  rewrite (crlf_wellformed_app rnd) by reflexivity.
  rewrite (crlf_wellformed_plain "--") by reflexivity.
  change (crlf_wellformed CRLF) with true.
  destruct (crlf_wellformed rnd), (crlf_wellformed from), (crlf_wellformed to),
    (crlf_wellformed subject), (crlf_wellformed html); reflexivity.
Qed.

(** ** The alerts controller *)

Section Handler.

Import Alerts.
Import QArith_base.
Local Open Scope string_scope.
Local Open Scope Z_scope.

Variable show : JsNumber -> string.
Variable getTime : Json -> option Z.
Variable render : string -> list AlertRow -> Z -> string.
Variable send : SendEmailParams -> Completion bool * list Action.
Variable db : Db.

Lemma subseq_nil_l {A} (t : list A) : subseq [] t.
Proof. induction t; constructor; assumption. Qed.

Lemma subseq_app {A} (l1 t1 l2 t2 : list A) :
  subseq l1 t1 -> subseq l2 t2 -> subseq (l1 ++ l2) (t1 ++ t2).
Proof.
  intros H1 H2. induction H1; cbn [app]; try (constructor; assumption). exact H2.
Qed.

Lemma subseq_In {A} (l t : list A) (x : A) : subseq l t -> In x l -> In x t.
Proof.
  induction 1 as [|y l t _ IH|y l t _ IH]; cbn; [tauto|auto|].
  intros [E|Hx]; auto.
Qed.

Lemma subseq_NoDup {A} (l t : list A) : subseq l t -> NoDup t -> NoDup l.
Proof.
  induction 1 as [|y l t Hs IH|y l t Hs IH]; intros Hn.
  - constructor.
  - inversion_clear Hn. auto.
  - inversion_clear Hn as [|? ? Hy Ht]. constructor; [|auto].
    intros Hin. apply Hy. eapply subseq_In; eassumption.
Qed.

Lemma subseq_length {A} (l t : list A) : subseq l t -> (length l <= length t)%nat.
Proof. induction 1; cbn; lia. Qed.

Lemma insertions_app (a b : list Effect) :
  insertions (a ++ b) = (insertions a ++ insertions b)%list.
Proof.
  induction a as [|e a IH]; [reflexivity|].
  destruct e; cbn [app insertions]; rewrite ?IH; reflexivity.
Qed.

Lemma rows_app (a b : list Effect) : rows (a ++ b) = (rows a ++ rows b)%list.
Proof.
  induction a as [|e a IH]; [reflexivity|].
  destruct e as [| |x [[i t]|f]| | |]; cbn [app rows]; rewrite ?IH; reflexivity.
Qed.

Lemma adds_ret {A} (types : list string) (P : Effect -> Prop) (a : A) :
  adds types P (ret a).
Proof.
  intros st o st' [= <- <-]. exists []. rewrite !app_nil_r.
  repeat split; [constructor|apply subseq_nil_l].
Qed.

Lemma adds_bind {A B} (t1 t2 : list string) (P : Effect -> Prop) (m : H A)
    (k : A -> H B) :
  adds t1 P m -> (forall a, adds t2 P (k a)) -> adds (t1 ++ t2) P (bind m k).
Proof.
  intros Hm Hk st o st' E. unfold bind in E.
  destruct (m st) as [[a|f] st1] eqn:E1.
  - destruct (Hm _ _ _ E1) as (d1 & T1 & C1 & F1 & S1).
    destruct (Hk a _ _ _ E) as (d2 & T2 & C2 & F2 & S2).
    exists (d1 ++ d2)%list. rewrite T2, T1, C2, C1, rows_app, insertions_app, map_app.
    rewrite <- !app_assoc. repeat split; [now apply Forall_app|now apply subseq_app].
  - injection E as <- <-. destruct (Hm _ _ _ E1) as (d1 & T1 & C1 & F1 & S1).
    exists d1. repeat split; try assumption.
    rewrite <- (app_nil_r (map _ _)). apply subseq_app; [exact S1|apply subseq_nil_l].
Qed.

Lemma alert_unless_cooldown_run (deviceId : string) (cooldown : Z) (a : AlertParams)
    (st : Request) :
  alert_unless_cooldown db deviceId cooldown a st =
  let asked := SelectLastAlert deviceId (alert_type a) in
  match last_alert db (alert_type a) with
  | Failed f => (Failed f, mkRequest (created st) (effects st ++ [asked]))
  | Done _ =>
      if cooling db (alert_type a) cooldown
      then (Done tt, mkRequest (created st) (effects st ++ [asked]))
      else
        match returning db a with
        | Done (i, t) =>
            (Done tt,
             mkRequest (created st ++ [{| id := i; created_at := t; inserted := a |}])
               (effects st ++ [asked; InsertAlert a (Done (i, t))]))
        | Failed f =>
            (Failed f,
             mkRequest (created st) (effects st ++ [asked; InsertAlert a (Failed f)]))
        end
  end.
Proof.
  unfold alert_unless_cooldown, shouldCooldown, bind, query, createAlert, push, ret, cooling.
  destruct (last_alert db (alert_type a)) as [[last|]|f]; cbn; [|..].
  - destruct (now_for db (alert_type a) - last <? cooldown * 60 * 1000); cbn;
      [reflexivity|].
    destruct (returning db a) as [[i t]|f]; cbn; rewrite <- app_assoc; reflexivity.
  - destruct (returning db a) as [[i t]|f]; cbn; rewrite <- app_assoc; reflexivity.
  - reflexivity.
Qed.

Lemma adds_alert (P : Effect -> Prop) (deviceId : string) (cooldown : Z)
    (a : AlertParams) :
  P (SelectLastAlert deviceId (alert_type a)) ->
  (cooling db (alert_type a) cooldown = false -> P (InsertAlert a (returning db a))) ->
  adds [alert_type a] P (alert_unless_cooldown db deviceId cooldown a).
Proof.
  intros Hq Hi st o st' E. rewrite alert_unless_cooldown_run in E. cbv zeta in E.
  assert (Hskip : exists d,
             (effects st ++ [SelectLastAlert deviceId (alert_type a)] = effects st ++ d)%list /\
             created st = (created st ++ rows d)%list /\
             Forall P d /\ subseq (map alert_type (insertions d)) [alert_type a]).
  { exists [SelectLastAlert deviceId (alert_type a)]. cbn. rewrite app_nil_r.
    split; [reflexivity|]. split; [reflexivity|].
    split; [repeat constructor; exact Hq|apply subseq_nil_l]. }
  destruct (last_alert db (alert_type a)) as [x|f]; [|injection E as <- <-; exact Hskip].
  destruct (cooling db (alert_type a) cooldown); [injection E as <- <-; exact Hskip|].
  specialize (Hi eq_refl).
  destruct (returning db a) as [[i t]|f]; injection E as <- <-.
  - exists [SelectLastAlert deviceId (alert_type a); InsertAlert a (Done (i, t))].
    split; [reflexivity|]. split; [reflexivity|].
    split; [repeat constructor; assumption|cbn; apply subseq_take, subseq_nil].
  - exists [SelectLastAlert deviceId (alert_type a); InsertAlert a (Failed f)].
    split; [reflexivity|]. split; [cbn; now rewrite app_nil_r|].
    split; [repeat constructor; assumption|cbn; apply subseq_take, subseq_nil].
Qed.

Section Checked.

Variable payload : EvaluatePayload.
Variable deviceId : string.
Variable settings : Settings.

Tactic Notation "justify" integer(n) :=
  intros Hcool; split; [reflexivity|]; split; [exact Hcool|];
  do n right; first [left; repeat split; assumption | repeat split; assumption].

Lemma check_no_data_adds :
  adds ["no_data"] (check_step show getTime db payload deviceId settings)
    (check_no_data show getTime db payload deviceId settings (emailTo_of settings)
       (cooldown_of settings)).
Proof.
  unfold check_no_data.
  destruct (truthy_value (createdAt payload)) eqn:Ht; [|apply adds_ret].
  destruct (getTime (createdAt payload)) as [last|] eqn:Eg; [|apply adds_ret].
  cbv zeta.
  destruct (now db - last >? or_default (no_data_minutes settings) 60 * 60 * 1000) eqn:Hd;
    [|apply adds_ret].
  apply (adds_alert _ deviceId (cooldown_of settings)
           (no_data_alert show db deviceId settings (emailTo_of settings) last)); [reflexivity|].
  intros Hcool. split; [reflexivity|]. split; [exact Hcool|]. left. exists last.
  repeat split; try assumption. apply Z.gtb_lt in Hd. lia.
Qed.

Lemma check_salinity_adds :
  adds ["salinity_high"] (check_step show getTime db payload deviceId settings)
    (check_salinity show db payload deviceId settings (emailTo_of settings)
       (cooldown_of settings)).
Proof.
  unfold check_salinity.
  destruct (isNumber (salinity payload)) eqn:H1; [|apply adds_ret].
  destruct (isNumber (salinity_high settings)) eqn:H2; [|apply adds_ret].
  destruct (gt (salinity payload) (salinity_high settings)) eqn:H3; [|apply adds_ret].
  apply (adds_alert _ deviceId (cooldown_of settings)
           (salinity_high_alert show payload deviceId settings (emailTo_of settings)));
  [reflexivity|].
  justify 1.
Qed.

Lemma check_ph_adds :
  adds ["ph_low"; "ph_high"] (check_step show getTime db payload deviceId settings)
    (check_ph show db payload deviceId settings (emailTo_of settings)
       (cooldown_of settings)).
Proof.
  unfold check_ph.
  destruct (isNumber (ph payload)) eqn:H1; [|apply adds_ret].
  apply (adds_bind ["ph_low"] ["ph_high"]); [|intros _].
  - destruct (isNumber (ph_low settings)) eqn:H2; [|apply adds_ret].
    destruct (lt (ph payload) (ph_low settings)) eqn:H3; [|apply adds_ret].
    apply (adds_alert _ deviceId (cooldown_of settings)
             (ph_low_alert show payload deviceId settings (emailTo_of settings)));
    [reflexivity|].
    justify 2.
  - destruct (isNumber (ph_high settings)) eqn:H2; [|apply adds_ret].
    destruct (gt (ph payload) (ph_high settings)) eqn:H3; [|apply adds_ret].
    apply (adds_alert _ deviceId (cooldown_of settings)
             (ph_high_alert show payload deviceId settings (emailTo_of settings)));
    [reflexivity|].
    justify 3.
Qed.

Lemma check_temperature_adds :
  adds ["temperature_low"; "temperature_high"]
    (check_step show getTime db payload deviceId settings)
    (check_temperature show db payload deviceId settings (emailTo_of settings)
       (cooldown_of settings)).
Proof.
  unfold check_temperature.
  destruct (isNumber (temperature payload)) eqn:H1; [|apply adds_ret].
  apply (adds_bind ["temperature_low"] ["temperature_high"]); [|intros _].
  - destruct (isNumber (temperature_low settings)) eqn:H2; [|apply adds_ret].
    destruct (lt (temperature payload) (temperature_low settings)) eqn:H3; [|apply adds_ret].
    apply (adds_alert _ deviceId (cooldown_of settings)
             (temperature_low_alert show payload deviceId settings (emailTo_of settings)));
    [reflexivity|].
    justify 4.
  - destruct (isNumber (temperature_high settings)) eqn:H2; [|apply adds_ret].
    destruct (gt (temperature payload) (temperature_high settings)) eqn:H3; [|apply adds_ret].
    apply (adds_alert _ deviceId (cooldown_of settings)
             (temperature_high_alert show payload deviceId settings (emailTo_of settings)));
    [reflexivity|].
    justify 5.
Qed.

Lemma check_battery_adds :
  adds ["battery_low"] (check_step show getTime db payload deviceId settings)
    (check_battery show db payload deviceId settings (emailTo_of settings)
       (cooldown_of settings)).
Proof.
  unfold check_battery.
  destruct (isNumber (battery payload)) eqn:H1; [|apply adds_ret].
  destruct (isNumber (battery_low settings)) eqn:H2; [|apply adds_ret].
  destruct (lt (battery payload) (battery_low settings)) eqn:H3; [|apply adds_ret].
  apply (adds_alert _ deviceId (cooldown_of settings)
           (battery_low_alert show payload deviceId settings (emailTo_of settings)));
  [reflexivity|].
  justify 6.
Qed.

Lemma checks_adds :
  adds kinds (check_step show getTime db payload deviceId settings)
    (checks show getTime db payload deviceId settings (emailTo_of settings)
       (cooldown_of settings)).
Proof.
  unfold checks.
  apply (adds_bind ["no_data"]
           ["salinity_high"; "ph_low"; "ph_high"; "temperature_low"; "temperature_high";
            "battery_low"]); [apply check_no_data_adds|intros _].
  apply (adds_bind ["salinity_high"]
           ["ph_low"; "ph_high"; "temperature_low"; "temperature_high"; "battery_low"]);
    [apply check_salinity_adds|intros _].
  apply (adds_bind ["ph_low"; "ph_high"]
           ["temperature_low"; "temperature_high"; "battery_low"]);
    [apply check_ph_adds|intros _].
  apply (adds_bind ["temperature_low"; "temperature_high"] ["battery_low"]);
    [apply check_temperature_adds|intros _].
  apply check_battery_adds.
Qed.

End Checked.

Lemma notify_run (deviceId emailTo : string) (cooldown : Z) (st : Request) :
  notify show render send db deviceId emailTo cooldown st =
  if negb (length (created st) =? 0)%nat && truthy emailTo then
    let p := {| to := emailTo;
                subject := email_subject show deviceId (length (created st));
                html := render deviceId (created st) cooldown |} in
    match send p with
    | (Return true, t) =>
        (marked db,
         mkRequest (created st)
           (effects st ++ [SendEmail p (Return true) t; MarkSent (map id (created st))]))
    | (Return false, t) =>
        (Done tt, mkRequest (created st) (effects st ++ [SendEmail p (Return false) t]))
    | (Throw e, t) =>
        (Failed (EmailRejected e),
         mkRequest (created st) (effects st ++ [SendEmail p (Throw e) t]))
    end
  else (Done tt, st).
Proof.
  unfold notify, bind, get_created, call_sendEmail, query, ret.
  destruct (negb (length (created st) =? 0)%nat && truthy emailTo); [|reflexivity].
  cbv zeta. destruct (send _) as [[[|]|e] t]; cbn; rewrite <- ?app_assoc; reflexivity.
Qed.

Lemma evaluation_run (payload : EvaluatePayload) (deviceId : string) (st0 : Request) :
  evaluation show getTime render send db payload deviceId st0 =
  let st := mkRequest (created st0) (effects st0 ++ [SelectSettings deviceId]) in
  match stored db with
  | Failed f => (Failed f, st)
  | Done s =>
      let settings := settings_for deviceId s in
      if disabled settings then (Done (ok_response [] settings), st)
      else
        match checks show getTime db payload deviceId settings (emailTo_of settings)
                (cooldown_of settings) st with
        | (Failed f, st1) => (Failed f, st1)
        | (Done _, st1) =>
            match notify show render send db deviceId (emailTo_of settings)
                    (cooldown_of settings) st1 with
            | (Failed f, st2) => (Failed f, st2)
            | (Done _, st2) => (Done (ok_response (created st2) settings), st2)
            end
        end
  end.
Proof.
  unfold evaluation, getSettings, query. unfold bind at 1.
  destruct (stored db) as [s|f]; [|reflexivity]. cbv zeta.
  destruct (disabled (settings_for deviceId s)); [reflexivity|].
  unfold bind at 1. destruct (checks _ _ _ _ _ _ _ _ _) as [[[]|f] st1]; [|reflexivity].
  unfold bind at 1. destruct (notify _ _ _ _ _ _ _ _) as [[[]|f] st2]; reflexivity.
Qed.

Lemma evaluateReading_run (payload : EvaluatePayload) :
  let deviceId := device_of show payload in
  let settings := settings_of db deviceId in
  let R := evaluateReading show getTime render send db payload in
  truthy deviceId = true ->
  match stored db with
  | Failed f => R = (server_error, [SelectSettings deviceId; ConsoleError f])
  | Done _ =>
      if disabled settings then R = (ok_response [] settings, [SelectSettings deviceId])
      else
        exists (o : Outcome unit) (d : list Effect),
          Forall (check_step show getTime db payload deviceId settings) d /\
          subseq (map alert_type (insertions d)) kinds /\
          let st := mkRequest (rows d) (SelectSettings deviceId :: d) in
          match o with
          | Failed f => R = (server_error, (effects st ++ [ConsoleError f])%list)
          | Done _ =>
              match notify show render send db deviceId (emailTo_of settings)
                      (cooldown_of settings) st with
              | (Done _, st') => R = (ok_response (rows d) settings, effects st')
              | (Failed f, st') => R = (server_error, (effects st' ++ [ConsoleError f])%list)
              end
          end
  end.
Proof.
  intros deviceId settings R Hd. unfold R, evaluateReading. fold deviceId. rewrite Hd.
  cbn [negb]. rewrite evaluation_run. cbv zeta. cbn [created effects app].
  unfold settings, settings_of.
  destruct (stored db) as [s|f]; [|reflexivity].
  set (sets := settings_for deviceId s).
  destruct (disabled sets); [reflexivity|].
  destruct (checks show getTime db payload deviceId sets (emailTo_of sets) (cooldown_of sets)
              (mkRequest [] [SelectSettings deviceId])) as [o st1] eqn:E.
  destruct (checks_adds payload deviceId sets _ _ _ E) as (d & T & C & F & S).
  cbn [created effects app] in T, C.
  assert (Est : st1 = mkRequest (rows d) (SelectSettings deviceId :: d)).
  { destruct st1. cbn in T, C. now subst. }
  exists o, d. split; [exact F|]. split; [exact S|]. cbv zeta. clear E T C. subst st1.
  destruct o as [[]|f]; [|reflexivity].
  set (st1 := mkRequest (rows d) (SelectSettings deviceId :: d)).
  pose proof (notify_run deviceId (emailTo_of sets) (cooldown_of sets) st1) as Hn.
  destruct (notify show render send db deviceId (emailTo_of sets) (cooldown_of sets) st1)
    as [[[]|f] st2] eqn:E2; [|reflexivity].
  assert (Ec : created st2 = rows d).
  { cbn [created effects st1] in Hn.
    destruct (negb _ && _) in Hn; [|injection Hn as ->; reflexivity].
    cbv zeta in Hn. destruct (send _) as [[[|]|e] t]; [| |discriminate Hn];
      inversion Hn; reflexivity. }
  now rewrite Ec.
Qed.

Lemma check_step_quiet (payload : EvaluatePayload) (deviceId : string) (settings : Settings)
    (d : list Effect) :
  Forall (check_step show getTime db payload deviceId settings) d ->
  Forall (justified show getTime db payload deviceId settings) (insertions d) /\
  filter is_email d = [] /\ filter is_mark d = [] /\ filter is_logged d = [] /\
  length (rows d) = length (filter (fun a => match returning db a with
                                             | Done _ => true
                                             | Failed _ => false
                                             end) (insertions d)).
Proof.
  induction 1 as [|e d He _ (IH1 & IH2 & IH3 & IH4 & IH5)];
    [repeat split; constructor|].
  destruct e as [| |a r| | |]; cbn in He; try contradiction;
    cbn [insertions filter is_email is_mark is_logged rows]; [auto|].
  destruct He as [-> Hj]. split; [constructor; assumption|].
  destruct (returning db a) as [[i t]|f]; cbn [length]; auto.
Qed.

(** The alerts of a request and why they were inserted. *)
Lemma insertions_justified (payload : EvaluatePayload) :
  let deviceId := device_of show payload in
  let settings := settings_of db deviceId in
  let effs := snd (evaluateReading show getTime render send db payload) in
  Forall (justified show getTime db payload deviceId settings) (insertions effs) /\
  subseq (map alert_type (insertions effs)) kinds.
Proof.
  intros deviceId settings effs. unfold effs.
  destruct (truthy deviceId) eqn:Hd.
  2:{ unfold evaluateReading. fold deviceId. rewrite Hd. cbn.
      split; [constructor|apply subseq_nil_l]. }
  pose proof (evaluateReading_run payload Hd) as Hrun. cbv zeta in Hrun.
  fold deviceId settings in Hrun.
  destruct (stored db) as [s|f]; [|rewrite Hrun; cbn; split; [constructor|apply subseq_nil_l]].
  destruct (disabled settings);
    [rewrite Hrun; cbn; split; [constructor|apply subseq_nil_l]|].
  destruct Hrun as (o & d & F & S & Hrun).
  destruct (check_step_quiet _ _ _ _ F) as (J & _).
  assert (E : insertions (snd (evaluateReading show getTime render send db payload))
              = insertions d).
  { destruct o as [[]|f].
    - rewrite notify_run in Hrun. cbn [created effects] in Hrun.
      destruct (negb _ && _) in Hrun.
      + cbv zeta in Hrun. destruct (send _) as [[[|]|e] t]; [destruct (marked db)| |];
          rewrite Hrun; cbn [snd effects insertions]; rewrite ?insertions_app; cbn;
          rewrite ?app_nil_r; reflexivity.
      + rewrite Hrun. reflexivity.
    - rewrite Hrun. cbn [snd effects]. cbn [app insertions]. rewrite insertions_app. cbn.
      now rewrite app_nil_r. }
  rewrite E. split; assumption.
Qed.

(** A request for a device: the query of the settings, the steps of the
    checks, and one of the endings. *)
Lemma evaluateReading_cases (payload : EvaluatePayload) :
  let deviceId := device_of show payload in
  let settings := settings_of db deviceId in
  truthy deviceId = true ->
  exists d tail response,
    evaluateReading show getTime render send db payload =
      (response, (SelectSettings deviceId :: d ++ tail)%list) /\
    Forall (check_step show getTime db payload deviceId settings) d /\
    subseq (map alert_type (insertions d)) kinds /\
    Ending send db (mail show render deviceId settings (rows d)) settings (rows d)
      tail response.
Proof.
  intros deviceId settings Hd.
  pose proof (evaluateReading_run payload Hd) as Hrun. cbv zeta in Hrun.
  fold deviceId settings in Hrun.
  destruct (stored db) as [s|f].
  2:{ exists [], [ConsoleError f], server_error. rewrite Hrun.
      split; [reflexivity|]. split; [constructor|]. split; [apply subseq_nil_l|].
      constructor. }
  destruct (disabled settings).
  { exists [], [], (ok_response [] settings). rewrite Hrun.
    split; [reflexivity|]. split; [constructor|]. split; [apply subseq_nil_l|].
    apply ended_quiet. now left. }
  destruct Hrun as (o & d & F & S & Hrun).
  destruct o as [[]|f].
  2:{ exists d, [ConsoleError f], server_error. rewrite Hrun.
      repeat split; try assumption. constructor. }
  rewrite notify_run in Hrun. cbn [created effects] in Hrun.
  fold (mail show render deviceId settings (rows d)) in Hrun.
  destruct (length (rows d) =? 0)%nat eqn:Hl.
  { apply Nat.eqb_eq, length_zero_iff_nil in Hl.
    exists d, [], (ok_response (rows d) settings). cbn in Hrun. rewrite Hrun, app_nil_r.
    repeat split; try assumption. apply ended_quiet. now left. }
  assert (Hne : rows d <> []).
  { intros E0. rewrite E0 in Hl. discriminate Hl. }
  cbn [negb andb] in Hrun.
  destruct (emailTo_of settings) as [|c r] eqn:Ea.
  { exists d, [], (ok_response (rows d) settings). cbn in Hrun. rewrite Hrun, app_nil_r.
    repeat split; try assumption. apply ended_quiet. now right. }
  rewrite <- Ea in *.
  assert (Hea : emailTo_of settings <> "") by (rewrite Ea; discriminate).
  assert (Ht : truthy (emailTo_of settings) = true) by (rewrite Ea; reflexivity).
  rewrite Ht in Hrun. cbv zeta in Hrun.
  destruct (send (mail show render deviceId settings (rows d))) as [[[|]|e] t] eqn:Es.
  - destruct (marked db) as [[]|f] eqn:Em.
    + eexists d, _, _. split; [rewrite Hrun; reflexivity|].
      repeat split; try assumption. now apply ended_sent.
    + eexists d, _, _. split; [rewrite Hrun; cbn [effects app]; rewrite <- app_assoc;
                                 reflexivity|].
      repeat split; try assumption. now apply ended_unmarked.
  - eexists d, _, _. split; [rewrite Hrun; reflexivity|].
    repeat split; try assumption. now apply ended_unsent.
  - eexists d, _, _. split; [rewrite Hrun; cbn [effects app]; rewrite <- app_assoc;
                               reflexivity|].
    repeat split; try assumption. now apply ended_rejected.
Qed.

Lemma lt_true (a b : Json) : lt a b = true <-> (number a < number b)%Q.
Proof.
  unfold lt. rewrite negb_true_iff. split.
  - intros H. apply Qnot_le_lt. intros Hle. apply Qle_bool_iff in Hle. congruence.
  - intros H. destruct (Qle_bool (number b) (number a)) eqn:E; [|reflexivity].
    apply Qle_bool_iff in E. exfalso. eapply Qlt_not_le; eassumption.
Qed.

Lemma NoDup_kinds : NoDup kinds.
Proof.
  unfold kinds.
  repeat (constructor; [cbn [In]; intros H; repeat destruct H as [H|H];
                        solve [discriminate H | exact H]|]).
  constructor.
Qed.

Lemma white_trims_to_nothing (s : string) :
  forallb is_white (list_ascii_of_string s) = true -> trim s = "".
Proof. intros H. unfold trim. now rewrite (trimStart_white s H). Qed.

(** X12. A reading without an identifier of the device (absent, null, zero,
    false, empty, or white space only) is refused with 400 and the message
    that device_id is required, before anything is asked of the database;
    every other reading makes the handler read the settings of the
    device, under the identifier without the white space around it, and
    is not answered with 400. *)
Theorem device_id_is_required (payload : EvaluatePayload) :
  let deviceId := device_of show payload in
  let R := evaluateReading show getTime render send db payload in
  (truthy_value (device_id payload) = false \/
   (exists s, device_id payload = JString s /\
              forallb is_white (list_ascii_of_string s) = true) ->
   deviceId = "") /\
  (deviceId = "" -> R = (bad_request, [])) /\
  (deviceId <> "" ->
   fst R <> bad_request /\ exists rest, snd R = SelectSettings deviceId :: rest).
Proof.
  intros deviceId R. split; [|split].
  - unfold deviceId, device_of. intros [H|(s & E & H)].
    + rewrite H. reflexivity.
    + rewrite E. cbn [truthy_value]. destruct (truthy s); cbn [String_].
      * now apply white_trims_to_nothing.
      * reflexivity.
  - intros E. unfold R, evaluateReading. fold deviceId. rewrite E. reflexivity.
  - intros Hne.
    assert (Hd : truthy deviceId = true) by (destruct deviceId; [now elim Hne|reflexivity]).
    destruct (evaluateReading_cases payload Hd) as (d & tail & resp & E & _ & _ & He).
    unfold R. fold deviceId in E. rewrite E. cbn [fst snd]. split; [|eauto].
    destruct He; discriminate.
Qed.

(** X13. When the alerts of a device are switched off (enabled is false or
    null in its settings), a reading is answered with 200, no alert, and
    the settings; apart from reading the settings nothing is asked of the
    database and no message is sent. *)
Theorem switched_off_device_raises_nothing (payload : EvaluatePayload) (row : Settings) :
  device_of show payload <> "" ->
  stored db = Done (Some row) ->
  enabled row <> Some true ->
  evaluateReading show getTime render send db payload =
  (ok_response [] row, [SelectSettings (device_of show payload)]).
Proof.
  intros Hne Hs He.
  assert (Hd : truthy (device_of show payload) = true)
    by (destruct (device_of show payload); [now elim Hne|reflexivity]).
  pose proof (evaluateReading_run payload Hd) as Hrun. cbv zeta in Hrun.
  unfold settings_of in Hrun. rewrite Hs in Hrun. cbn [settings_for] in Hrun.
  assert (Hdis : disabled row = true).
  { unfold disabled. destruct (enabled row) as [[|]|]; [now elim He|reflexivity..]. }
  rewrite Hdis in Hrun. exact Hrun.
Qed.

(** X14. The alerts a request inserts are of different types, at most one for
    each of the seven checks, and they are inserted in the order of the
    checks: no data, salinity, pH low, pH high, temperature low,
    temperature high, battery. *)
Theorem alerts_once_each_in_order (payload : EvaluatePayload) :
  let types :=
    map alert_type (insertions (snd (evaluateReading show getTime render send db payload))) in
  subseq types kinds /\ NoDup types /\ (length types <= 7)%nat.
Proof.
  intros types. destruct (insertions_justified payload) as (_ & S). cbv zeta in S.
  fold types in S. split; [exact S|]. split.
  - exact (subseq_NoDup _ _ S NoDup_kinds).
  - exact (subseq_length _ _ S).
Qed.

Ltac by_kind Hj :=
  let Hcool := fresh "Hcool" in
  let last := fresh "last" in
  let Ea := fresh "Ea" in
  let H1 := fresh "H1" in
  let H2 := fresh "H2" in
  let H3 := fresh "H3" in
  destruct Hj as (Hcool & [(last & Ea & H1 & H2 & H3)|[(Ea & H1 & H2 & H3)|
                 [(Ea & H1 & H2 & H3)|[(Ea & H1 & H2 & H3)|[(Ea & H1 & H2 & H3)|
                 [(Ea & H1 & H2 & H3)|(Ea & H1 & H2 & H3)]]]]]]);
  rewrite Ea in *.

(** X15. Every alert that compares a reading with a threshold is inserted for
    the device of the reading and the address of its settings, with the
    reading and the threshold of its type as value and threshold; both
    are finite numbers, and the reading is strictly above the threshold
    for the three high alerts, strictly below it for the three low
    ones. *)
Theorem alerts_are_beyond_their_thresholds (payload : EvaluatePayload) :
  let deviceId := device_of show payload in
  let settings := settings_of db deviceId in
  let effs := snd (evaluateReading show getTime render send db payload) in
  Forall (fun a =>
            alert_device_id a = deviceId /\
            alert_email_to a = emailTo_of settings /\
            (alert_type a = "no_data" \/
             alert_value a = reading_of payload (alert_type a) /\
             alert_threshold a = threshold_of settings (alert_type a) /\
             isNumber (alert_value a) = true /\
             isNumber (alert_threshold a) = true /\
             if is_high (alert_type a)
             then (number (alert_threshold a) < number (alert_value a))%Q
             else (number (alert_value a) < number (alert_threshold a))%Q))
    (insertions effs).
Proof.
  intros deviceId settings effs.
  destruct (insertions_justified payload) as (J & _). cbv zeta in J.
  fold deviceId settings effs in J.
  eapply Forall_impl; [|exact J]. intros a Hj.
  by_kind Hj; (split; [reflexivity|]; split; [reflexivity|]);
    [left; reflexivity|right..];
    (split; [reflexivity|]; split; [reflexivity|]; split; [assumption|];
     split; [assumption|]);
    apply lt_true in H3; exact H3.
Qed.

(** X16. The alert for missing data is inserted only for a reading whose time
    can be read and lies more than the delay of the settings before the
    request, where a delay of zero, or none, counts as sixty minutes; its
    value is the whole number of minutes elapsed, which is at least the
    delay, its threshold the delay. *)
Theorem no_data_alert_is_for_stale_readings (payload : EvaluatePayload) :
  let deviceId := device_of show payload in
  let settings := settings_of db deviceId in
  let effs := snd (evaluateReading show getTime render send db payload) in
  let delay := match no_data_minutes settings with
               | Some 0 | None => 60
               | Some n => n
               end in
  Forall (fun a =>
            alert_type a = "no_data" ->
            exists last,
              getTime (createdAt payload) = Some last /\
              now db - last > delay * 60000 /\
              alert_value a = num (inject_Z ((now db - last) / 60000)) /\
              alert_threshold a = num (inject_Z delay) /\
              delay <= (now db - last) / 60000)
    (insertions effs).
Proof.
  intros deviceId settings effs delay.
  destruct (insertions_justified payload) as (J & _). cbv zeta in J.
  fold deviceId settings effs in J.
  assert (Ed : or_default (no_data_minutes settings) 60 = delay).
  { unfold or_default, delay. destruct (no_data_minutes settings) as [[| |]|]; reflexivity. }
  eapply Forall_impl; [|exact J]. intros a Hj Ht.
  by_kind Hj; try discriminate Ht.
  exists last. rewrite Ed in *. split; [exact H2|]. split; [lia|].
  unfold no_data_alert. cbn [alert_value alert_threshold]. rewrite Ed.
  split; [reflexivity|]. split; [reflexivity|].
  apply Z.div_le_lower_bound; lia.
Qed.

Lemma inserted_of_type (payload : EvaluatePayload) (type : string) :
  let deviceId := device_of show payload in
  let settings := settings_of db deviceId in
  let effs := snd (evaluateReading show getTime render send db payload) in
  In type (map alert_type (insertions effs)) ->
  exists a, alert_type a = type /\
            justified show getTime db payload deviceId settings a.
Proof.
  intros deviceId settings effs Hin.
  destruct (insertions_justified payload) as (J & _). cbv zeta in J.
  fold deviceId settings effs in J.
  apply in_map_iff in Hin. destruct Hin as (a & Et & Ha).
  exists a. split; [exact Et|]. rewrite Forall_forall in J. now apply J.
Qed.

(** X17. When the low threshold of pH is not above the high one, a request
    never inserts both a pH-low and a pH-high alert; likewise for the
    temperature. *)
Theorem low_and_high_alerts_exclude_each_other (payload : EvaluatePayload) :
  let settings := settings_of db (device_of show payload) in
  let types :=
    map alert_type (insertions (snd (evaluateReading show getTime render send db payload))) in
  ((number (ph_low settings) <= number (ph_high settings))%Q ->
   ~ (In "ph_low" types /\ In "ph_high" types)) /\
  ((number (temperature_low settings) <= number (temperature_high settings))%Q ->
   ~ (In "temperature_low" types /\ In "temperature_high" types)).
Proof.
  intros settings types. split; intros Hle [Hl Hh];
    apply inserted_of_type in Hl; apply inserted_of_type in Hh;
    destruct Hl as (a & Ta & Ja); destruct Hh as (b & Tb & Jb);
    fold settings in Ja, Jb.
  - by_kind Ja; try discriminate Ta. apply lt_true in H3. rename H3 into Hlow.
    clear H1 H2 Hcool Ea.
    by_kind Jb; try discriminate Tb. apply lt_true in H3.
    apply (Qlt_irrefl (number (ph payload))).
    eapply Qlt_le_trans; [exact Hlow|]. eapply Qle_trans; [exact Hle|].
    now apply Qlt_le_weak.
  - by_kind Ja; try discriminate Ta. apply lt_true in H3. rename H3 into Hlow.
    clear H1 H2 Hcool Ea.
    by_kind Jb; try discriminate Tb. apply lt_true in H3.
    apply (Qlt_irrefl (number (temperature payload))).
    eapply Qlt_le_trans; [exact Hlow|]. eapply Qle_trans; [exact Hle|].
    now apply Qlt_le_weak.
Qed.

(** X18. An alert is critical exactly when it is the alert for missing data, or
    the battery alert for a reading below 10; every other alert is a
    warning. *)
Theorem critical_alerts (payload : EvaluatePayload) :
  let effs := snd (evaluateReading show getTime render send db payload) in
  Forall (fun a =>
            (alert_severity a = critical <->
             alert_type a = "no_data" \/
             alert_type a = "battery_low" /\ (number (alert_value a) < 10 # 1)%Q) /\
            (alert_severity a = critical \/ alert_severity a = warning))
    (insertions effs).
Proof.
  intros effs. destruct (insertions_justified payload) as (J & _). cbv zeta in J.
  fold effs in J. eapply Forall_impl; [|exact J]. intros a Hj.
  by_kind Hj; cbn [alert_severity alert_type alert_value no_data_alert salinity_high_alert
                   ph_low_alert ph_high_alert temperature_low_alert temperature_high_alert
                   battery_low_alert].
  1:{ split; [|now left]. split; [intros _; now left|reflexivity]. }
  6:{ pose proof (lt_true (battery payload) (num (10 # 1))) as Hq.
      change (number (num (10 # 1))) with (10 # 1) in Hq.
      destruct (lt (battery payload) (num (10 # 1))).
      - split; [|now left]. split; [intros _; right; split; [reflexivity|now apply Hq]|].
        reflexivity.
      - split; [|now right]. split; [discriminate|].
        intros [H|[_ H]]; [discriminate H|]. apply Hq in H. discriminate H. }
  all: split; [|now right]; split; [discriminate|];
    intros [H|[H _]]; discriminate H.
Qed.

(** X19. No alert of a type is inserted while the latest alert of that type
    for the device is younger than the cooldown of the settings, where a
    cooldown of zero, or none, counts as fifteen minutes. *)
Theorem no_alert_during_cooldown (payload : EvaluatePayload) (type : string) (last : Z) :
  let settings := settings_of db (device_of show payload) in
  let effs := snd (evaluateReading show getTime render send db payload) in
  let minutes := match cooldown_minutes settings with
                 | Some 0 | None => 15
                 | Some n => n
                 end in
  last_alert db type = Done (Some last) ->
  now_for db type - last < minutes * 60000 ->
  ~ In type (map alert_type (insertions effs)).
Proof.
  intros settings effs minutes Hl Hy Hin.
  apply inserted_of_type in Hin. destruct Hin as (a & Ta & (Hcool & _)).
  fold settings in Hcool. rewrite Ta in Hcool. unfold cooling in Hcool. rewrite Hl in Hcool.
  assert (Em : cooldown_of settings = minutes).
  { unfold cooldown_of, or_default, minutes.
    destruct (cooldown_minutes settings) as [[| |]|]; reflexivity. }
  rewrite Em in Hcool. apply Z.ltb_ge in Hcool. lia.
Qed.

Lemma check_steps_only (payload : EvaluatePayload) (deviceId : string) (settings : Settings)
    (d : list Effect) (e : Effect) :
  Forall (check_step show getTime db payload deviceId settings) d -> In e d ->
  is_email e = false /\ is_mark e = false /\ is_logged e = false.
Proof.
  intros F Hin. rewrite Forall_forall in F. specialize (F e Hin).
  destruct e; cbn in F; try contradiction F; auto.
Qed.

(** What a request did, seen from its end: the rows, the messages, the
    marks and the logged errors are those of the checks and of the
    ending. *)
Lemma request_parts (payload : EvaluatePayload) :
  let deviceId := device_of show payload in
  let settings := settings_of db deviceId in
  let R := evaluateReading show getTime render send db payload in
  deviceId <> "" ->
  exists tail,
    Ending send db (mail show render deviceId settings (rows (snd R))) settings
      (rows (snd R)) tail (fst R) /\
    (forall e, is_email e = true \/ is_mark e = true \/ is_logged e = true ->
               (In e (snd R) <-> In e tail)) /\
    filter is_email (snd R) = filter is_email tail /\
    filter is_mark (snd R) = filter is_mark tail /\
    filter is_logged (snd R) = filter is_logged tail /\
    exists before, snd R = (before ++ tail)%list /\ filter is_logged before = [].
Proof.
  intros deviceId settings R Hne.
  assert (Hd : truthy deviceId = true) by (destruct deviceId; [now elim Hne|reflexivity]).
  destruct (evaluateReading_cases payload Hd) as (d & tail & resp & E & F & _ & He).
  fold deviceId settings in E, F, He. unfold R. rewrite E. cbn [fst snd].
  destruct (check_step_quiet _ _ _ _ F) as (_ & Q1 & Q2 & Q3 & _).
  assert (Er : rows (SelectSettings deviceId :: d ++ tail) = rows d).
  { cbn [rows]. rewrite rows_app.
    destruct He; cbn [rows]; now rewrite app_nil_r. }
  rewrite Er. exists tail. split; [exact He|]. split; [|split; [|split; [|split]]].
  - intros e He'. cbn [In]. rewrite in_app_iff. split; [|auto].
    intros [H|[H|H]]; [|exfalso|exact H].
    + subst e. cbn in He'. destruct He' as [H|[H|H]]; discriminate H.
    + destruct (check_steps_only _ _ _ _ _ F H) as (H1 & H2 & H3).
      destruct He' as [H'|[H'|H']]; congruence.
  - cbn [filter is_email]. now rewrite filter_app, Q1.
  - cbn [filter is_mark]. now rewrite filter_app, Q2.
  - cbn [filter is_logged]. now rewrite filter_app, Q3.
  - exists (SelectSettings deviceId :: d). split; [reflexivity|].
    cbn [filter is_logged]. exact Q3.
Qed.

(** X20. A request sends at most one message, and only when it has inserted
    alerts and the address of the settings, without the white space around
    it, is not empty: the message goes to that address, its subject
    counts the rows inserted, and what [sendEmail] answers is recorded. *)
Theorem email_only_for_new_alerts (payload : EvaluatePayload) :
  let deviceId := device_of show payload in
  let settings := settings_of db deviceId in
  let effs := snd (evaluateReading show getTime render send db payload) in
  (length (filter is_email effs) <= 1)%nat /\
  forall p r t, In (SendEmail p r t) effs ->
    rows effs <> [] /\ emailTo_of settings <> "" /\
    p = mail show render deviceId settings (rows effs) /\
    to p = emailTo_of settings /\
    subject p = "[Water Monitoring] " ++ deviceId ++ ": "
                ++ show (Finite (inject_Z (Z.of_nat (length (rows effs))))) ++ " alert(s)" /\
    send p = (r, t).
Proof.
  intros deviceId settings effs.
  destruct (string_dec deviceId "") as [E0|Hne].
  { unfold effs, evaluateReading. fold deviceId. rewrite E0. cbn.
    split; [lia|]. intros p r t []. }
  destruct (request_parts payload Hne) as (tail & He & Hin & Hf & _).
  fold deviceId settings effs in He, Hin, Hf. split.
  - rewrite Hf. destruct He; cbn; lia.
  - intros p r t H. apply Hin in H; [|now left].
    destruct He; cbn [In] in H;
      repeat match type of H with
             | _ \/ _ => destruct H as [H|H]
             | False => destruct H
             | _ = _ => try discriminate H; injection H as <- <- <-
             end;
      repeat split; assumption.
Qed.

(** X21. The rows are marked as sent exactly when [sendEmail] resolved with
    true, and the rows marked are those inserted by the request. *)
Theorem marked_iff_email_accepted (payload : EvaluatePayload) (ids : list string) :
  let effs := snd (evaluateReading show getTime render send db payload) in
  In (MarkSent ids) effs <->
  ids = map id (rows effs) /\ exists p t, In (SendEmail p (Return true) t) effs.
Proof.
  intros effs.
  destruct (string_dec (device_of show payload) "") as [E0|Hne].
  { unfold effs, evaluateReading. rewrite E0. cbn.
    split; [intros []|intros (_ & p & t & [])]. }
  destruct (request_parts payload Hne) as (tail & He & Hin & _).
  fold effs in He, Hin. split.
  - intros H. apply Hin in H; [|right; now left].
    assert (Hm : forall p t, In (SendEmail p (Return true) t) tail ->
                             In (SendEmail p (Return true) t) effs).
    { intros p t Hp. apply Hin; [now left|exact Hp]. }
    destruct He; cbn [In] in H;
      repeat match type of H with
             | _ \/ _ => destruct H as [H|H]
             | False => destruct H
             | _ = _ => try discriminate H; injection H as <-
             end;
      (split; [reflexivity|]); eexists _, _; apply Hm; left; reflexivity.
  - intros (-> & p & t & H). apply Hin in H; [|now left].
    apply Hin; [right; now left|].
    destruct He; cbn [In] in H |- *;
      repeat match type of H with
             | _ \/ _ => destruct H as [H|H]
             | False => destruct H
             | _ = _ => try discriminate H
             end; auto.
Qed.

(** X22. The three answers of the handler: 400 for a reading without device,
    and nothing done; 500 with the message that the reading could not be
    evaluated exactly when an error was thrown, which is logged once, as
    the last thing done; otherwise 200 with the rows inserted by the
    request and the settings it worked with. *)
Theorem response_tells_the_outcome (payload : EvaluatePayload) :
  let deviceId := device_of show payload in
  let settings := settings_of db deviceId in
  let R := evaluateReading show getTime render send db payload in
  (deviceId = "" /\ R = (bad_request, [])) \/
  (deviceId <> "" /\ fst R = ok_response (rows (snd R)) settings /\
   filter is_logged (snd R) = []) \/
  (deviceId <> "" /\ fst R = server_error /\
   exists before f, snd R = (before ++ [ConsoleError f])%list /\
                    filter is_logged before = []).
Proof.
  intros deviceId settings R.
  destruct (string_dec deviceId "") as [E0|Hne].
  { left. split; [exact E0|]. unfold R, evaluateReading. fold deviceId. now rewrite E0. }
  right. destruct (request_parts payload Hne) as (tail & He & _ & _ & _ & Hl & pre & Ep & Hp).
  fold deviceId settings R in He, Hl, Ep.
  destruct He.
  - right. split; [exact Hne|]. split; [reflexivity|]. exists pre, f. auto.
  - left. split; [exact Hne|]. split; [reflexivity|]. now rewrite Hl.
  - left. split; [exact Hne|]. split; [reflexivity|]. now rewrite Hl.
  - left. split; [exact Hne|]. split; [reflexivity|]. now rewrite Hl.
  - right. split; [exact Hne|]. split; [reflexivity|].
    eexists (pre ++ [_; _])%list, _.
    split; [rewrite <- app_assoc; cbn [app]; exact Ep|].
    rewrite filter_app, Hp. reflexivity.
  - right. split; [exact Hne|]. split; [reflexivity|].
    eexists (pre ++ [_])%list, _.
    split; [rewrite <- app_assoc; cbn [app]; exact Ep|].
    rewrite filter_app, Hp. reflexivity.
Qed.

(** X23. The settings a reading is evaluated with, as the 200 response of
    [evaluateReading] reports them, are the settings that
    [getAlertSettings] shows for the device: the stored row, or the same
    defaults when nothing is stored. *)
Theorem shown_settings_are_the_ones_applied (payload : EvaluatePayload)
    (alerts : list AlertRow) (settings : Settings) :
  let deviceId := device_of show payload in
  body (fst (evaluateReading show getTime render send db payload))
  = Evaluated alerts settings ->
  getAlertSettings db deviceId
  = ({| status := 200; body := Stored settings |}, [SelectSettings deviceId]).
Proof.
  intros deviceId Hb.
  destruct (truthy deviceId) eqn:Hd.
  2:{ unfold evaluateReading in Hb. fold deviceId in Hb. rewrite Hd in Hb.
      discriminate Hb. }
  pose proof (evaluateReading_run payload Hd) as Hrun. cbv zeta in Hrun.
  destruct (evaluateReading_cases payload Hd) as (d & tail & resp & E & _ & _ & He).
  fold deviceId in Hrun, E, He. rewrite E in Hb. cbn [fst] in Hb.
  unfold getAlertSettings, getSettings, query, settings_of in *. cbn [created effects app].
  destruct (stored db) as [s|f] eqn:Es.
  - assert (Hs : settings = settings_for deviceId s)
      by (destruct He; cbn in Hb; congruence).
    rewrite Hs. destruct s; reflexivity.
  - rewrite E in Hrun. injection Hrun as -> _. discriminate Hb.
Qed.

End Handler.
(** ** The handler and the SMTP client together *)

Section Together.

Import Alerts.
Local Open Scope string_scope.
Local Open Scope Z_scope.

Variable Buffer : Type.
Variable toString_utf8 : Buffer -> string.
Variable Number : string -> option Z.
Variable show : JsNumber -> string.
Variable getTime : Json -> option Z.
Variable render : string -> list AlertRow -> Z -> string.
Variable db : Db.
Variable penv : ProcessEnv.
Variable net : Net Buffer.

(** X24. When the connection to the mail server cannot be established, a
    request that has alerts to report is answered with 500: the rejection
    of [sendEmail] is thrown in the handler after the alerts are inserted,
    so the rows stay in the database, none is marked as sent, and the
    error of the connection is what is logged. *)
Theorem failed_connection_fails_the_request (payload : EvaluatePayload) (e : JsError) :
  let send := sendEmail toString_utf8 Number penv net in
  let settings := settings_of db (device_of show payload) in
  let R := evaluateReading show getTime render send db payload in
  configured penv -> parse_recipients (emailTo_of settings) <> [] ->
  connected net = Some e ->
  filter is_email (snd R) <> [] ->
  fst R = server_error /\ rows (snd R) <> [] /\ filter is_mark (snd R) = [] /\
  exists before p,
    snd R = (before
             ++ [SendEmail p (Throw e)
                   [Connect (first_socket (Number (env penv "SMTP_PORT")))
                      (env penv "SMTP_HOST") (Number (env penv "SMTP_PORT")) (Some e)];
                 ConsoleError (EmailRejected e)])%list.
Proof.
  intros send settings R Hc Hr Hn Hsent.
  destruct (string_dec (device_of show payload) "") as [E0|Hne].
  { exfalso. apply Hsent. unfold R, evaluateReading. rewrite E0. reflexivity. }
  destruct (request_parts show getTime render send db payload Hne)
    as (tail & He & _ & Hf & Hm & _ & pre & Ep & _).
  fold settings R in He, Hf, Hm, Ep.
  set (p := mail show render (device_of show payload) settings (rows (snd R))) in *.
  assert (Hp : send p = (Throw e, [Connect (first_socket (Number (env penv "SMTP_PORT")))
                                     (env penv "SMTP_HOST") (Number (env penv "SMTP_PORT"))
                                     (Some e)])).
  { unfold send. now apply sendEmail_refused. }
  rewrite Hf in Hsent.
  destruct He as [f|Hq|t H1 H2 H3|t H1 H2 H3 H4|t f H1 H2 H3 H4|t e' H1 H2 H3];
    try (now elim Hsent); try (rewrite Hp in H3; discriminate H3).
  rewrite Hp in H3. injection H3 as <- <-.
  split; [reflexivity|]. split; [exact H1|]. split; [rewrite Hm; reflexivity|].
  exists pre, p. exact Ep.
Qed.

(** X25. When the settings of the mail server are incomplete, or the address of
    the settings names nobody, a request that has alerts to report is
    still answered with 200 and the rows inserted: [sendEmail] resolves
    with false without a connection attempt, no row is marked as sent and
    no error is logged. *)
Theorem unusable_mail_settings_keep_the_request (payload : EvaluatePayload) :
  let send := sendEmail toString_utf8 Number penv net in
  let settings := settings_of db (device_of show payload) in
  let R := evaluateReading show getTime render send db payload in
  ~ configured penv \/ parse_recipients (emailTo_of settings) = [] ->
  filter is_email (snd R) <> [] ->
  fst R = ok_response (rows (snd R)) settings /\ rows (snd R) <> [] /\
  filter is_mark (snd R) = [] /\ filter is_logged (snd R) = [] /\
  exists before p t,
    snd R = (before ++ [SendEmail p (Return false) t])%list /\ filter is_connect t = [].
Proof.
  intros send settings R Hu Hsent.
  destruct (string_dec (device_of show payload) "") as [E0|Hne].
  { exfalso. apply Hsent. unfold R, evaluateReading. rewrite E0. reflexivity. }
  destruct (request_parts show getTime render send db payload Hne)
    as (tail & He & _ & Hf & Hm & Hl & pre & Ep & _).
  fold settings R in He, Hf, Hm, Hl, Ep.
  set (p := mail show render (device_of show payload) settings (rows (snd R))) in *.
  assert (Hp : exists t, send p = (Return false, t) /\ filter is_connect t = []).
  { unfold send. destruct (truthy (hasSmtpEnv penv)) eqn:Hc.
    - destruct Hu as [Hu|Hu]; [now elim Hu|].
      exists []. now rewrite (sendEmail_no_recipient Buffer toString_utf8 Number penv net p Hc Hu).
    - exists [Warn not_configured]. rewrite sendEmail_not_configured; [now split|].
      unfold configured. rewrite Hc. discriminate. }
  destruct Hp as (t0 & Hp & Ht0).
  rewrite Hf in Hsent.
  destruct He as [f|Hq|t H1 H2 H3|t H1 H2 H3 H4|t f H1 H2 H3 H4|t e' H1 H2 H3];
    try (now elim Hsent); try (rewrite Hp in H3; discriminate H3).
  rewrite Hp in H3. injection H3 as <-.
  split; [reflexivity|]. split; [exact H1|].
  split; [rewrite Hm; reflexivity|]. split; [rewrite Hl; reflexivity|].
  exists pre, p, t0. split; assumption.
Qed.

End Together.

(** * The properties on concrete calls *)

Import Sample.

Example b64_user : b64 "user" = "dXNlcg==".
Proof. reflexivity. Qed.

Example b64_latin1 : b64 (String (chr 233) "a") = "w6lh".
Proof. reflexivity. Qed.

(** A password can spell a command. *)
Example b64_can_spell_QUIT : credential ("AB" ++ String (chr 19) "") = QUIT.
Proof. reflexivity. Qed.

Example split_example : split "," "a, b,,c" = ["a"; " b"; ""; "c"].
Proof. reflexivity. Qed.

Example split_empty : split "," "" = [""].
Proof. reflexivity. Qed.

Example trim_example : trim (" a b " ++ CRLF) = "a b".
Proof. reflexivity. Qed.

Example parse_recipients_example : parse_recipients (to alert) = ["a@x.org"; "b@y.org"].
Proof. reflexivity. Qed.

Example extractCode_second_line : extractCode ("12 x" ++ CRLF ++ "250 ok" ++ CRLF) = 250.
Proof. reflexivity. Qed.

Example happy_run :
  fst (sendEmail text decimal smtp happy alert) = Return true.
Proof. vm_compute. reflexivity. Qed.

(** C1, where the code departs from it.  The connection is awaited before
    the [try] statement: when it cannot be established, the promise of
    [sendEmail] rejects with the connection error instead of resolving with
    [false]. *)
Theorem connection_failure_rejects :
  sendEmail text decimal smtp refused alert =
  (Throw (SocketError "ECONNREFUSED"),
   [Connect NetSocket "mail.example.org" (Some 587) (Some (SocketError "ECONNREFUSED"))]).
Proof. vm_compute. reflexivity. Qed.

(** C3, where the code departs from it.  When the connection cannot be
    established the [finally] block is never entered: nothing is released
    and the call rejects.  And on the success path the closing QUIT is
    inside the [try] block: when it cannot be written, a message that the
    server accepted with 250 is reported as [false]. *)
Theorem release_and_cleanup_slips :
  filter is_end (snd (sendEmail text decimal smtp refused alert)) = [] /\
  fst (sendEmail text decimal smtp refused alert) =
    Throw (SocketError "ECONNREFUSED") /\
  fst (sendEmail text decimal smtp happy alert) = Return true /\
  fst (sendEmail text decimal smtp quit_fails alert) = Return false /\
  In (Read (TlsOver NetSocket) 10000 (Return ("250 queued" ++ CRLF)))
     (snd (sendEmail text decimal smtp quit_fails alert)) /\
  filter is_end (snd (sendEmail text decimal smtp quit_fails alert)) =
    [End_ (TlsOver NetSocket) None].
Proof.
  split; [vm_compute; reflexivity|].
  split; [vm_compute; reflexivity|].
  split; [vm_compute; reflexivity|].
  split; [vm_compute; reflexivity|].
  split; [vm_compute; tauto|vm_compute; reflexivity].
Qed.

(** C4 as stated fails: a chunk that holds more than one line is returned
    whole, so the text is not the bytes up to and including a newline. *)
Lemma readLine_returns_more_than_a_line :
  readLine_result text [EvData ("220 ready" ++ CRLF ++ "250 extra")] =
    Return ("220 ready" ++ CRLF ++ "250 extra") /\
  is_one_line ("220 ready" ++ CRLF ++ "250 extra") = false.
Proof. split; vm_compute; reflexivity. Qed.

Lemma readLine_one_outcome_no_leak_witness :
  includes LF (accumulated text first_chunks) = false /\
  includes LF (accumulated text (first_chunks ++ [last_chunk])) = true /\
  readLine_result text
    (map EvData first_chunks ++ EvData last_chunk :: [EvData "lost"; EvTimeout])%list =
  Return (accumulated text (first_chunks ++ [last_chunk])).
Proof.
  split; [vm_compute; reflexivity|]. split; [vm_compute; reflexivity|].
  apply (proj1 (proj2 (proj2 (proj2 (readLine_one_outcome_no_leak string text))))
           first_chunks last_chunk [EvData "lost"; EvTimeout]);
    vm_compute; reflexivity.
Defined.

(** [expect([250])] against a transport that replies 550. *)
Lemma response_parser_contract_witness :
  let w := mkWorld NetSocket [reply "550 no"] [] [] in
  readLine_result text (hd [] (coming_reads w)) = Return ("550 no" ++ CRLF) /\
  ~ In (extractCode ("550 no" ++ CRLF)) [250] /\
  fst (expect text NetSocket [250] 10000 w) = Throw (SmtpUnexpected 550 ("550 no" ++ CRLF)).
Proof.
  intros w. split; [vm_compute; reflexivity|].
  assert (Hn : ~ In (extractCode ("550 no" ++ CRLF)) [250])
    by (intros [H|[]]; vm_compute in H; discriminate H).
  split; [exact Hn|].
  apply (proj1 (proj2 (proj2
           (proj2 (proj2 (proj2 (proj2 (response_parser_contract string text)))) w NetSocket [250]
              10000 ("550 no" ++ CRLF) eq_refl)))).
  exact Hn.
Defined.

Lemma sendEmail_short_circuit_witness :
  forallb is_white (list_ascii_of_string ("  " ++ CRLF)) = true /\
  fst (sendEmail text decimal smtp happy
         {| to := "  " ++ CRLF; subject := "Alert"; html := "" |}) = Return false /\
  filter is_connect
    (snd (sendEmail text decimal smtp happy
            {| to := "  " ++ CRLF; subject := "Alert"; html := "" |})) = [].
Proof.
  split; [vm_compute; reflexivity|].
  apply (sendEmail_short_circuit string text decimal smtp happy
           {| to := "  " ++ CRLF; subject := "Alert"; html := "" |}).
  right. right. vm_compute. reflexivity.
Defined.

(** Replies are settled by evaluation. *)
Ltac read_reply :=
  lazymatch goal with
  | |- accepted ?f ?codes ?evs =>
      let r := eval vm_compute in (readLine_result f evs) in
      lazymatch r with
      | Return ?t => exists t; split; [vm_compute; reflexivity|vm_compute; tauto]
      end
  | |- exists t, readLine_result ?f ?evs = Return t /\ _ =>
      let r := eval vm_compute in (readLine_result f evs) in
      lazymatch r with
      | Return ?t => exists t; split; vm_compute; reflexivity
      end
  | |- exists t, readLine_result ?f ?evs = Return t =>
      let r := eval vm_compute in (readLine_result f evs) in
      lazymatch r with
      | Return ?t => exists t; vm_compute; reflexivity
      end
  end.

Lemma happy_path_delivers_witness :
  fst (sendEmail text decimal smtp happy alert) = Return true /\
  times_sent DATA (snd (sendEmail text decimal smtp happy alert)) = 1%nat.
Proof.
  assert (H := happy_path_delivers string text decimal smtp happy alert
                 banner ehlo_reply go_ahead ehlo_again ask_user ask_pass auth_ok sender_ok
                 data_go queued rcpt_replies []).
  cbv zeta in H.
  refine ((fun H' => conj (proj1 H') (proj1 (proj2 (proj2 H')))) (H _ _ _ _ _ _ _ _ _ _ _ _ _ _ _ _ _ _ _ _)).
  - vm_compute; reflexivity.
  - vm_compute; reflexivity.
  - vm_compute; reflexivity.
  - vm_compute; discriminate.
  - reflexivity.
  - reflexivity.
  - constructor.
  - reflexivity.
  - read_reply.
  - read_reply.
  - read_reply.
  - read_reply.
  - read_reply.
  - read_reply.
  - read_reply.
  - read_reply.
  - reflexivity.
  - constructor; [read_reply|constructor; [read_reply|constructor]].
  - read_reply.
  - read_reply.
Defined.

Lemma starttls_decision_witness :
  In STARTTLS (written (snd (sendEmail text decimal smtp happy alert))).
Proof.
  assert (H := starttls_decision string text decimal smtp happy alert
                 banner ehlo_reply
                 ([go_ahead; ehlo_again; ask_user; ask_pass; auth_ok; sender_ok]
                  ++ rcpt_replies ++ [data_go; queued])
                 ("250-mail.example.org" ++ CRLF ++ "250 STARTTLS" ++ CRLF)).
  cbv zeta in H.
  refine (proj2 (proj1 (H _ _ _ _ _ _ _)) _).
  - vm_compute; reflexivity.
  - vm_compute; discriminate.
  - reflexivity.
  - reflexivity.
  - read_reply.
  - reflexivity.
  - vm_compute; reflexivity.
  - vm_compute; reflexivity.
Defined.

Lemma rejected_recipient_aborts_witness :
  fst (sendEmail text decimal smtp second_refused alert) = Return false /\
  ~ In DATA (written (snd (sendEmail text decimal smtp second_refused alert))).
Proof.
  assert (H := rejected_recipient_aborts string text decimal smtp second_refused alert
                 ["a@x.org"] [] "b@y.org" ("550 no such user" ++ CRLF)
                 at_recipients first_accepted).
  cbv zeta in H.
  refine ((fun H' => conj (proj1 H') (proj1 (proj2 (proj2 (proj2 H')))))
            (H _ _ _ _ _ _ _ _)).
  - vm_compute; reflexivity.
  - reflexivity.
  - vm_compute; reflexivity.
  - vm_compute; reflexivity.
  - vm_compute; reflexivity.
  - vm_compute; reflexivity.
  - vm_compute; reflexivity.
  - vm_compute. intros [E|[E|[]]]; discriminate E.
Defined.

Lemma auth_login_unconditional_witness :
  times_sent AUTH_LOGIN (snd (sendEmail text decimal smtp happy alert)) = 1%nat /\
  answers_auth text (coming_reads greeted).
Proof.
  assert (H := auth_login_unconditional string text decimal smtp happy alert greeted).
  cbv zeta in H.
  refine ((fun H' => conj (proj1 (proj2 H'))
                       (proj1 (proj1 (proj2 (proj2 (proj2 H'))) _))) (H _ _ _ _)).
  - vm_compute; reflexivity.
  - vm_compute; reflexivity.
  - vm_compute; discriminate.
  - reflexivity.
  - vm_compute; reflexivity.
Defined.

(** ** The further properties on concrete calls *)

Example tidy_recipients :
  parse_recipients (join ", " (parse_recipients "a@x.org, b@y.org ,")) = ["a@x.org"; "b@y.org"].
Proof. reflexivity. Qed.

Example bare_LF_in_the_body :
  crlf_wellformed (makeMime "8f3a2c" "alerts@example.org" "a@x.org" "Alert" "<p>pH high</p>")
  = true /\
  crlf_wellformed (makeMime "8f3a2c" "alerts@example.org" "a@x.org" "Alert"
                     ("<p>pH" ++ LF ++ "high</p>")) = false.
Proof. split; vm_compute; reflexivity. Qed.

Lemma b64_injective_witness : b64 "user" = b64 "user" /\ "user" = "user".
Proof.
  split; [reflexivity|]. apply (b64_injective "user" "user"). reflexivity.
Defined.

Lemma true_iff_whole_conversation_witness :
  fst (sendEmail text decimal smtp happy alert) = Return true /\
  exists greeting d,
    (greeting = plain_greeting \/ greeting = upgraded_greeting) /\
    snd (sendEmail text decimal smtp happy alert) =
      (Connect NetSocket "mail.example.org" (Some 587) None :: d
       ++ [End_ (socket_after NetSocket greeting) None])%list /\
    follows NetSocket
      (conversation greeting "user" "pass" "alerts@example.org" ["a@x.org"; "b@y.org"]
         (payload_of happy "alerts@example.org" ["a@x.org"; "b@y.org"] alert)) d.
Proof.
  assert (H : fst (sendEmail text decimal smtp happy alert) = Return true)
    by (vm_compute; reflexivity).
  split; [exact H|].
  exact (proj1 (true_iff_whole_conversation string text decimal smtp happy alert) H).
Defined.


Lemma rejects_iff_connection_fails_witness :
  fst (sendEmail text decimal smtp refused alert) = Throw (SocketError "ECONNREFUSED") /\
  snd (sendEmail text decimal smtp refused alert) =
    [Connect NetSocket "mail.example.org" (Some 587) (Some (SocketError "ECONNREFUSED"))].
Proof.
  assert (H : fst (sendEmail text decimal smtp refused alert)
              = Throw (SocketError "ECONNREFUSED")) by (vm_compute; reflexivity).
  split; [exact H|].
  exact (proj2 (rejects_iff_connection_fails string text decimal smtp refused alert
                  (SocketError "ECONNREFUSED")) H).
Defined.

(** The handshake fails after STARTTLS was accepted. *)
Lemma no_plain_text_session_after_STARTTLS_witness :
  In STARTTLS (written (snd (sendEmail text decimal smtp
                               {| connected := None;
                                  secured := Some (SocketError "handshake");
                                  closed := None;
                                  emitted := [banner; ehlo_reply; go_ahead];
                                  flushed := [];
                                  random := "8f3a2c" |} alert))) /\
  Forall nothing_secret
    (snd (sendEmail text decimal smtp
            {| connected := None;
               secured := Some (SocketError "handshake");
               closed := None;
               emitted := [banner; ehlo_reply; go_ahead];
               flushed := [];
               random := "8f3a2c" |} alert)).
Proof.
  assert (H : In STARTTLS (written (snd (sendEmail text decimal smtp
                               {| connected := None;
                                  secured := Some (SocketError "handshake");
                                  closed := None;
                                  emitted := [banner; ehlo_reply; go_ahead];
                                  flushed := [];
                                  random := "8f3a2c" |} alert))))
    by (vm_compute; right; left; reflexivity).
  split; [exact H|].
  exact (no_plain_text_session_after_STARTTLS string text decimal smtp _ alert H).
Defined.

Example sample_request :
  let R := Alerts.evaluateReading AlertSample.show AlertSample.getTime AlertSample.render
             (sendEmail text decimal smtp AlertSample.delivers) AlertSample.db
             AlertSample.reading in
  Alerts.status (fst R) = 200 /\
  map Alerts.alert_type (Alerts.insertions (snd R))
  = ["no_data"; "salinity_high"; "temperature_high"] /\
  map Alerts.alert_message (Alerts.insertions (snd R))
  = ["No new data received for 120 minutes (threshold: 60 minutes)";
     "Salinity is high: 35 ppt (threshold: 10 ppt)";
     "Temperature is high: 31" ++ Alerts.degrees ++ " (threshold: 30" ++ Alerts.degrees ++ ")"]
  /\
  filter Alerts.is_mark (snd R) = [Alerts.MarkSent ["40"; "41"; "42"]].
Proof. vm_compute. repeat split. Qed.

Lemma switched_off_device_raises_nothing_witness :
  Alerts.evaluateReading AlertSample.show AlertSample.getTime AlertSample.render
    (sendEmail text decimal smtp happy) AlertSample.switched_off AlertSample.reading
  = (Alerts.ok_response []
       {| Alerts.settings_device_id := "pond-1";
          Alerts.salinity_high := Alerts.num (QArith_base.Qmake 10 1);
          Alerts.ph_low := Alerts.JNull; Alerts.ph_high := Alerts.JNull;
          Alerts.temperature_low := Alerts.JNull; Alerts.temperature_high := Alerts.JNull;
          Alerts.battery_low := Alerts.JNull;
          Alerts.no_data_minutes := None; Alerts.cooldown_minutes := None;
          Alerts.email_to := None; Alerts.enabled := Some false |},
     [Alerts.SelectSettings "pond-1"]).
Proof.
  apply (switched_off_device_raises_nothing AlertSample.show AlertSample.getTime
           AlertSample.render (sendEmail text decimal smtp happy) AlertSample.switched_off
           AlertSample.reading).
  - vm_compute. discriminate.
  - reflexivity.
  - discriminate.
Defined.

(** The battery alert of ten minutes ago suppresses the one of this
    request, the stored cooldown of zero counting as fifteen minutes. *)
Lemma no_alert_during_cooldown_witness :
  ~ In "battery_low"
      (map Alerts.alert_type
         (Alerts.insertions
            (snd (Alerts.evaluateReading AlertSample.show AlertSample.getTime
                    AlertSample.render (sendEmail text decimal smtp happy) AlertSample.db
                    AlertSample.reading)))).
Proof.
  apply (no_alert_during_cooldown AlertSample.show AlertSample.getTime AlertSample.render
           (sendEmail text decimal smtp happy) AlertSample.db AlertSample.reading
           "battery_low" 1700000000000).
  - reflexivity.
  - vm_compute. reflexivity.
Defined.

Lemma failed_connection_fails_the_request_witness :
  let R := Alerts.evaluateReading AlertSample.show AlertSample.getTime AlertSample.render
             (sendEmail text decimal smtp refused) AlertSample.db AlertSample.reading in
  fst R = Alerts.server_error /\ Alerts.rows (snd R) <> [] /\
  filter Alerts.is_mark (snd R) = [] /\
  exists before p,
    snd R = (before
             ++ [Alerts.SendEmail p (Throw (SocketError "ECONNREFUSED"))
                   [Connect NetSocket "mail.example.org" (Some 587)
                      (Some (SocketError "ECONNREFUSED"))];
                 Alerts.ConsoleError (Alerts.EmailRejected (SocketError "ECONNREFUSED"))])%list.
Proof.
  apply (failed_connection_fails_the_request string text decimal AlertSample.show
           AlertSample.getTime AlertSample.render AlertSample.db smtp refused
           AlertSample.reading (SocketError "ECONNREFUSED")).
  - vm_compute. reflexivity.
  - vm_compute. discriminate.
  - reflexivity.
  - vm_compute. discriminate.
Defined.

Lemma unusable_mail_settings_keep_the_request_witness :
  let R := Alerts.evaluateReading AlertSample.show AlertSample.getTime AlertSample.render
             (sendEmail text decimal (fun _ => None) happy) AlertSample.db
             AlertSample.reading in
  fst R = Alerts.ok_response (Alerts.rows (snd R)) AlertSample.pond /\
  Alerts.rows (snd R) <> [] /\
  filter Alerts.is_mark (snd R) = [] /\ filter Alerts.is_logged (snd R) = [] /\
  exists before p t,
    snd R = (before ++ [Alerts.SendEmail p (Return false) t])%list /\
    filter is_connect t = [].
Proof.
  apply (unusable_mail_settings_keep_the_request string text decimal AlertSample.show
           AlertSample.getTime AlertSample.render AlertSample.db (fun _ => None) happy
           AlertSample.reading).
  - left. vm_compute. discriminate.
  - vm_compute. discriminate.
Defined.

Lemma shown_settings_are_the_ones_applied_witness :
  Alerts.getAlertSettings AlertSample.db "pond-1"
  = ({| Alerts.status := 200; Alerts.body := Alerts.Stored AlertSample.pond |},
     [Alerts.SelectSettings "pond-1"]).
Proof.
  apply (shown_settings_are_the_ones_applied AlertSample.show AlertSample.getTime
           AlertSample.render (sendEmail text decimal smtp AlertSample.delivers)
           AlertSample.db AlertSample.reading
           (Alerts.rows
              (snd (Alerts.evaluateReading AlertSample.show AlertSample.getTime
                      AlertSample.render (sendEmail text decimal smtp AlertSample.delivers)
                      AlertSample.db AlertSample.reading)))
           AlertSample.pond).
  vm_compute. reflexivity.
Defined.
